(** * Movie Review & Recommendation System

    A shallow embedding of the data-access layer ([models.py]) and of the
    request handlers ([app.py]) that the specification's testable
    properties talk about.

    The application is a thin layer over SQL: every "algorithm" is a query.
    The embedding therefore gives each query its relational meaning over
    tables held as lists of rows (FROM / JOIN / WHERE / GROUP BY /
    aggregates / ORDER BY / LIMIT, in SQL's logical order), and threads the
    Python side (sessions, flashes, exceptions, the connection object)
    through a small state-and-exception monad.

    Conventions.
    - SQL [NULL] is [None]; a comparison with [NULL] is not true.
    - Exact numerics ([DECIMAL] columns, [AVG], literals such as [0.7]) are
      rationals [Q]; the [float] parsed from a form field is a binary64
      [PrimFloat.float], as in Python.
    - Column names keep the alias the queries use: [m_Movie_ID] is
      [m.Movie_ID], [r_Score] is [r.Score], [up_Preference_Score] is
      [up.Preference_Score], and so on.
    - The schema file is not part of the sources.  What the queries need
      from it (the column collation used by [=], [LIKE], [GROUP BY] and
      [ORDER BY] on text) is a field of the database value, so that every
      theorem holds for every collation. *)

From Stdlib Require Import ZArith QArith Qround List String Ascii Bool Lia.
From Stdlib Require Import Sorted Permutation.
From Stdlib Require Import Floats.PrimFloat Floats.FloatOps Floats.SpecFloat.
From Stdlib Require Floats.FloatAxioms.
Import ListNotations.

Set Implicit Arguments.

(* ================================================================== *)
(** * SQL values, aggregates and relational operators *)
(* ================================================================== *)

Module Sql.

(** ** Collation: how text columns compare *)

Record collation : Type := Collation {
  co_eqb : string -> string -> bool;   (* [a = b] on text                 *)
  co_leb : string -> string -> bool;   (* [a] sorts no later than [b]     *)
  co_chr : ascii -> ascii -> bool      (* one character matches another   *)
}.

(** The binary collation: code-point comparison. *)
Definition binary : collation :=
  Collation String.eqb String.leb Ascii.eqb.

(** ** Comparisons that may meet a NULL *)

Definition eq_null (a : Z) (b : option Z) : bool :=
  match b with Some b' => Z.eqb a b' | None => false end.

Definition is_not_null {A} (x : option A) : bool :=
  match x with Some _ => true | None => false end.

Definition opt_eqb {A} (eqb : A -> A -> bool) (x y : option A) : bool :=
  match x, y with
  | Some a, Some b => eqb a b
  | None, None => true
  | _, _ => false
  end.

(** ** Aggregates.  Every aggregate skips NULL inputs. *)

Fixpoint non_null {A} (l : list (option A)) : list A :=
  match l with
  | [] => []
  | Some a :: l' => a :: non_null l'
  | None :: l' => non_null l'
  end.

(** [COUNT(expr)] *)
Definition COUNT {A} (l : list (option A)) : Z :=
  Z.of_nat (List.length (non_null l)).

(** [COUNT( * )] *)
Definition COUNT_star {A} (l : list A) : Z := Z.of_nat (List.length l).

Definition SUM (l : list Q) : Q := fold_right Qplus 0%Q l.

(** [AVG(expr)]: NULL over no non-NULL input. *)
Definition AVG (l : list (option Q)) : option Q :=
  match non_null l with
  | [] => None
  | x :: xs => Some (SUM (x :: xs) / inject_Z (Z.of_nat (List.length (x :: xs))))%Q
  end.

Definition Qmax (a b : Q) : Q := if Qle_bool a b then b else a.

(** [MAX(expr)] *)
Definition MAX (l : list (option Q)) : option Q :=
  match non_null l with
  | [] => None
  | x :: xs => Some (fold_left Qmax xs x)
  end.

Definition COALESCE (x : option Q) (d : Q) : Q :=
  match x with Some v => v | None => d end.

(** [ROUND(x, 2)] on an exact value: to the nearest hundredth, a half
    going away from zero. *)
Definition ROUND2 (x : Q) : Q :=
  let n := Qnum x in
  let d := Z.pos (Qden x) in
  let r := ((2 * 100 * Z.abs n + d) / (2 * d))%Z in
  ((Z.sgn n * r)%Z # 100)%Q.

(** [COUNT(DISTINCT expr)] on integers. *)
Fixpoint distinctZ (l : list Z) : list Z :=
  match l with
  | [] => []
  | x :: l' => x :: filter (fun y => negb (Z.eqb y x)) (distinctZ l')
  end.

Definition COUNT_DISTINCT (l : list (option Z)) : Z :=
  Z.of_nat (List.length (distinctZ (non_null l))).

(** ** FROM and JOIN *)

Definition join {A B} (l : list A) (r : list B) (on : A -> B -> bool)
  : list (A * B) :=
  flat_map (fun a => map (pair a) (filter (on a) r)) l.

Definition left_join {A B} (l : list A) (r : list B) (on : A -> B -> bool)
  : list (A * option B) :=
  flat_map (fun a =>
              match filter (on a) r with
              | [] => [(a, None)]
              | bs => map (fun b => (a, Some b)) bs
              end) l.

(** ** GROUP BY: the groups, in order of first appearance, each with the
    rows that fell into it, in input order. *)

Section GroupBy.
Variables (R K : Type) (key : R -> K) (keqb : K -> K -> bool).

Fixpoint group_insert (r : R) (gs : list (K * list R)) : list (K * list R) :=
  match gs with
  | [] => [(key r, [r])]
  | (k, rs) :: gs' =>
      if keqb (key r) k then (k, rs ++ [r]) :: gs'
      else (k, rs) :: group_insert r gs'
  end.

Definition group_by (rows : list R) : list (K * list R) :=
  fold_left (fun gs r => group_insert r gs) rows [].

End GroupBy.

(** ** ORDER BY: a stable insertion sort on "sorts no later than". *)

Section OrderBy.
Variables (A : Type) (leb : A -> A -> bool).

Fixpoint insert_sorted (x : A) (l : list A) : list A :=
  match l with
  | [] => [x]
  | y :: l' => if leb x y then x :: y :: l' else y :: insert_sorted x l'
  end.

Fixpoint order_by_from (acc : list A) (l : list A) : list A :=
  match l with
  | [] => acc
  | x :: l' => insert_sorted x (order_by_from acc l')
  end.

Definition order_by (l : list A) : list A := order_by_from [] l.

End OrderBy.

(** Sort keys.  [DESC] puts the larger value first and NULL last. *)

Definition cmpQ_desc (a b : Q) : comparison := Qcompare b a.

Definition cmpZ_desc (a b : Z) : comparison := Z.compare b a.

Definition cmp_null_desc (a b : option Q) : comparison :=
  match a, b with
  | Some x, Some y => cmpQ_desc x y
  | Some _, None => Lt
  | None, Some _ => Gt
  | None, None => Eq
  end.

(** Lexicographic chaining of sort keys. *)
Definition lex (c1 c2 : comparison) : comparison :=
  match c1 with Eq => c2 | _ => c1 end.

Definition no_later (c : comparison) : bool :=
  match c with Gt => false | _ => true end.

(** ** LIMIT: a negative count is a statement error. *)
Definition LIMIT {A} (n : Z) (l : list A) : option (list A) :=
  if (n <? 0)%Z then None else Some (firstn (Z.to_nat n) l).

(** ** LIKE.  In the pattern [%] matches any run of characters, [_] any
    one character and a backslash escapes the character after it; any
    other pattern character matches through the collation. *)

Definition is_percent (c : ascii) : bool := Ascii.eqb c "%"%char.
Definition is_underscore (c : ascii) : bool := Ascii.eqb c "_"%char.
Definition is_backslash (c : ascii) : bool := Ascii.eqb c "\"%char.

Fixpoint like_chars (chr : ascii -> ascii -> bool) (p : list ascii)
  : list ascii -> bool :=
  match p with
  | [] => fun s => match s with [] => true | _ :: _ => false end
  | c :: p' =>
      if is_percent c then
        fix star (s : list ascii) : bool :=
          like_chars chr p' s
          || match s with [] => false | _ :: s' => star s' end
      else if is_underscore c then
        fun s => match s with [] => false | _ :: s' => like_chars chr p' s' end
      else if is_backslash c then
        match p' with
        | [] => fun s =>
            match s with [x] => chr c x | _ => false end
        | d :: p'' => fun s =>
            match s with
            | [] => false
            | x :: s' => chr d x && like_chars chr p'' s'
            end
        end
      else
        fun s =>
          match s with
          | [] => false
          | x :: s' => chr c x && like_chars chr p' s'
          end
  end.

Definition LIKE (co : collation) (s pattern : string) : bool :=
  like_chars (co_chr co) (list_ascii_of_string pattern)
             (list_ascii_of_string s).

End Sql.

(* ================================================================== *)
(** * The relational schema *)
(* ================================================================== *)

(** Rows carry the columns the queries read.  The timestamp columns
    ([Created_At], [Updated_At]) take part in none of the queries embedded
    here and are left out. *)

Record movie_row : Type := MovieRow {
  m_Movie_ID : Z;
  m_Title : string;
  m_Description : option string;
  m_Year : option Z;
  m_Length : option Z;
  m_Age_Rating : option string
}.

Record show_row : Type := ShowRow {
  s_Show_ID : Z;
  s_Title : string;
  s_Description : option string;
  s_Year : option Z;
  s_Seasons : option Z;
  s_Episodes : option Z;
  s_Age_Rating : option string
}.

Record review_row : Type := ReviewRow {
  r_Review_ID : Z;
  r_User_ID : Z;
  r_Movie_ID : option Z;
  r_Show_ID : option Z;
  r_Score : Q;
  r_Title : string;
  r_Content : option string
}.

Record friends_row : Type := FriendsRow {
  f_User_ID1 : Z;
  f_User_ID2 : Z
}.

Record preference_row : Type := PreferenceRow {
  up_User_ID : Z;
  up_Genre_ID : Z;
  up_Preference_Score : Q
}.

Record movie_genre_row : Type := MovieGenreRow {
  mg_Movie_ID : Z;
  mg_Genre_ID : Z
}.

Record user_row : Type := UserRow {
  u_User_ID : Z;
  u_Name : string;
  u_Age : option Z;
  u_Role : string;
  u_Email : string;
  u_PasswordHash : string;
  u_Gender : option string;
  u_verified_entity_type : option string;
  u_verified_entity_id : option Z
}.

Record company_row : Type := CompanyRow {
  pc_Company_ID : Z;
  pc_Name : string
}.

Record celebrity_row : Type := CelebrityRow {
  c_Celebrity_ID : Z;
  c_Name : string
}.

Record database : Type := Database {
  db_collation : Sql.collation;
  tbl_Movie : list movie_row;
  tbl_TV_Show : list show_row;
  tbl_Reviews : list review_row;
  tbl_Friends : list friends_row;
  tbl_User_Preferences : list preference_row;
  tbl_Movie_Genre : list movie_genre_row;
  tbl_User : list user_row;
  tbl_Production_Company : list company_row;
  tbl_Celebrity : list celebrity_row
}.

Definition set_Reviews (rs : list review_row) (d : database) : database :=
  Database (db_collation d) (tbl_Movie d) (tbl_TV_Show d) rs (tbl_Friends d)
           (tbl_User_Preferences d) (tbl_Movie_Genre d) (tbl_User d)
           (tbl_Production_Company d) (tbl_Celebrity d).

Definition set_User (us : list user_row) (d : database) : database :=
  Database (db_collation d) (tbl_Movie d) (tbl_TV_Show d) (tbl_Reviews d)
           (tbl_Friends d) (tbl_User_Preferences d) (tbl_Movie_Genre d) us
           (tbl_Production_Company d) (tbl_Celebrity d).

Definition set_Friends (fs : list friends_row) (d : database) : database :=
  Database (db_collation d) (tbl_Movie d) (tbl_TV_Show d) (tbl_Reviews d)
           fs (tbl_User_Preferences d) (tbl_Movie_Genre d) (tbl_User d)
           (tbl_Production_Company d) (tbl_Celebrity d).

(* ================================================================== *)
(** * The Python side: sessions, exceptions, the connection *)
(* ================================================================== *)

(** Flask's [session]: the three keys [login] sets.  A key is in the
    session when its field is [Some]. *)
Record session_t : Type := Session {
  user_id : option Z;
  user_name : option string;
  user_role : option string
}.

Definition empty_session : session_t := Session None None None.

(** [mysql.connector.Error], and every other [Exception]. *)
Inductive exn : Type :=
| MySQLError (msg : string)
| OtherException (msg : string).

Definition is_Error (e : exn) : bool :=
  match e with MySQLError _ => true | OtherException _ => false end.

Definition is_Exception (e : exn) : bool := true.

Inductive verb : Type := SELECT | INSERT | UPDATE | DELETE.

Definition is_select (v : verb) : bool :=
  match v with SELECT => true | _ => false end.

(** What a request does that an observer can see. *)
Inductive event : Type :=
| Execute (v : verb) (table : string)       (* cursor.execute(query)      *)
| Callproc (name : string)                  (* cursor.callproc(name)      *)
| Commit                                    (* connection.commit()        *)
| Rollback                                  (* connection.rollback()      *)
| Flash (message category : string).        (* flash(message, category)   *)

(** A persistence call: anything sent to the database. *)
Definition is_persistence (e : event) : bool :=
  match e with
  | Execute _ _ | Callproc _ | Commit | Rollback => true
  | Flash _ _ => false
  end.

(** A statement or procedure call that writes. *)
Definition is_write (e : event) : bool :=
  match e with
  | Execute v _ => negb (is_select v)
  | Callproc _ => true
  | _ => false
  end.

(** The state of the server's connection before a call: it serves the
    call, the driver raises [Error] while running it, or there is no
    connection at all and [self.connection.cursor] fails before the [try]
    (an [AttributeError], which is not an [Error]). *)
Inductive fault : Type := Healthy | DriverError (msg : string) | NoConnection.

(** [werkzeug.security], outside the repository. *)
Record security : Type := Security {
  generate_password_hash : string -> string;
  check_password_hash : string -> string -> bool
}.

Record world : Type := World {
  w_db : database;
  w_session : session_t;
  w_faults : list fault;        (* one entry per database call to come *)
  w_trace : list event;         (* most recent event last              *)
  w_security : security
}.

Inductive result (A : Type) : Type :=
| Ok (a : A)
| Raise (e : exn).
Arguments Ok {A} a.
Arguments Raise {A} e.

Definition M (A : Type) : Type := world -> result A * world.

Definition ret {A} (a : A) : M A := fun w => (Ok a, w).

Definition bind {A B} (c : M A) (k : A -> M B) : M B :=
  fun w => match c w with
           | (Ok a, w') => k a w'
           | (Raise e, w') => (Raise e, w')
           end.

Declare Scope py_scope.
Delimit Scope py_scope with py.
Notation "x <- c ;; k" := (bind c (fun x => k))
  (at level 61, c at next level, right associativity) : py_scope.
Notation "c ;;; k" := (bind c (fun _ => k))
  (at level 61, right associativity) : py_scope.
Open Scope py_scope.

Definition raise {A} (e : exn) : M A := fun w => (Raise e, w).

(** [try: body  except <class> as e: handler e] *)
Definition try_except {A} (body : M A) (class : exn -> bool)
           (handler : exn -> M A) : M A :=
  fun w => match body w with
           | (Raise e, w') => if class e then handler e w' else (Raise e, w')
           | r => r
           end.

Definition emit (e : event) : M unit :=
  fun w => (Ok tt, World (w_db w) (w_session w) (w_faults w)
                         (w_trace w ++ [e]) (w_security w)).

Definition flash (message category : string) : M unit :=
  emit (Flash message category).

Definition get_session : M session_t := fun w => (Ok (w_session w), w).

Definition put_session (s : session_t) : M unit :=
  fun w => (Ok tt, World (w_db w) s (w_faults w) (w_trace w) (w_security w)).

Definition get_db : M database := fun w => (Ok (w_db w), w).

Definition put_db (d : database) : M unit :=
  fun w => (Ok tt, World d (w_session w) (w_faults w) (w_trace w)
                         (w_security w)).

Definition get_security : M security := fun w => (Ok (w_security w), w).

(** The connection's state for the call about to be made. *)
Definition next_fault : M fault :=
  fun w => match w_faults w with
           | [] => (Ok Healthy, w)
           | f :: fs => (Ok f, World (w_db w) (w_session w) fs (w_trace w)
                                     (w_security w))
           end.

(** ** [DatabaseConnection] *)

(** A statement with its meaning: the table state after it and what the
    cursor then holds, or the server's error message. *)
Record statement (A : Type) : Type := Statement {
  st_verb : verb;
  st_table : string;
  st_run : database -> string + (database * A)
}.

(** A read: [fetchall()] of a SELECT. *)
Definition select {A} (table : string) (rows : database -> list A)
  : statement (list A) :=
  Statement SELECT table (fun d => inr (d, rows d)).

(** A stored procedure with its meaning: the table state after it and
    the rows of its result sets, or the error it signals. *)
Record procedure (A : Type) : Type := Procedure {
  p_name : string;
  p_run : database -> string + (database * list A)
}.

Module DatabaseConnection.

(** [get_cursor] *)
Definition get_cursor : M fault :=
  f <- next_fault ;;
  match f with
  | NoConnection =>
      raise (OtherException "'NoneType' object has no attribute 'cursor'")
  | _ => ret f
  end.

(** [execute_query]: rows for a SELECT; for any other statement commit
    and return the row count.  An [Error] rolls back and is raised
    again. *)
Definition execute_query {A} (q : statement A) : M A :=
  f <- get_cursor ;;
  try_except
    (emit (Execute (st_verb q) (st_table q)) ;;;
     d <- get_db ;;
     match f, st_run q d with
     | DriverError msg, _ => raise (MySQLError msg)
     | _, inl msg => raise (MySQLError msg)
     | _, inr (d', a) =>
         if is_select (st_verb q) then ret a
         else put_db d' ;;; emit Commit ;;; ret a
     end)
    is_Error
    (fun e => emit Rollback ;;; raise e).

(** [execute_procedure]: the rows of all result sets, then commit.  An
    [Error] rolls back and is raised again. *)
Definition execute_procedure {A} (p : procedure A) : M (list A) :=
  f <- get_cursor ;;
  try_except
    (emit (Callproc (p_name p)) ;;;
     d <- get_db ;;
     match f, p_run p d with
     | DriverError msg, _ => raise (MySQLError msg)
     | _, inl msg => raise (MySQLError msg)
     | _, inr (d', results) => put_db d' ;;; emit Commit ;;; ret results
     end)
    is_Error
    (fun e => emit Rollback ;;; raise e).

End DatabaseConnection.
Import DatabaseConnection.

(* ================================================================== *)
(** * models.py *)
(* ================================================================== *)

Open Scope Z_scope.

(** Python truthiness of an optional integer and of an optional string:
    [None], [0] and [''] are false. *)
Definition truthy_int (x : option Z) : bool :=
  match x with Some n => negb (n =? 0) | None => false end.

Definition truthy_str (x : option string) : bool :=
  match x with Some s => negb (String.eqb s EmptyString) | None => false end.

(** [results[0] if results else None] *)
Definition first_or_None {A} (results : list A) : option A := hd_error results.

(** [m.Movie_ID NOT IN (SELECT ...)] over a subquery without NULLs. *)
Definition NOT_IN (x : Z) (l : list Z) : bool := negb (existsb (Z.eqb x) l).

(** [SELECT Movie_ID FROM Reviews WHERE User_ID = %s AND Movie_ID IS NOT
    NULL] *)
Definition reviewed_movie_ids (d : database) (user : Z) : list Z :=
  Sql.non_null
    (map r_Movie_ID
         (filter (fun r => (r_User_ID r =? user)
                           && Sql.is_not_null (r_Movie_ID r))
                 (tbl_Reviews d))).

(** The columns [m.Movie_ID, m.Title, m.Description, m.Year, m.Length,
    m.Age_Rating] as a grouping key. *)
Definition movie_keqb (co : Sql.collation) (a b : movie_row) : bool :=
  (m_Movie_ID a =? m_Movie_ID b)
  && Sql.co_eqb co (m_Title a) (m_Title b)
  && Sql.opt_eqb (Sql.co_eqb co) (m_Description a) (m_Description b)
  && Sql.opt_eqb Z.eqb (m_Year a) (m_Year b)
  && Sql.opt_eqb Z.eqb (m_Length a) (m_Length b)
  && Sql.opt_eqb (Sql.co_eqb co) (m_Age_Rating a) (m_Age_Rating b).

Module User.

(** Modelled from the spec: the stored procedure [sp_add_user], which is
    not among the sources.  It stores the new user and returns one row
    holding the newly generated identifier. *)
Definition sp_add_user (name : string) (age : option Z) (role email
  password_hash : string) (gender verified_entity_type : option string)
  (verified_entity_id : option Z) : procedure Z :=
  Procedure "sp_add_user"
    (fun d =>
       let new_user_id :=
         1 + fold_right Z.max 0 (map u_User_ID (tbl_User d)) in
       inr (set_User (tbl_User d ++
                      [UserRow new_user_id name age role email password_hash
                               gender verified_entity_type
                               verified_entity_id]) d,
            [new_user_id])).

Definition create_user (name email password role : string) (age : option Z)
  (gender verified_entity_type : option string)
  (verified_entity_id : option Z) : M (option Z) :=
  try_except
    (sec <- get_security ;;
     let password_hash := generate_password_hash sec password in
     results <- execute_procedure
                  (sp_add_user name age role email password_hash gender
                               verified_entity_type verified_entity_id) ;;
     ret (first_or_None results))
    is_Error
    (fun e => raise e).

Definition get_user_by_email (email : string) : M (option user_row) :=
  results <- execute_query
               (select "User"
                  (fun d => filter (fun u => Sql.co_eqb (db_collation d)
                                                        (u_Email u) email)
                                   (tbl_User d))) ;;
  ret (first_or_None results).

Definition get_user_by_id (id : Z) : M (option user_row) :=
  results <- execute_query
               (select "User"
                  (fun d => filter (fun u => u_User_ID u =? id)
                                   (tbl_User d))) ;;
  ret (first_or_None results).

Definition verify_password (user : user_row) (password : string) : M bool :=
  sec <- get_security ;;
  ret (check_password_hash sec (u_PasswordHash user) password).

End User.

Module Movie.

Record listed_movie : Type := ListedMovie {
  lm_movie : movie_row;                 (* m.*          *)
  lm_review_count : Z;
  lm_avg_rating : option Q
}.

(** One row of [Movie m LEFT JOIN Reviews r (JOIN Movie_Genre mg)]. *)
Definition filtered_row : Type :=
  (movie_row * option review_row * option movie_genre_row)%type.

Definition fr_m (x : filtered_row) : movie_row := fst (fst x).
Definition fr_r (x : filtered_row) : option review_row := snd (fst x).
Definition fr_mg (x : filtered_row) : option movie_genre_row := snd x.

Definition movie_left_join_reviews (d : database)
  : list (movie_row * option review_row) :=
  Sql.left_join (tbl_Movie d) (tbl_Reviews d)
                (fun m r => Sql.eq_null (m_Movie_ID m) (r_Movie_ID r)).

(** The pattern [f"%{search_query}%"]. *)
Definition like_pattern (search_query : string) : string :=
  ("%" ++ search_query ++ "%")%string.

(** The WHERE clauses, joined by AND; each is present only when its
    filter is. *)
Definition filtered_where (d : database) (genre_id : option Z)
  (search_query : option string) (x : filtered_row) : bool :=
  (if truthy_int genre_id
   then match fr_mg x, genre_id with
        | Some mg, Some g => mg_Genre_ID mg =? g
        | _, _ => false
        end
   else true)
  && (if truthy_str search_query
      then match search_query with
           | Some q => Sql.LIKE (db_collation d) (m_Title (fr_m x))
                                (like_pattern q)
           | None => false
           end
      else true).

Definition filtered_rows (d : database) (genre_id : option Z)
  (search_query : option string) : list filtered_row :=
  let base := movie_left_join_reviews d in
  let joined :=
    if truthy_int genre_id
    then map (fun x => (fst x, Some (snd x)))
             (Sql.join base (tbl_Movie_Genre d)
                       (fun x mg => m_Movie_ID (fst x) =? mg_Movie_ID mg))
    else map (fun x => (x, None)) base in
  filter (filtered_where d genre_id search_query) joined.

Definition select_listed (g : movie_row * list filtered_row) : listed_movie :=
  ListedMovie (fst g)
              (Sql.COUNT (map (fun x => option_map r_Review_ID (fr_r x))
                              (snd g)))
              (option_map Sql.ROUND2
                 (Sql.AVG (map (fun x => option_map r_Score (fr_r x))
                               (snd g)))).

Definition movies_filtered_rows (d : database) (genre_id : option Z)
  (search_query : option string) : list listed_movie :=
  let groups :=
    Sql.group_by fr_m (fun a b => m_Movie_ID a =? m_Movie_ID b)
                 (filtered_rows d genre_id search_query) in
  Sql.order_by (fun a b => Sql.co_leb (db_collation d)
                                      (m_Title (lm_movie a))
                                      (m_Title (lm_movie b)))
               (map select_listed groups).

Definition get_movies_filtered (genre_id : option Z)
  (search_query : option string) : M (list listed_movie) :=
  execute_query
    (select "Movie" (fun d => movies_filtered_rows d genre_id search_query)).

Record detailed_movie : Type := DetailedMovie {
  dm_movie : movie_row;                 (* m.*          *)
  dm_review_count : Z;
  dm_avg_rating : option Q;
  dm_popularity_score : option Q
}.

(** [COUNT(r.Review_ID) * 0.7 + AVG(r.Score) * 0.3] *)
Definition detail_popularity (rs : list (option review_row)) : option Q :=
  option_map
    (fun avg => inject_Z (Sql.COUNT (map (option_map r_Review_ID) rs))
                * (7 # 10) + avg * (3 # 10))%Q
    (Sql.AVG (map (option_map r_Score) rs)).

Definition select_detailed
  (g : movie_row * list (movie_row * option review_row)) : detailed_movie :=
  let rs := map snd (snd g) in
  DetailedMovie (fst g)
                (Sql.COUNT (map (option_map r_Review_ID) rs))
                (option_map Sql.ROUND2 (Sql.AVG (map (option_map r_Score) rs)))
                (detail_popularity rs).

Definition movie_by_id_rows (d : database) (movie_id : Z)
  : list detailed_movie :=
  let rows := filter (fun x => m_Movie_ID (fst x) =? movie_id)
                     (movie_left_join_reviews d) in
  map select_detailed
      (Sql.group_by fst (fun a b => m_Movie_ID a =? m_Movie_ID b) rows).

Definition get_movie_by_id (movie_id : Z) : M (option detailed_movie) :=
  results <- execute_query
               (select "Movie" (fun d => movie_by_id_rows d movie_id)) ;;
  ret (first_or_None results).

(** [get_all_movies]: the same SELECT list over [Movie m LEFT JOIN
    Reviews r], grouped by movie and ordered by title, with no WHERE. *)
Definition select_all
  (g : movie_row * list (movie_row * option review_row)) : listed_movie :=
  ListedMovie (fst g)
              (Sql.COUNT (map (fun x => option_map r_Review_ID (snd x))
                              (snd g)))
              (option_map Sql.ROUND2
                 (Sql.AVG (map (fun x => option_map r_Score (snd x))
                               (snd g)))).

Definition all_movies_rows (d : database) : list listed_movie :=
  let groups :=
    Sql.group_by fst (fun a b => m_Movie_ID a =? m_Movie_ID b)
                 (movie_left_join_reviews d) in
  Sql.order_by (fun a b => Sql.co_leb (db_collation d)
                                      (m_Title (lm_movie a))
                                      (m_Title (lm_movie b)))
               (map select_all groups).

Definition get_all_movies : M (list listed_movie) :=
  execute_query (select "Movie" all_movies_rows).

End Movie.

Module TVShow.

Record detailed_show : Type := DetailedShow {
  ds_show : show_row;                   (* s.*          *)
  ds_review_count : Z;
  ds_avg_rating : option Q
}.

Definition show_left_join_reviews (d : database)
  : list (show_row * option review_row) :=
  Sql.left_join (tbl_TV_Show d) (tbl_Reviews d)
                (fun s r => Sql.eq_null (s_Show_ID s) (r_Show_ID r)).

Definition select_detailed
  (g : show_row * list (show_row * option review_row)) : detailed_show :=
  let rs := map snd (snd g) in
  DetailedShow (fst g)
               (Sql.COUNT (map (option_map r_Review_ID) rs))
               (option_map Sql.ROUND2 (Sql.AVG (map (option_map r_Score) rs))).

Definition show_by_id_rows (d : database) (show_id : Z) : list detailed_show :=
  let rows := filter (fun x => s_Show_ID (fst x) =? show_id)
                     (show_left_join_reviews d) in
  map select_detailed
      (Sql.group_by fst (fun a b => s_Show_ID a =? s_Show_ID b) rows).

Definition get_show_by_id (show_id : Z) : M (option detailed_show) :=
  results <- execute_query
               (select "TV_Show" (fun d => show_by_id_rows d show_id)) ;;
  ret (first_or_None results).

End TVShow.

(** A Python [float] bound to the score parameter.  How the driver
    writes the value and how the column stores it are decided outside
    the sources; here a finite value is kept as the rational it denotes,
    in lowest terms, which is the stored score for whole numbers, and
    [nan] and the infinities are taken to be refused by the server. *)
Definition float_to_decimal (f : float) : option Q :=
  match Prim2SF f with
  | S754_zero _ => Some 0%Q
  | S754_finite s m e =>
      Some (Qred ((if s then -1 else 1) * inject_Z (Z.pos m) * Qpower 2 e))%Q
  | S754_infinity _ | S754_nan => None
  end.

Module Review.

(** The review already stored for this author on this content item. *)
Definition same_target (movie_id show_id : option Z) (r : review_row) : bool :=
  match movie_id, show_id with
  | Some m, _ => Sql.eq_null m (r_Movie_ID r)
  | None, Some s => Sql.eq_null s (r_Show_ID r)
  | None, None => false
  end.

(** Modelled from the spec: the stored procedure [sp_add_review], which
    is not among the sources.  "At most one review per (user, content
    item) pair (violated attempts fail)": a second review by the same
    user on the same item signals an error and stores nothing; otherwise
    the review is stored under a newly generated identifier. *)
Definition sp_add_review (user : Z) (movie_id show_id : option Z)
  (score : float) (title : string) (content : option string)
  : procedure unit :=
  Procedure "sp_add_review"
    (fun d =>
       if existsb (fun r => (r_User_ID r =? user)
                            && same_target movie_id show_id r)
                  (tbl_Reviews d)
       then inl "User has already reviewed this content"%string
       else
         match float_to_decimal score with
         | None => inl "Incorrect decimal value for Score"%string
         | Some sc =>
             let new_id :=
               1 + fold_right Z.max 0 (map r_Review_ID (tbl_Reviews d)) in
             inr (set_Reviews (tbl_Reviews d ++
                               [ReviewRow new_id user movie_id show_id sc
                                          title content]) d,
                  [])
         end).

Definition create_review (user : Z) (score : float) (title : string)
  (content : option string) (movie_id show_id : option Z) : M bool :=
  try_except
    (results <- execute_procedure
                  (sp_add_review user movie_id show_id score title content) ;;
     ret true)
    is_Error
    (fun e => raise e).

Record review_view : Type := ReviewView {
  rv_review : review_row;               (* r.*          *)
  rv_movie_title : option string;
  rv_show_title : option string
}.

Definition review_by_id_rows (d : database) (review_id : Z)
  : list review_view :=
  let rm := Sql.left_join (tbl_Reviews d) (tbl_Movie d)
              (fun r m => Sql.eq_null (m_Movie_ID m) (r_Movie_ID r)) in
  let rms := Sql.left_join rm (tbl_TV_Show d)
               (fun x s => Sql.eq_null (s_Show_ID s) (r_Show_ID (fst x))) in
  map (fun x => ReviewView (fst (fst x))
                           (option_map m_Title (snd (fst x)))
                           (option_map s_Title (snd x)))
      (filter (fun x => r_Review_ID (fst (fst x)) =? review_id) rms).

Definition get_review_by_id (review_id : Z) : M (option review_view) :=
  try_except
    (results <- execute_query
                  (select "Reviews" (fun d => review_by_id_rows d review_id)) ;;
     ret (first_or_None results))
    is_Error
    (fun e => raise e).

(** [UPDATE Reviews SET Score = %s, Title = %s, Content = %s, Updated_At
    = NOW() WHERE Review_ID = %s]: the rows with the id take the new
    title and content and the score as [float_to_decimal] gives it. *)
Definition update_statement (review_id : Z) (score : float) (title : string)
  (content : option string) : statement Z :=
  Statement UPDATE "Reviews"
    (fun d =>
       match float_to_decimal score with
       | None => inl "Incorrect decimal value for Score"%string
       | Some sc =>
           inr (set_Reviews
                  (map (fun r => if r_Review_ID r =? review_id
                                 then ReviewRow (r_Review_ID r) (r_User_ID r)
                                                (r_Movie_ID r) (r_Show_ID r)
                                                sc title content
                                 else r)
                       (tbl_Reviews d)) d,
                Sql.COUNT_star (filter (fun r => r_Review_ID r =? review_id)
                                       (tbl_Reviews d)))
       end).

Definition update_review (review_id : Z) (score : float) (title : string)
  (content : option string) : M bool :=
  try_except
    (execute_query (update_statement review_id score title content) ;;;
     ret true)
    is_Error
    (fun e => raise e).

Definition delete_statement (review_id : Z) : statement Z :=
  Statement DELETE "Reviews"
    (fun d =>
       inr (set_Reviews (filter (fun r => negb (r_Review_ID r =? review_id))
                                (tbl_Reviews d)) d,
            Sql.COUNT_star (filter (fun r => r_Review_ID r =? review_id)
                                   (tbl_Reviews d)))).

Definition delete_review (review_id : Z) : M bool :=
  try_except
    (execute_query (delete_statement review_id) ;;; ret true)
    is_Error
    (fun e => raise e).

End Review.

Module Friendship.

(** [(User_ID1 = %s AND User_ID2 = %s) OR (User_ID1 = %s AND User_ID2 =
    %s)] with the parameters [(user1, user2, user2, user1)]. *)
Definition either_orientation (user1 user2 : Z) (f : friends_row) : bool :=
  ((f_User_ID1 f =? user1) && (f_User_ID2 f =? user2))
  || ((f_User_ID1 f =? user2) && (f_User_ID2 f =? user1)).

(** [SELECT COUNT( * ) as are_friends FROM Friends WHERE ...]: one row. *)
Definition are_friends_rows (d : database) (user1 user2 : Z) : list Z :=
  [Sql.COUNT_star (filter (either_orientation user1 user2) (tbl_Friends d))].

Definition are_friends (user1 user2 : Z) : M bool :=
  results <- execute_query
               (select "Friends" (fun d => are_friends_rows d user1 user2)) ;;
  ret (match results with
       | are_friends :: _ => are_friends >? 0
       | [] => false
       end).

(** [DELETE FROM Friends WHERE (User_ID1 = %s AND User_ID2 = %s) OR
    (User_ID1 = %s AND User_ID2 = %s)] with the parameters [(user1,
    user2, user2, user1)]; the row count is the number of rows deleted. *)
Definition remove_statement (user1 user2 : Z) : statement Z :=
  Statement DELETE "Friends"
    (fun d =>
       inr (set_Friends
              (filter (fun f => negb (either_orientation user1 user2 f))
                      (tbl_Friends d)) d,
            Sql.COUNT_star (filter (either_orientation user1 user2)
                                   (tbl_Friends d)))).

Definition remove_friendship (user1 user2 : Z) : M bool :=
  try_except
    (result <- execute_query (remove_statement user1 user2) ;;
     ret (result >? 0))
    is_Error
    (fun e => raise e).

End Friendship.

Module Recommendation.

(** *** Preference-based recommendation *)

Record recommended_movie : Type := RecommendedMovie {
  rec_movie : movie_row;                (* the six selected m columns *)
  rec_avg_rating : option Q;
  rec_review_count : Z;
  rec_max_preference_score : Q
}.

(** One row of [Movie m LEFT JOIN Reviews r LEFT JOIN User_Preferences
    up]. *)
Definition pref_row : Type :=
  (movie_row * option review_row * option preference_row)%type.

Definition pr_m (x : pref_row) : movie_row := fst (fst x).
Definition pr_r (x : pref_row) : option review_row := snd (fst x).
Definition pr_up (x : pref_row) : option preference_row := snd x.

(** [SELECT mg.Genre_ID FROM Movie_Genre mg WHERE mg.Movie_ID =
    m.Movie_ID] *)
Definition genres_of (d : database) (m : movie_row) : list Z :=
  map mg_Genre_ID
      (filter (fun mg => mg_Movie_ID mg =? m_Movie_ID m) (tbl_Movie_Genre d)).

(** FROM, both LEFT JOINs and WHERE. *)
Definition pref_rows (d : database) (user : Z) : list pref_row :=
  let mr := Sql.left_join (tbl_Movie d) (tbl_Reviews d)
              (fun m r => Sql.eq_null (m_Movie_ID m) (r_Movie_ID r)) in
  let mru := Sql.left_join mr (tbl_User_Preferences d)
               (fun x up => existsb (Z.eqb (up_Genre_ID up))
                                    (genres_of d (fst x))
                            && (up_User_ID up =? user)) in
  filter (fun x => NOT_IN (m_Movie_ID (pr_m x)) (reviewed_movie_ids d user))
         mru.

Definition pref_group : Type := (movie_row * list pref_row)%type.

(** The aggregates of a group. *)
Definition avg_score (g : pref_group) : option Q :=
  Sql.AVG (map (fun x => option_map r_Score (pr_r x)) (snd g)).

Definition review_count (g : pref_group) : Z :=
  Sql.COUNT (map (fun x => option_map r_Review_ID (pr_r x)) (snd g)).

Definition max_preference_score (g : pref_group) : Q :=
  Sql.COALESCE
    (Sql.MAX (map (fun x => option_map up_Preference_Score (pr_up x))
                  (snd g)))
    0%Q.

(** [ORDER BY max_preference_score DESC, AVG(r.Score) DESC,
    COUNT(r.Review_ID) DESC] *)
Definition pref_order (g1 g2 : pref_group) : comparison :=
  Sql.lex (Sql.cmpQ_desc (max_preference_score g1) (max_preference_score g2))
    (Sql.lex (Sql.cmp_null_desc (avg_score g1) (avg_score g2))
       (Sql.cmpZ_desc (review_count g1) (review_count g2))).

Definition select_recommended (g : pref_group) : recommended_movie :=
  RecommendedMovie (fst g)
                   (option_map Sql.ROUND2 (avg_score g))
                   (review_count g)
                   (max_preference_score g).

Definition pref_groups (d : database) (user : Z) : list pref_group :=
  Sql.group_by pr_m (movie_keqb (db_collation d)) (pref_rows d user).

Definition movie_recommendations_statement (user : Z) (limit : Z)
  : statement (list recommended_movie) :=
  Statement SELECT "Movie"
    (fun d =>
       match Sql.LIMIT limit
               (map select_recommended
                    (Sql.order_by
                       (fun a b => Sql.no_later (pref_order a b))
                       (pref_groups d user))) with
       | Some rows => inr (d, rows)
       | None => inl "You have an error in your SQL syntax"%string
       end).

Definition get_movie_recommendations (user : Z) (limit : Z)
  : M (list recommended_movie) :=
  try_except
    (execute_query (movie_recommendations_statement user limit))
    is_Error
    (fun e => raise e).

(** *** Friend-activity recommendation *)

Record friend_recommended : Type := FriendRecommended {
  fr_movie : movie_row;                 (* the six selected m columns *)
  fr_avg_rating : option Q;
  fr_review_count : Z;
  fr_friend_likes : Z;
  fr_content_type : string
}.

(** One row of [Movie m JOIN Reviews r JOIN Friends f]. *)
Definition friend_row : Type := (movie_row * review_row * friends_row)%type.

Definition fw_m (x : friend_row) : movie_row := fst (fst x).
Definition fw_r (x : friend_row) : review_row := snd (fst x).
Definition fw_f (x : friend_row) : friends_row := snd x.

(** [(f.User_ID1 = %s AND f.User_ID2 = r.User_ID) OR (f.User_ID2 = %s AND
    f.User_ID1 = r.User_ID)] *)
Definition friend_of_reviewer (user : Z) (r : review_row) (f : friends_row)
  : bool :=
  ((f_User_ID1 f =? user) && (f_User_ID2 f =? r_User_ID r))
  || ((f_User_ID2 f =? user) && (f_User_ID1 f =? r_User_ID r)).

(** FROM, both JOINs and WHERE. *)
Definition friend_rows (d : database) (user : Z) : list friend_row :=
  let mr := Sql.join (tbl_Movie d) (tbl_Reviews d)
              (fun m r => Sql.eq_null (m_Movie_ID m) (r_Movie_ID r)) in
  let mrf := Sql.join mr (tbl_Friends d)
               (fun x f => friend_of_reviewer user (snd x) f) in
  filter (fun x => NOT_IN (m_Movie_ID (fw_m x)) (reviewed_movie_ids d user)
                   && Qle_bool 7 (r_Score (fw_r x)))
         mrf.

(** [CASE WHEN f.User_ID1 = %s THEN f.User_ID2 WHEN f.User_ID2 = %s THEN
    f.User_ID1 END] *)
Definition the_friend (user : Z) (f : friends_row) : option Z :=
  if f_User_ID1 f =? user then Some (f_User_ID2 f)
  else if f_User_ID2 f =? user then Some (f_User_ID1 f)
  else None.

Definition friend_group : Type := (movie_row * list friend_row)%type.

Definition friend_avg_rating (g : friend_group) : option Q :=
  option_map Sql.ROUND2
             (Sql.AVG (map (fun x => Some (r_Score (fw_r x))) (snd g))).

Definition friend_likes (user : Z) (g : friend_group) : Z :=
  Sql.COUNT_DISTINCT (map (fun x => the_friend user (fw_f x)) (snd g)).

Definition select_friend_recommended (user : Z) (g : friend_group)
  : friend_recommended :=
  FriendRecommended (fst g)
                    (friend_avg_rating g)
                    (Sql.COUNT (map (fun x => Some (r_Review_ID (fw_r x)))
                                    (snd g)))
                    (friend_likes user g)
                    "movie".

(** [ORDER BY friend_likes DESC, avg_rating DESC], both select-list
    aliases. *)
Definition friend_order (a b : friend_recommended) : comparison :=
  Sql.lex (Sql.cmpZ_desc (fr_friend_likes a) (fr_friend_likes b))
          (Sql.cmp_null_desc (fr_avg_rating a) (fr_avg_rating b)).

Definition friend_groups (d : database) (user : Z) : list friend_group :=
  Sql.group_by fw_m (movie_keqb (db_collation d)) (friend_rows d user).

Definition friend_recommendations_statement (user : Z) (limit : Z)
  : statement (list friend_recommended) :=
  Statement SELECT "Movie"
    (fun d =>
       match Sql.LIMIT limit
               (Sql.order_by
                  (fun a b => Sql.no_later (friend_order a b))
                  (map (select_friend_recommended user)
                       (friend_groups d user))) with
       | Some rows => inr (d, rows)
       | None => inl "You have an error in your SQL syntax"%string
       end).

Definition get_friend_recommendations (user : Z) (limit : Z)
  : M (list friend_recommended) :=
  try_except
    (execute_query (friend_recommendations_statement user limit))
    is_Error
    (fun e => raise e).

End Recommendation.

Module Analytics.

Record popular_item : Type := PopularItem {
  p_Movie_ID : Z;                       (* s.Show_ID as Movie_ID for shows *)
  p_Title : string;
  p_Description : option string;
  p_Year : option Z;
  p_Age_Rating : option string;
  p_review_count : Z;
  p_average_rating : option Q;
  p_popularity_score : Q;
  p_content_type : string
}.

(** [COUNT(r.Review_ID) * COALESCE(AVG(r.Score), 0)] *)
Definition popularity (rs : list (option review_row)) : Q :=
  (inject_Z (Sql.COUNT (map (option_map r_Review_ID) rs))
   * Sql.COALESCE (Sql.AVG (map (option_map r_Score) rs)) 0)%Q.

(** The grouping columns [Movie_ID, Title, Description, Year,
    Age_Rating]. *)
Definition popular_key : Type :=
  (Z * string * option string * option Z * option string)%type.

Definition popular_keqb (co : Sql.collation) (a b : popular_key) : bool :=
  let '(i1, t1, d1, y1, g1) := a in
  let '(i2, t2, d2, y2, g2) := b in
  (i1 =? i2) && Sql.co_eqb co t1 t2 && Sql.opt_eqb (Sql.co_eqb co) d1 d2
  && Sql.opt_eqb Z.eqb y1 y2 && Sql.opt_eqb (Sql.co_eqb co) g1 g2.

Definition select_popular (content_type : string)
  (g : popular_key * list (popular_key * option review_row)) : popular_item :=
  let '(i, t, d, y, a) := fst g in
  let rs := map snd (snd g) in
  PopularItem i t d y a
              (Sql.COUNT (map (option_map r_Review_ID) rs))
              (option_map Sql.ROUND2 (Sql.AVG (map (option_map r_Score) rs)))
              (popularity rs)
              content_type.

Definition movie_key (m : movie_row) : popular_key :=
  (m_Movie_ID m, m_Title m, m_Description m, m_Year m, m_Age_Rating m).

Definition show_key (s : show_row) : popular_key :=
  (s_Show_ID s, s_Title s, s_Description s, s_Year s, s_Age_Rating s).

Definition popular_movie_part (d : database) : list popular_item :=
  map (select_popular "movie")
      (Sql.group_by fst (popular_keqb (db_collation d))
         (map (fun x => (movie_key (fst x), snd x))
              (Sql.left_join (tbl_Movie d) (tbl_Reviews d)
                 (fun m r => Sql.eq_null (m_Movie_ID m) (r_Movie_ID r))))).

Definition popular_show_part (d : database) : list popular_item :=
  map (select_popular "show")
      (Sql.group_by fst (popular_keqb (db_collation d))
         (map (fun x => (show_key (fst x), snd x))
              (Sql.left_join (tbl_TV_Show d) (tbl_Reviews d)
                 (fun s r => Sql.eq_null (s_Show_ID s) (r_Show_ID r))))).

(** [... UNION ALL ... ORDER BY popularity_score DESC LIMIT 20] *)
Definition popular_rows (d : database) : list popular_item :=
  firstn 20
    (Sql.order_by
       (fun a b => Sql.no_later (Sql.cmpQ_desc (p_popularity_score a)
                                               (p_popularity_score b)))
       (popular_movie_part d ++ popular_show_part d)).

Definition get_popular_movies : M (list popular_item) :=
  try_except
    (execute_query (select "Movie" popular_rows))
    is_Exception
    (fun e => raise e).

End Analytics.

Module ProductionCompany.

Definition get_all_companies : M (list company_row) :=
  execute_query
    (select "Production_Company"
       (fun d => Sql.order_by
                   (fun a b => Sql.co_leb (db_collation d)
                                          (pc_Name a) (pc_Name b))
                   (tbl_Production_Company d))).

End ProductionCompany.

Module Celebrity.

Definition get_all_celebrities : M (list celebrity_row) :=
  execute_query
    (select "Celebrity"
       (fun d => Sql.order_by
                   (fun a b => Sql.co_leb (db_collation d)
                                          (c_Name a) (c_Name b))
                   (tbl_Celebrity d))).

End Celebrity.

(* ================================================================== *)
(** * Requests, responses and Python built-ins *)
(* ================================================================== *)

Inductive http_method : Type := GET | POST.

(** A request.  [form] holds the fields of [request.form] as the typed
    getters deliver them: [get(key)] is [None] for a missing key, and
    [get(key, type=float)] or [get(key, type=int)] is [None] as well when
    the conversion fails. *)
Record request (F : Type) : Type := Request {
  method : http_method;
  referrer : option string;
  args : list (string * string);        (* request.args, as sent *)
  form : F
}.

(** [url_for(...)], and an address taken from the request. *)
Inductive url : Type :=
| url_login
| url_home
| url_profile
| url_movie_detail (movie_id : Z)
| url_show_detail (show_id : Z)
| url_edit_review (review_id : Z)
| url_of (address : string).

Inductive context_value : Type :=
| ctx_None
| ctx_movie (m : option Movie.detailed_movie)
| ctx_show (s : option TVShow.detailed_show)
| ctx_review (r : Review.review_view)
| ctx_companies (l : list company_row)
| ctx_celebrities (l : list celebrity_row).

Inductive response : Type :=
| Redirect (location : url)
| Render (template : string) (context : list (string * context_value)).

(** [request.referrer or url_for('home')] *)
Definition referrer_or_home {F} (req : request F) : url :=
  match referrer req with
  | Some r => if truthy_str (Some r) then url_of r else url_home
  | None => url_home
  end.

(** Python's [int(s)] on a string whose characters are code points
    below 256: surrounding whitespace is dropped (tab to carriage
    return, space, U+0085 and U+00A0; the separators U+001C to U+001F
    are not whitespace to [int]), a sign may lead, and the digits 0 to 9
    may be separated by single underscores.  More digits than the
    interpreter's default limit of 4300 are refused. *)
Definition is_space (c : ascii) : bool :=
  let n := nat_of_ascii c in
  ((n =? 32) || ((9 <=? n) && (n <=? 13)) || (n =? 133) || (n =? 160))%nat.

Definition is_digit (c : ascii) : bool :=
  let n := nat_of_ascii c in ((48 <=? n) && (n <=? 57))%nat.

Definition digit_value (c : ascii) : Z := Z.of_nat (nat_of_ascii c) - 48.

Fixpoint lstrip (l : list ascii) : list ascii :=
  match l with
  | c :: l' => if is_space c then lstrip l' else l
  | [] => []
  end.

Definition strip (l : list ascii) : list ascii :=
  rev (lstrip (rev (lstrip l))).

Fixpoint digits (acc : Z) (l : list ascii) : option Z :=
  match l with
  | [] => None
  | c :: l' =>
      if is_digit c then
        let acc' := 10 * acc + digit_value c in
        match l' with
        | [] => Some acc'
        | u :: l'' => if Sql.is_underscore u then digits acc' l''
                      else digits acc' l'
        end
      else None
  end.

Definition max_str_digits : nat := 4300.

Definition py_int (s : string) : option Z :=
  let text := strip (list_ascii_of_string s) in
  if (max_str_digits <? List.length (filter is_digit text))%nat then None
  else
    match text with
    | c :: l =>
        if Ascii.eqb c "-" then option_map Z.opp (digits 0 l)
        else if Ascii.eqb c "+" then digits 0 l
        else digits 0 (c :: l)
    | [] => None
    end.

(** [bool(x)] of a float: everything but zero, [nan] included. *)
Definition truthy_float (f : float) : bool := negb (PrimFloat.eqb f 0%float).

Fixpoint lookup (key : string) (l : list (string * string)) : option string :=
  match l with
  | [] => None
  | (k, v) :: l' => if String.eqb k key then Some v else lookup key l'
  end.

(** [request.args.get(key, type=int)] *)
Definition args_get_int {F} (req : request F) (key : string) : option Z :=
  match lookup key (args req) with
  | Some s => py_int s
  | None => None
  end.

Definition exn_message (e : exn) : string :=
  match e with MySQLError m => m | OtherException m => m end.

(** [session['user_id']] *)
Definition session_user_id : M Z :=
  s <- get_session ;;
  match user_id s with
  | Some uid => ret uid
  | None => raise (OtherException "KeyError: 'user_id'")
  end.

(** The decorator [login_required] of models.py. *)
Definition login_required (f : M response) : M response :=
  s <- get_session ;;
  match user_id s with
  | None =>
      flash "Please log in to access this page." "error" ;;;
      ret (Redirect url_login)
  | Some _ => f
  end.

(** The decorator [admin_required] of models.py.  app.py imports it and
    then defines its own under the same name, which is the one its
    routes use. *)
Definition admin_required (f : M response) : M response :=
  s <- get_session ;;
  match user_id s with
  | None =>
      flash "Please log in to access this page." "error" ;;;
      ret (Redirect url_login)
  | Some uid =>
      user <- User.get_user_by_id uid ;;
      match user with
      | Some u =>
          if negb (String.eqb (u_Role u) "admin") then
            flash "Admin access required." "error" ;;;
            ret (Redirect url_home)
          else f
      | None =>
          flash "Admin access required." "error" ;;;
          ret (Redirect url_home)
      end
  end.

(** The decorator [verified_user_required] of models.py. *)
Definition verified_user_required (f : M response) : M response :=
  s <- get_session ;;
  match user_id s with
  | None =>
      flash "Please log in to access this page." "error" ;;;
      ret (Redirect url_login)
  | Some uid =>
      user <- User.get_user_by_id uid ;;
      match user with
      | Some u =>
          if negb (existsb (String.eqb (u_Role u))
                           ["verified_user"; "admin"]%string) then
            flash "Verified user access required." "error" ;;;
            ret (Redirect url_home)
          else f
      | None =>
          flash "Verified user access required." "error" ;;;
          ret (Redirect url_home)
      end
  end.

(** [x == s] and [x == n] for a column that may be NULL: [None] equals
    no string and no integer. *)
Definition eq_str (x : option string) (s : string) : bool :=
  match x with Some v => String.eqb v s | None => false end.

Definition eq_int (x : option Z) (n : Z) : bool :=
  match x with Some v => v =? n | None => false end.

(** [can_edit_content] of models.py. *)
Definition can_edit_content (content_owner_type : string)
  (content_owner_id : Z) : M bool :=
  s <- get_session ;;
  match user_id s with
  | None => ret false
  | Some uid =>
      user <- User.get_user_by_id uid ;;
      match user with
      | None => ret false
      | Some u =>
          if String.eqb (u_Role u) "admin" then ret true
          else if String.eqb (u_Role u) "verified_user" then
            if String.eqb content_owner_type "company"
               && eq_str (u_verified_entity_type u) "company"
            then ret (eq_int (u_verified_entity_id u) content_owner_id)
            else if String.eqb content_owner_type "celebrity"
                    && eq_str (u_verified_entity_type u) "celebrity"
            then ret (eq_int (u_verified_entity_id u) content_owner_id)
            else ret false
          else ret false
      end
  end.

(* ================================================================== *)
(** * app.py *)
(* ================================================================== *)

Module app.

(** ** The decorator [admin_required] of app.py *)

(** [session.get('user_id')] is false for a missing key and for 0; the
    lookup of the user, the role test and the wrapped handler all run
    inside the [try]. *)
Definition admin_required (f : M response) : M response :=
  s <- get_session ;;
  if negb (truthy_int (user_id s)) then
    flash "Please log in to access this page." "error" ;;;
    ret (Redirect url_login)
  else
    try_except
      (uid <- session_user_id ;;
       user <- User.get_user_by_id uid ;;
       match user with
       | None =>
           flash "User not found." "error" ;;;
           ret (Redirect url_login)
       | Some u =>
           if negb (String.eqb (u_Role u) "admin") then
             flash "Access denied. Admin privileges required." "error" ;;;
             ret (Redirect url_home)
           else f
       end)
      is_Exception
      (fun e =>
         flash ("Error checking admin access: " ++ exn_message e) "error" ;;;
         ret (Redirect url_home)).

(** ** /login *)

Record login_form : Type := LoginForm {
  lf_email : option string;
  lf_password : option string
}.

Definition login (req : request login_form) : M response :=
  fallthrough <-
    match method req with
    | POST =>
        match lf_email (form req), lf_password (form req) with
        | Some email, Some password =>
            if negb (truthy_str (Some email))
               || negb (truthy_str (Some password))
            then
              flash "Please fill in all fields." "error" ;;;
              ret (Some (Render "login.html" []))
            else
              try_except
                (user <- User.get_user_by_email email ;;
                 match user with
                 | Some u =>
                     ok <- User.verify_password u password ;;
                     if ok then
                       put_session (Session (Some (u_User_ID u))
                                            (Some (u_Name u))
                                            (Some (u_Role u))) ;;;
                       flash ("Welcome back, " ++ u_Name u ++ "!") "success" ;;;
                       ret (Some (Redirect url_home))
                     else
                       flash "Invalid email or password." "error" ;;;
                       ret None
                 | None =>
                     flash "Invalid email or password." "error" ;;;
                     ret None
                 end)
                is_Exception
                (fun e =>
                   flash "Login failed. Please try again." "error" ;;;
                   ret None)
        | _, _ =>
            flash "Please fill in all fields." "error" ;;;
            ret (Some (Render "login.html" []))
        end
    | GET => ret None
    end ;;
  match fallthrough with
  | Some r => ret r
  | None => ret (Render "login.html" [])
  end.

(** ** /logout *)

(** [session.clear()] empties the session. *)
Definition logout : M response :=
  put_session empty_session ;;;
  flash "You have been logged out." "info" ;;;
  ret (Redirect url_home).

(** ** /register *)

Record register_form : Type := RegisterForm {
  rf_name : option string;
  rf_email : option string;
  rf_password : option string;
  rf_confirm_password : option string;
  rf_age : option Z;                          (* get('age', type=int) *)
  rf_gender : option string;
  rf_role : option string;
  rf_verified_entity_type : option string;
  rf_verified_entity_id : option Z            (* get(..., type=int)   *)
}.

(** The body of the [try] of [register]: [Some] response when it
    returns, [None] when control reaches the code after it. *)
Definition register_attempt (name email password : string)
  (role : string) (age : option Z) (gender verified_entity_type : option string)
  (verified_entity_id : option Z) : M (option response) :=
  try_except
    (existing_user <- User.get_user_by_email email ;;
     match existing_user with
     | Some _ =>
         flash "Email already registered." "error" ;;;
         ret (Some (Render "register.html" []))
     | None =>
         new_id <- User.create_user name email password role age gender
                                    verified_entity_type verified_entity_id ;;
         if truthy_int new_id then
           flash "Registration successful! Please log in." "success" ;;;
           ret (Some (Redirect url_login))
         else
           flash "Registration failed. Please try again." "error" ;;;
           ret None
     end)
    is_Exception
    (fun e =>
       flash ("Registration failed: " ++ exn_message e) "error" ;;;
       ret None).

Definition register (req : request register_form) : M response :=
  fallthrough <-
    match method req with
    | POST =>
        let f := form req in
        let role := match rf_role f with
                    | Some r => r
                    | None => "normal_user"%string
                    end in
        let verified_entity_type :=
          match rf_verified_entity_type f with
          | Some t => if String.eqb t "" then None else Some t
          | None => None
          end in
        let verified_entity_id := rf_verified_entity_id f in
        match rf_name f, rf_email f, rf_password f, rf_confirm_password f with
        | Some name, Some email, Some password, Some confirm_password =>
            if negb (truthy_str (Some name) && truthy_str (Some email)
                     && truthy_str (Some password)
                     && truthy_str (Some confirm_password))
            then
              flash "Please fill in all required fields." "error" ;;;
              ret (Some (Render "register.html" []))
            else if negb (String.eqb password confirm_password) then
              flash "Passwords do not match." "error" ;;;
              ret (Some (Render "register.html" []))
            else if truthy_int (rf_age f)
                    && match rf_age f with
                       | Some age => (age <? 13) || (age >? 120)
                       | None => false
                       end
            then
              flash "Age must be between 13 and 120." "error" ;;;
              ret (Some (Render "register.html" []))
            else
              register_attempt name email password role (rf_age f)
                               (rf_gender f) verified_entity_type
                               verified_entity_id
        | _, _, _, _ =>
            flash "Please fill in all required fields." "error" ;;;
            ret (Some (Render "register.html" []))
        end
    | GET => ret None
    end ;;
  match fallthrough with
  | Some r => ret r
  | None =>
      companies <- ProductionCompany.get_all_companies ;;
      celebrities <- Celebrity.get_all_celebrities ;;
      ret (Render "register.html"
                  [("companies"%string, ctx_companies companies);
                   ("celebrities"%string, ctx_celebrities celebrities)])
  end.

(** ** /add_review, /edit_review/<id>, /delete_review/<id> *)

Record review_form : Type := ReviewForm {
  score : option float;                       (* get('score', type=float) *)
  title : option string;
  content : option string;
  movie_id_raw : option string;               (* get('movie_id')          *)
  show_id_raw : option string                 (* get('show_id')           *)
}.

(** [if raw: try: int(raw) except (ValueError, TypeError): None] *)
Definition parse_id (raw : option string) : option Z :=
  if truthy_str raw
  then match raw with Some s => py_int s | None => None end
  else None.

(** [not all([score, title])] *)
Definition missing_required (score : option float) (title : option string)
  : bool :=
  negb (match score with Some sc => truthy_float sc | None => false end
        && truthy_str title).

(** [score < 0 or score > 10] *)
Definition out_of_range (sc : float) : bool :=
  PrimFloat.ltb sc 0%float || PrimFloat.ltb 10%float sc.

(** An id that passes [if id:], that is, neither [None] nor [0]. *)
Definition truthy_id (x : option Z) : option Z :=
  if truthy_int x then x else None.

(** [if movie_id: movie_detail elif show_id: show_detail else: home] *)
Definition added_review_page (movie_id show_id : option Z) : url :=
  match truthy_id movie_id, truthy_id show_id with
  | Some m, _ => url_movie_detail m
  | None, Some s => url_show_detail s
  | None, None => url_home
  end.

Definition add_review (req : request review_form) : M response :=
  login_required
    match method req with
    | POST =>
        let f := form req in
        let movie_id := parse_id (movie_id_raw f) in
        let show_id := parse_id (show_id_raw f) in
        if truthy_int movie_id && truthy_int show_id then
          flash "Please review either a movie or a show, not both." "error" ;;;
          ret (Redirect (referrer_or_home req))
        else if negb (truthy_int movie_id) && negb (truthy_int show_id) then
          flash "Please select a movie or show to review." "error" ;;;
          ret (Redirect (referrer_or_home req))
        else
          match score f, title f with
          | Some sc, Some t =>
              if missing_required (Some sc) (Some t) then
                flash "Please fill in all required fields." "error" ;;;
                ret (Redirect (referrer_or_home req))
              else if out_of_range sc then
                flash "Score must be between 0 and 10." "error" ;;;
                ret (Redirect (referrer_or_home req))
              else
                try_except
                  (uid <- session_user_id ;;
                   Review.create_review
                     uid sc t (content f)
                     (truthy_id movie_id) (truthy_id show_id) ;;;
                   flash "Review added successfully!" "success" ;;;
                   ret (Redirect (added_review_page movie_id show_id)))
                  is_Exception
                  (fun e =>
                     flash "Failed to add review. You may have already reviewed this content." "error" ;;;
                     ret (Redirect (referrer_or_home req)))
          | _, _ =>
              flash "Please fill in all required fields." "error" ;;;
              ret (Redirect (referrer_or_home req))
          end
    | GET =>
        let movie_id := args_get_int req "movie_id" in
        let show_id := args_get_int req "show_id" in
        match truthy_id movie_id, truthy_id show_id with
        | Some m, _ =>
            movie <- Movie.get_movie_by_id m ;;
            ret (Render "add_review.html"
                        [("movie"%string, ctx_movie movie);
                         ("show"%string, ctx_None)])
        | None, Some s =>
            show <- TVShow.get_show_by_id s ;;
            ret (Render "add_review.html"
                        [("movie"%string, ctx_None);
                         ("show"%string, ctx_show show)])
        | None, None =>
            flash "Please select a movie or show to review." "error" ;;;
            ret (Redirect url_home)
        end
    end.

Definition edit_review (review_id : Z) (req : request review_form)
  : M response :=
  login_required
    (try_except
       (review <- Review.get_review_by_id review_id ;;
        match review with
        | None =>
            flash "Review not found." "error" ;;;
            ret (Redirect url_profile)
        | Some rv =>
            uid <- session_user_id ;;
            if negb (r_User_ID (Review.rv_review rv) =? uid) then
              flash "You can only edit your own reviews." "error" ;;;
              ret (Redirect url_profile)
            else
              match method req with
              | POST =>
                  let f := form req in
                  match score f, title f with
                  | Some sc, Some t =>
                      if missing_required (Some sc) (Some t) then
                        flash "Please fill in all required fields." "error" ;;;
                        ret (Redirect (url_edit_review review_id))
                      else if out_of_range sc then
                        flash "Score must be between 0 and 10." "error" ;;;
                        ret (Redirect (url_edit_review review_id))
                      else
                        try_except
                          (Review.update_review review_id sc t (content f) ;;;
                           flash "Review updated successfully!" "success" ;;;
                           ret (Redirect url_profile))
                          is_Exception
                          (fun e =>
                             flash "Error updating review. Please try again."
                                   "error" ;;;
                             ret (Redirect (url_edit_review review_id)))
                  | _, _ =>
                      flash "Please fill in all required fields." "error" ;;;
                      ret (Redirect (url_edit_review review_id))
                  end
              | GET =>
                  let r := Review.rv_review rv in
                  match truthy_id (r_Movie_ID r), truthy_id (r_Show_ID r) with
                  | Some m, _ =>
                      movie <- Movie.get_movie_by_id m ;;
                      ret (Render "edit_review.html"
                                  [("review"%string, ctx_review rv);
                                   ("movie"%string, ctx_movie movie);
                                   ("show"%string, ctx_None)])
                  | None, Some s =>
                      show <- TVShow.get_show_by_id s ;;
                      ret (Render "edit_review.html"
                                  [("review"%string, ctx_review rv);
                                   ("movie"%string, ctx_None);
                                   ("show"%string, ctx_show show)])
                  | None, None =>
                      ret (Render "edit_review.html"
                                  [("review"%string, ctx_review rv);
                                   ("movie"%string, ctx_None);
                                   ("show"%string, ctx_None)])
                  end
              end
        end)
       is_Exception
       (fun e =>
          flash "Error loading review. Please try again." "error" ;;;
          ret (Redirect url_profile))).

Definition delete_review (review_id : Z) : M response :=
  login_required
    (try_except
       (review <- Review.get_review_by_id review_id ;;
        match review with
        | None =>
            flash "Review not found." "error" ;;;
            ret (Redirect url_profile)
        | Some rv =>
            uid <- session_user_id ;;
            if negb (r_User_ID (Review.rv_review rv) =? uid) then
              flash "You can only delete your own reviews." "error" ;;;
              ret (Redirect url_profile)
            else
              Review.delete_review review_id ;;;
              flash "Review deleted successfully!" "success" ;;;
              ret (Redirect url_profile)
        end)
       is_Exception
       (fun e =>
          flash "Error deleting review. Please try again." "error" ;;;
          ret (Redirect url_profile))).

End app.

(* ================================================================== *)
(** * Sample data *)
(* ================================================================== *)

Module Sample.

Definition movie (id : Z) (title : string) : movie_row :=
  MovieRow id title None None None None.

Definition review (id user movie : Z) (score : Q) : review_row :=
  ReviewRow id user (Some movie) None score "Review" None.

Definition person (id : Z) (name email : string) : user_row :=
  UserRow id name None "normal_user" email ("hash:" ++ email) None None None.

Definition security_stub : security :=
  Security (fun password => ("hash:" ++ password)%string)
           (fun hash password => String.eqb hash ("hash:" ++ password)).

(** A world over database [d], with user [uid] logged in (when given) and
    a connection that serves every call. *)
Definition world_of (d : database) (uid : option Z) : world :=
  World d (Session uid None None) [] [] security_stub.

(** Users 1 (Alice), 2, 3 and 4; Alice and user 2 are friends, stored as
    (2, 1).  Two movies and one show. *)
Definition users : list user_row :=
  [person 1 "Alice" "alice@example.com"; person 2 "Bob" "bob@example.com";
   person 3 "Carol" "carol@example.com"; person 4 "Dave" "dave@example.com"].

(** Both movies are unreviewed by user 1, whose stored preferences are 5
    for genre 1 and 5 for genre 2.  Movie 1 ("Arrival") has both genres
    and two reviews; movie 2 ("Brazil") has genre 1 only and three
    reviews.  Every review scores 8. *)
Definition preferences_db : database :=
  Database Sql.binary
    [movie 1 "Arrival"; movie 2 "Brazil"]
    [ShowRow 1 "Cosmos" None None None None None]
    [review 1 2 1 8; review 2 3 1 8;
     review 3 2 2 8; review 4 3 2 8; review 5 4 2 8]
    [FriendsRow 2 1]
    [PreferenceRow 1 1 5; PreferenceRow 1 2 5]
    [MovieGenreRow 1 1; MovieGenreRow 1 2; MovieGenreRow 2 1]
    users [] [].

(** User 1's only friend, user 2, rated movie 1 at 7 and movie 2 at 8.
    User 3, who is not a friend, rated movie 1 at 10 and movie 2 at 1. *)
Definition friends_db : database :=
  Database Sql.binary
    [movie 1 "Arrival"; movie 2 "Brazil"]
    []
    [review 1 2 1 7; review 2 2 2 8; review 3 3 1 10; review 4 3 2 1]
    [FriendsRow 2 1]
    [] []
    users [] [].

(** User 7 is verified for production company 3, user 8 is an
    administrator, user 1 is an ordinary user. *)
Definition staff_db : database :=
  set_User [person 1 "Alice" "alice@example.com";
            UserRow 7 "Studio" None "verified_user" "studio@example.com"
                    "hash:studio" None (Some "company"%string) (Some 3);
            UserRow 8 "Root" None "admin" "root@example.com" "hash:root"
                    None None None]
           preferences_db.

(** Movie 1 has a single review scoring 10; movie 2 has five reviews
    scoring 1.5 each; the show, "Cosmos", has two reviews scoring 8 and
    7.5. *)
Definition screens_db : database :=
  Database Sql.binary
    [movie 1 "Arrival"; movie 2 "Brazil"]
    [ShowRow 1 "Cosmos" None None None None None]
    [review 1 2 1 10;
     review 2 1 2 (3 # 2); review 3 2 2 (3 # 2); review 4 3 2 (3 # 2);
     review 5 4 2 (3 # 2); review 6 5 2 (3 # 2);
     ReviewRow 7 1 None (Some 1) 8 "Review" None;
     ReviewRow 8 2 None (Some 1) (15 # 2) "Review" None]
    [] [] []
    users [] [].

(** User 1 reviews movie 1 for the first time, with score 9. *)
Definition first_review : result bool * world :=
  Review.create_review 1 9%float "Great film" None (Some 1) None
                       (world_of preferences_db (Some 1)).

End Sample.

(* ================================================================== *)
(** * Vocabulary of the properties *)
(* ================================================================== *)

(** The connection serves the next database call. *)
Definition healthy (w : world) : Prop := hd Healthy (w_faults w) = Healthy.

(** The world after one served call that left [evs] in the trace and the
    tables as they were. *)
Definition served (w : world) (evs : list event) : world :=
  World (w_db w) (w_session w) (tl (w_faults w)) (w_trace w ++ evs)
        (w_security w).

(** The connection serves the next [n] database calls. *)
Definition is_healthy (f : fault) : bool :=
  match f with Healthy => true | _ => false end.

Definition serves (n : nat) (w : world) : Prop :=
  forallb is_healthy (firstn n (w_faults w)) = true.

(** A stored review has the id, and every stored review with the id was
    written by [uid]. *)
Definition review_of (d : database) (review_id uid : Z) : Prop :=
  (exists r, In r (tbl_Reviews d) /\ r_Review_ID r = review_id)
  /\ (forall r, In r (tbl_Reviews d) -> r_Review_ID r = review_id ->
               r_User_ID r = uid).

(** What an UPDATE of review [review_id] to the given title and content
    may do to one stored row: rewrite it when it carries the id, keeping
    id, author and target, and leave it alone otherwise. *)
Definition edited_row (review_id : Z) (title : string)
  (content : option string) (old new : review_row) : Prop :=
  if r_Review_ID old =? review_id
  then r_Review_ID new = r_Review_ID old
       /\ r_User_ID new = r_User_ID old
       /\ r_Movie_ID new = r_Movie_ID old
       /\ r_Show_ID new = r_Show_ID old
       /\ r_Title new = title
       /\ r_Content new = content
  else new = old.

(** A stored user has the email, as the database compares emails, and
    the stored hash accepts the password. *)
Definition accepted (w : world) (email password : string) (u : user_row)
  : Prop :=
  In u (tbl_User (w_db w))
  /\ Sql.co_eqb (db_collation (w_db w)) (u_Email u) email = true
  /\ check_password_hash (w_security w) (u_PasswordHash u) password = true.

(** A POST to /login with both fields. *)
Definition login_request (email password : string)
  : request app.login_form :=
  Request POST None [] (app.LoginForm (Some email) (Some password)).

(** [u] is a stored user whose id is the session's [user_id]. *)
Definition session_user (w : world) (u : user_row) : Prop :=
  In u (tbl_User (w_db w)) /\ user_id (w_session w) = Some (u_User_ID u).

(** The stored movies with the id, and the stored reviews of the movie
    with the id, in table order. *)
Definition movies_with_id (d : database) (movie_id : Z) : list movie_row :=
  filter (fun m => m_Movie_ID m =? movie_id) (tbl_Movie d).

Definition reviews_of_movie (d : database) (movie_id : Z) : list review_row :=
  filter (fun r => Sql.eq_null movie_id (r_Movie_ID r)) (tbl_Reviews d).

(** The faults of a registration that the handler tests for: a
    required field is missing or empty, the two passwords differ, or
    the age is given, is not zero and lies outside 13..120. *)
Definition registration_fault (f : app.register_form) : Prop :=
  truthy_str (app.rf_name f) = false
  \/ truthy_str (app.rf_email f) = false
  \/ truthy_str (app.rf_password f) = false
  \/ truthy_str (app.rf_confirm_password f) = false
  \/ app.rf_password f <> app.rf_confirm_password f
  \/ (exists age, app.rf_age f = Some age
                  /\ age <> 0 /\ (age < 13 \/ 120 < age)).

(** A POST to /register with the four required fields and an age. *)
Definition registration (name email password confirm_password : string)
  (age : option Z) : request app.register_form :=
  Request POST None []
          (app.RegisterForm (Some name) (Some email) (Some password)
                            (Some confirm_password) age None None None None).

(** The computation only adds to the trace. *)
Definition grows {A} (c : M A) : Prop :=
  forall w, exists evs, w_trace (snd (c w)) = w_trace w ++ evs.

(** The same for shows. *)
Definition shows_with_id (d : database) (show_id : Z) : list show_row :=
  filter (fun s => s_Show_ID s =? show_id) (tbl_TV_Show d).

Definition reviews_of_show (d : database) (show_id : Z) : list review_row :=
  filter (fun r => Sql.eq_null show_id (r_Show_ID r)) (tbl_Reviews d).

(** The float of a whole number: 0.0, 1.0, 2.0, ... *)
Fixpoint whole_score (k : nat) : float :=
  match k with
  | O => 0%float
  | S k' => (whole_score k' + 1)%float
  end.

(** The faults of a review submission that do not depend on how the id
    fields read: nobody is logged in, both id fields are absent or
    empty, the score or the title is missing (a score of zero counts as
    missing), or the score compares below 0 or above 10. *)
Definition turned_away (w : world) (req : request app.review_form) : Prop :=
  let f := form req in
  user_id (w_session w) = None
  \/ (truthy_str (app.movie_id_raw f) = false
      /\ truthy_str (app.show_id_raw f) = false)
  \/ app.missing_required (app.score f) (app.title f) = true
  \/ (exists sc, app.score f = Some sc /\ app.out_of_range sc = true).

(** A POST to /add_review with score 9, a title, and both id fields
    empty. *)
Definition no_target : request app.review_form :=
  Request POST None []
          (app.ReviewForm (Some 9%float) (Some "Great film"%string) None
                          (Some ""%string) (Some ""%string)).

(** The reviews joined to an item, or the one NULL row of the LEFT JOIN
    when it has none. *)
Definition joined_reviews (rs : list review_row) : list (option review_row) :=
  match rs with
  | [] => [None]
  | _ => map Some rs
  end.

(** Text equals itself under the collation. *)
Definition reflexive (co : Sql.collation) : Prop :=
  forall s, Sql.co_eqb co s s = true.

(** The world after one served statement that changed the tables to [d']
    and was committed. *)
Definition committed (w : world) (d' : database) (v : verb) (table : string)
  : world :=
  World d' (w_session w) (tl (w_faults w))
        (w_trace w ++ [Execute v table; Commit]) (w_security w).

(** The pair [(a, b)] is the pair [(user1, user2)], either way round. *)
Definition same_pair (a b user1 user2 : Z) : Prop :=
  (a = user1 /\ b = user2) \/ (a = user2 /\ b = user1).

(** The events a computation added to the trace. *)
Definition new_events (before after : world) : list event :=
  skipn (List.length (w_trace before)) (w_trace after).

(** The computation wrote nothing: tables and session are as they were
    and no writing event was added to the trace. *)
Definition wrote_nothing (before after : world) : Prop :=
  w_db after = w_db before
  /\ w_session after = w_session before
  /\ exists evs, w_trace after = w_trace before ++ evs
                 /\ Forall (fun e => is_write e = false) evs.

(** A Friends row joins [a] and [b], stored either way round. *)
Definition friends_row_for (a b : Z) (f : friends_row) : Prop :=
  (f_User_ID1 f = a /\ f_User_ID2 f = b)
  \/ (f_User_ID1 f = b /\ f_User_ID2 f = a).

(** The faults of a review submission that the handler tests for: nobody
    is logged in, both targets or neither are given, the score or the
    title is missing (a score of zero counts as missing), or the score
    compares below 0 or above 10. *)
Definition tested_fault (w : world) (req : request app.review_form) : Prop :=
  let f := form req in
  let movie_id := app.parse_id (app.movie_id_raw f) in
  let show_id := app.parse_id (app.show_id_raw f) in
  user_id (w_session w) = None
  \/ (truthy_int movie_id = true /\ truthy_int show_id = true)
  \/ (truthy_int movie_id = false /\ truthy_int show_id = false)
  \/ app.missing_required (app.score f) (app.title f) = true
  \/ (exists sc, app.score f = Some sc /\ app.out_of_range sc = true).

(** The rows of a result, or none when the call raised. *)
Definition rows_of {A} (r : result (list A) * world) : list A :=
  match fst r with Ok rows => rows | Raise _ => [] end.

(** What a movie's own detail query reports for it: the number of its
    reviews and their (rounded) average. *)
Definition own_statistics (d : database) (movie_id : Z)
  : list (Z * option Q) :=
  map (fun m => (Movie.dm_review_count m,
                 option_map Qred (Movie.dm_avg_rating m)))
      (Movie.movie_by_id_rows d movie_id).

(** Id, preference score, average rating and review count of each
    preference-based recommendation, in result order. *)
Definition preference_ranking (rows : list Recommendation.recommended_movie)
  : list (Z * Q * option Q * Z) :=
  map (fun r => (m_Movie_ID (Recommendation.rec_movie r),
                 Qred (Recommendation.rec_max_preference_score r),
                 option_map Qred (Recommendation.rec_avg_rating r),
                 Recommendation.rec_review_count r))
      rows.

(** Id, friend_likes and avg_rating of each friend-activity
    recommendation, in result order. *)
Definition friend_ranking (rows : list Recommendation.friend_recommended)
  : list (Z * Z * option Q) :=
  map (fun r => (m_Movie_ID (Recommendation.fr_movie r),
                 Recommendation.fr_friend_likes r,
                 option_map Qred (Recommendation.fr_avg_rating r)))
      rows.

(** A POST to /add_review for movie 1 with the given score field. *)
Definition review_request (score : option float)
  : request app.review_form :=
  Request POST None []
          (app.ReviewForm score (Some "Great film"%string) None
                          (Some "1"%string) None).

(** The user has written a review of the movie. *)
Definition has_reviewed (d : database) (user movie : Z) : Prop :=
  exists r, In r (tbl_Reviews d)
            /\ r_User_ID r = user /\ r_Movie_ID r = Some movie.

(** What the ownership check sees: a stored review has the requested id,
    and no stored review with that id was written by [uid]. *)
Definition review_of_another (d : database) (review_id uid : Z) : Prop :=
  (exists r, In r (tbl_Reviews d) /\ r_Review_ID r = review_id)
  /\ (forall r, In r (tbl_Reviews d) -> r_Review_ID r = review_id ->
                r_User_ID r <> uid).

(** [c] never assigns to [session], whatever path it takes. *)
Definition keeps_session {A} (c : M A) : Prop :=
  forall w, w_session (snd (c w)) = w_session w.

(** From any world whose tables satisfy [P], [c] leaves the tables as
    they are, adds no writing event (no UPDATE, INSERT, DELETE or
    procedure call) to the trace, and a value it returns satisfies [Q]
    for those tables. *)
Definition reads {A} (P : database -> Prop) (c : M A)
  (Q : database -> A -> Prop) : Prop :=
  forall w, P (w_db w) ->
    w_db (snd (c w)) = w_db w
    /\ (exists evs, w_trace (snd (c w)) = w_trace w ++ evs
                    /\ Forall (fun e => is_write e = false) evs)
    /\ match fst (c w) with Ok a => Q (w_db w) a | Raise _ => True end.

(** The email belongs to a stored user, as the database compares
    emails. *)
Definition email_in_use (email : string) (d : database) : Prop :=
  exists u, In u (tbl_User d)
            /\ Sql.co_eqb (db_collation d) (u_Email u) email = true.

(** [request.form.get('email')] *)
Definition rf_email_of (req : request app.register_form) : option string :=
  app.rf_email (form req).

(** Alice, already registered as alice@example.com, registers again. *)
Definition register_alice_again : request app.register_form :=
  Request POST None []
          (app.RegisterForm (Some "Alice"%string)
                            (Some "alice@example.com"%string)
                            (Some "secret"%string) (Some "secret"%string)
                            (Some 30) None None None None).

(** [mid] matches the literal text [q] character by character. *)
Definition matches_text (chr : ascii -> ascii -> bool)
  (q mid : list ascii) : Prop :=
  Forall2 (fun c x => chr c x = true) q mid.

(** None of [%], [_] and backslash: a character LIKE takes literally. *)
Definition literal (c : ascii) : bool :=
  negb (Sql.is_percent c || Sql.is_underscore c || Sql.is_backslash c).

(** "The title contains the search string as a substring", as the
    specification words it. *)
Definition contains_substring (q title : string) : Prop :=
  exists pre post, title = (pre ++ q ++ post)%string.

(** The title contains a run of characters that matches the search
    string under the collation. *)
Definition contains_text (co : Sql.collation) (q title : string) : Prop :=
  exists pre mid post,
    list_ascii_of_string title = pre ++ mid ++ post
    /\ matches_text (Sql.co_chr co) (list_ascii_of_string q) mid.

(** The search string holds none of [%], [_] and backslash. *)
Definition literal_text (q : string) : bool :=
  forallb literal (list_ascii_of_string q).

(** The movie has an association to the genre. *)
Definition has_genre (d : database) (movie_id genre_id : Z) : Prop :=
  exists mg, In mg (tbl_Movie_Genre d)
             /\ mg_Movie_ID mg = movie_id /\ mg_Genre_ID mg = genre_id.

(** The popularity the detail page of a movie shows, when the page
    finds the movie. *)
Definition detail_page_score (w : world) (movie_id : Z) : option (option Q) :=
  match fst (Movie.get_movie_by_id movie_id w) with
  | Ok (Some dm) => Some (option_map Qred (Movie.dm_popularity_score dm))
  | _ => None
  end.

(** Kind, id and popularity of the items [get_popular_movies] returns,
    in result order. *)
Definition popular_ranking (w : world) : list (string * Z * Q) :=
  map (fun p => (Analytics.p_content_type p, Analytics.p_Movie_ID p,
                 Qred (Analytics.p_popularity_score p)))
      (rows_of (Analytics.get_popular_movies w)).

(** The item is a stored movie or a stored show, labelled as such. *)
Definition stored_item (d : database) (p : Analytics.popular_item) : Prop :=
  (Analytics.p_content_type p = "movie"%string
   /\ exists m, In m (tbl_Movie d)
                /\ Analytics.movie_key m
                   = (Analytics.p_Movie_ID p, Analytics.p_Title p,
                      Analytics.p_Description p, Analytics.p_Year p,
                      Analytics.p_Age_Rating p))
  \/ (Analytics.p_content_type p = "show"%string
      /\ exists s, In s (tbl_TV_Show d)
                   /\ Analytics.show_key s
                      = (Analytics.p_Movie_ID p, Analytics.p_Title p,
                         Analytics.p_Description p, Analytics.p_Year p,
                         Analytics.p_Age_Rating p)).

(* ================================================================== *)
(** * Running a request: what the connection does when it is healthy *)
(* ================================================================== *)

Lemma new_events_served w evs : new_events w (served w evs) = evs.
Proof.
  unfold new_events, served; simpl.
  rewrite skipn_app, skipn_all, Nat.sub_diag. reflexivity.
Qed.

Lemma new_events_app w w' evs :
  w_trace w' = w_trace w ++ evs -> new_events w w' = evs.
Proof.
  intros E. unfold new_events. rewrite E.
  rewrite skipn_app, skipn_all, Nat.sub_diag. reflexivity.
Qed.

Lemma execute_query_healthy A (q : statement A) w d' a :
  healthy w ->
  st_verb q = SELECT ->
  st_run q (w_db w) = inr (d', a) ->
  execute_query q w = (Ok a, served w [Execute SELECT (st_table q)]).
Proof.
  intros Hh Hv Hrun.
  unfold healthy in Hh.
  unfold execute_query, get_cursor, bind, try_except, next_fault, emit,
    get_db, served.
  destruct w as [d s fs t sec]; simpl in *.
  destruct fs as [|f fs]; simpl in *.
  - rewrite Hrun, Hv. reflexivity.
  - subst f. simpl. rewrite Hrun, Hv. reflexivity.
Qed.

Lemma execute_select_healthy A table (rows : database -> list A) w :
  healthy w ->
  execute_query (select table rows) w
  = (Ok (rows (w_db w)), served w [Execute SELECT table]).
Proof.
  intros Hh.
  apply (@execute_query_healthy _ (select table rows) w (w_db w)); auto.
Qed.

(** Two statements with the same verb, table and meaning run alike. *)
Lemma execute_query_ext A (q1 q2 : statement A) w :
  st_verb q1 = st_verb q2 ->
  st_table q1 = st_table q2 ->
  (forall d, st_run q1 d = st_run q2 d) ->
  execute_query q1 w = execute_query q2 w.
Proof.
  intros Hv Ht Hr.
  unfold execute_query, get_cursor, bind, try_except, next_fault, emit,
    get_db.
  destruct w as [d s fs t sec]; simpl.
  destruct fs as [|f fs]; simpl; rewrite ?Hv, ?Ht, ?Hr; try reflexivity.
  destruct f; simpl; rewrite ?Hv, ?Ht, ?Hr; reflexivity.
Qed.

(** Re-raising in an [except] clause changes nothing. *)
Lemma try_except_reraise A (body : M A) class w :
  try_except body class (fun e => raise e) w = body w.
Proof.
  unfold try_except, raise.
  destruct (body w) as [[a|e] w']; auto.
  destruct (class e); reflexivity.
Qed.

(* ================================================================== *)
(** * Friendship is symmetric (C4) *)
(* ================================================================== *)

Lemma either_orientation_sym a b f :
  Friendship.either_orientation a b f = Friendship.either_orientation b a f.
Proof.
  unfold Friendship.either_orientation. apply orb_comm.
Qed.

Lemma are_friends_rows_sym d a b :
  Friendship.are_friends_rows d a b = Friendship.are_friends_rows d b a.
Proof.
  unfold Friendship.are_friends_rows. do 2 f_equal.
  apply filter_ext. intros f. apply either_orientation_sym.
Qed.

Lemma either_orientation_spec a b f :
  Friendship.either_orientation a b f = true <-> friends_row_for a b f.
Proof.
  unfold Friendship.either_orientation, friends_row_for.
  rewrite orb_true_iff, !andb_true_iff, !Z.eqb_eq. reflexivity.
Qed.

Lemma count_star_positive A (p : A -> bool) l :
  (Sql.COUNT_star (filter p l) >? 0) = true
  <-> exists x, In x l /\ p x = true.
Proof.
  unfold Sql.COUNT_star. split.
  - intros H. destruct (filter p l) as [|x xs] eqn:E.
    + simpl in H. discriminate.
    + exists x. apply filter_In. rewrite E. left. reflexivity.
  - intros [x Hx]. apply filter_In in Hx.
    destruct (filter p l) as [|y ys]; [contradiction|].
    simpl List.length. apply Z.gtb_lt. lia.
Qed.

(** C4.  For every database state and every pair of users,
    [are_friends(A,B)] and [are_friends(B,A)] are the same computation
    with the same outcome, and when the connection serves the query the
    answer is true exactly when the Friends table holds a row for the
    pair in one orientation or the other. *)
Theorem C4_are_friends_symmetric (w : world) (a b : Z) :
  Friendship.are_friends a b w = Friendship.are_friends b a w
  /\ (healthy w ->
      exists answer,
        Friendship.are_friends a b w
        = (Ok answer, served w [Execute SELECT "Friends"])
        /\ (answer = true <->
            exists f, In f (tbl_Friends (w_db w)) /\ friends_row_for a b f)).
Proof.
  split.
  - unfold Friendship.are_friends, bind.
    rewrite (@execute_query_ext _
               (select "Friends"
                       (fun d => Friendship.are_friends_rows d a b))
               (select "Friends"
                       (fun d => Friendship.are_friends_rows d b a))); auto.
    intros d. simpl. rewrite (are_friends_rows_sym d a b). reflexivity.
  - intros Hh. unfold Friendship.are_friends, bind.
    rewrite execute_select_healthy by assumption.
    unfold Friendship.are_friends_rows, ret.
    eexists. split; [reflexivity|].
    rewrite count_star_positive.
    split; intros [f [Hin Hf]]; exists f; split; auto;
      apply either_orientation_spec; assumption.
Qed.

Lemma C4_are_friends_symmetric_witness :
  exists answer,
    Friendship.are_friends 1 2 (Sample.world_of Sample.friends_db (Some 1))
    = (Ok answer,
       served (Sample.world_of Sample.friends_db (Some 1))
              [Execute SELECT "Friends"])
    /\ (answer = true <->
        exists f, In f (tbl_Friends Sample.friends_db)
                  /\ friends_row_for 1 2 f).
Proof.
  apply (proj2 (C4_are_friends_symmetric
                  (Sample.world_of Sample.friends_db (Some 1)) 1 2)).
  reflexivity.
Defined.

(* ================================================================== *)
(** * The recommendation queries on the sample data (C1, C2) *)
(* ================================================================== *)

(** C1.  On the sample preference data both unreviewed movies have
    preference score 5 and average rating 8, movie 1 has two reviews and
    movie 2 has three.  [get_movie_recommendations] nevertheless ranks
    movie 1 first, and with limit 1 returns movie 1 alone: each review of
    movie 1 is joined to both of the user's matching preference rows, so
    [COUNT(r.Review_ID)] is 4 for it. *)
Theorem C1_review_count_tie_break_counts_joined_rows :
  own_statistics Sample.preferences_db 1 = [(2, Some 8%Q)]
  /\ own_statistics Sample.preferences_db 2 = [(3, Some 8%Q)]
  /\ preference_ranking
       (rows_of (Recommendation.get_movie_recommendations 1 10
                   (Sample.world_of Sample.preferences_db (Some 1))))
     = [(1, 5%Q, Some 8%Q, 4); (2, 5%Q, Some 8%Q, 3)]
  /\ preference_ranking
       (rows_of (Recommendation.get_movie_recommendations 1 1
                   (Sample.world_of Sample.preferences_db (Some 1))))
     = [(1, 5%Q, Some 8%Q, 4)].
Proof.
  repeat split; vm_compute; reflexivity.
Qed.

(** C2.  On the sample friend data each movie is liked by exactly one
    friend of user 1; movie 1's own average rating is 8.5 and movie 2's is
    4.5.  [get_friend_recommendations] ranks movie 2 first: its
    [avg_rating] is the average over the joined rows only, that is over
    the friends' ratings of 7.0 and more (8 for movie 2, 7 for movie 1). *)
Theorem C2_friend_tie_break_averages_friend_ratings_only :
  own_statistics Sample.friends_db 1 = [(2, Some (17 # 2))]
  /\ own_statistics Sample.friends_db 2 = [(2, Some (9 # 2))]
  /\ friend_ranking
       (rows_of (Recommendation.get_friend_recommendations 1 10
                   (Sample.world_of Sample.friends_db (Some 1))))
     = [(2, 1, Some 8%Q); (1, 1, Some 7%Q)].
Proof.
  repeat split; vm_compute; reflexivity.
Qed.

(* ================================================================== *)
(** * Creating a review (C5) *)
(* ================================================================== *)

(** C5.  A submitted score of 11 is turned away with a flash and nothing
    is sent to the database.  A submitted score of [nan], which the form
    getter [get('score', type=float)] delivers as a float, is not a
    rating in [0,10], yet it passes both the required-field test ([nan]
    is true) and the range test (both comparisons with [nan] are false):
    the handler calls the stored procedure, and the request fails only
    there. *)
Theorem C5_nan_score_reaches_the_database :
  let w := Sample.world_of Sample.preferences_db (Some 1) in
  new_events w (snd (app.add_review (review_request (Some 11%float)) w))
  = [Flash "Score must be between 0 and 10." "error"]
  /\ app.missing_required (Some nan) (Some "Great film"%string) = false
  /\ app.out_of_range nan = false
  /\ new_events w (snd (app.add_review (review_request (Some nan)) w))
     = [Callproc "sp_add_review"; Rollback;
        Flash "Failed to add review. You may have already reviewed this content." "error"].
Proof.
  repeat split; vm_compute; reflexivity.
Qed.

(** Every fault the handler tests for ends the request with one flash
    and a redirect; nothing is sent to the database. *)
Lemma add_review_rejects_tested_faults w req :
  method req = POST ->
  tested_fault w req ->
  exists message location,
    fst (app.add_review req w) = Ok (Redirect location)
    /\ new_events w (snd (app.add_review req w)) = [Flash message "error"]
    /\ w_db (snd (app.add_review req w)) = w_db w.
Proof.
  intros Hm Hf. unfold tested_fault in Hf. cbv zeta in Hf.
  unfold app.add_review, login_required, bind, get_session.
  rewrite Hm. cbv zeta.
  destruct (user_id (w_session w)) as [uid|] eqn:Hu.
  - destruct Hf as [Hf|Hf]; [discriminate|].
    destruct (truthy_int (app.parse_id (app.movie_id_raw (form req)))) eqn:Em;
      destruct (truthy_int (app.parse_id (app.show_id_raw (form req)))) eqn:Es;
      simpl andb; cbv iota.
    + do 2 eexists. repeat split. apply new_events_app. reflexivity.
    + destruct Hf as [[_ Hf]|[[Hf _]|Hf]]; try discriminate.
      destruct (app.score (form req)) as [sc|];
        [|do 2 eexists; repeat split; apply new_events_app; reflexivity].
      destruct (app.title (form req)) as [t|];
        [|do 2 eexists; repeat split; apply new_events_app; reflexivity].
      destruct Hf as [Hf|[sc' [[= <-] Hf]]].
      * rewrite Hf. do 2 eexists. repeat split.
        apply new_events_app. reflexivity.
      * rewrite Hf.
        destruct (app.missing_required (Some sc) (Some t));
          do 2 eexists; repeat split; apply new_events_app; reflexivity.
    + destruct Hf as [[Hf _]|[[_ Hf]|Hf]]; try discriminate.
      destruct (app.score (form req)) as [sc|];
        [|do 2 eexists; repeat split; apply new_events_app; reflexivity].
      destruct (app.title (form req)) as [t|];
        [|do 2 eexists; repeat split; apply new_events_app; reflexivity].
      destruct Hf as [Hf|[sc' [[= <-] Hf]]].
      * rewrite Hf. do 2 eexists. repeat split.
        apply new_events_app. reflexivity.
      * rewrite Hf.
        destruct (app.missing_required (Some sc) (Some t));
          do 2 eexists; repeat split; apply new_events_app; reflexivity.
    + do 2 eexists. repeat split. apply new_events_app. reflexivity.
  - do 2 eexists. repeat split. apply new_events_app. reflexivity.
Qed.

(* ================================================================== *)
(** * Aggregates over the reviews of an item *)
(* ================================================================== *)

Lemma non_null_map_Some A B (f : A -> B) (l : list A) :
  Sql.non_null (map (option_map f) (map Some l)) = map f l.
Proof.
  induction l as [|x l IH]; simpl; [reflexivity|]. rewrite IH. reflexivity.
Qed.

Lemma AVG_of_reviews (rs : list review_row) :
  rs <> [] ->
  Sql.AVG (map (option_map r_Score) (map Some rs))
  = Some (Sql.SUM (map r_Score rs)
          / inject_Z (Z.of_nat (List.length rs)))%Q.
Proof.
  intros Hne. unfold Sql.AVG. rewrite non_null_map_Some.
  destruct rs as [|r rs]; [contradiction|].
  cbn [map List.length]. rewrite length_map. reflexivity.
Qed.

Lemma COUNT_of_reviews (rs : list review_row) :
  Sql.COUNT (map (option_map r_Review_ID) (map Some rs))
  = Z.of_nat (List.length rs).
Proof.
  unfold Sql.COUNT. rewrite non_null_map_Some, length_map. reflexivity.
Qed.

(* ================================================================== *)
(** * Facts about the relational operators *)
(* ================================================================== *)

Section GroupByFacts.
Variables (R K : Type) (key : R -> K) (keqb : K -> K -> bool).

(** A group after an insertion is keyed by the inserted row or by a group
    that was there before; its rows are the inserted row or rows of the
    group it extends. *)
Lemma group_insert_inv r gs g :
  In g (Sql.group_insert key keqb r gs) ->
  (fst g = key r /\ snd g = [r])
  \/ (exists g', In g' gs /\ fst g = fst g'
                 /\ (snd g = snd g' \/ snd g = snd g' ++ [r])).
Proof.
  induction gs as [|[k rs] gs IH]; simpl.
  - intros [<-|[]]. left. split; reflexivity.
  - destruct (keqb (key r) k).
    + intros [<-|Hin].
      * right. exists (k, rs). simpl. auto.
      * right. exists g. auto.
    + intros [<-|Hin].
      * right. exists (k, rs). simpl. auto.
      * destruct (IH Hin) as [Hnew|[g' [Hg' Hk]]]; [left; exact Hnew|].
        right. exists g'. auto.
Qed.

Lemma group_fold_inv rows : forall acc g,
  In g (fold_left (fun gs r => Sql.group_insert key keqb r gs) rows acc) ->
  (exists r, In r rows /\ fst g = key r
             /\ forall x, In x (snd g) -> In x rows)
  \/ (exists g', In g' acc /\ fst g = fst g'
                 /\ forall x, In x (snd g) -> In x (snd g') \/ In x rows).
Proof.
  induction rows as [|r rows IH]; simpl; intros acc g Hin.
  - right. exists g. auto.
  - destruct (IH _ _ Hin) as [[r' [Hr' [Hk Hs]]]|[g' [Hg' [Hk Hs]]]].
    + left. exists r'. repeat split; auto.
    + destruct (group_insert_inv _ _ _ Hg') as [[Hk' Hs']|[g0 [Hg0 [Hk0 Hs0]]]].
      * left. exists r. repeat split; auto; [congruence|].
        intros x Hx. destruct (Hs x Hx) as [H|H]; auto.
        rewrite Hs' in H. destruct H as [<-|[]]. auto.
      * right. exists g0. repeat split; auto; [congruence|].
        intros x Hx. destruct (Hs x Hx) as [H|H]; auto.
        destruct Hs0 as [E|E]; rewrite E in H; auto.
        apply in_app_or in H. destruct H as [H|[<-|[]]]; auto.
Qed.

(** Every group is keyed by a row of the input and holds input rows
    only. *)
Lemma group_by_inv rows g :
  In g (Sql.group_by key keqb rows) ->
  exists r, In r rows /\ fst g = key r
            /\ forall x, In x (snd g) -> In x rows.
Proof.
  intros Hin. destruct (group_fold_inv _ _ _ Hin) as [H|[g' [[] _]]].
  exact H.
Qed.

End GroupByFacts.

Section OrderByFacts.
Variables (A : Type) (leb : A -> A -> bool).

Lemma insert_sorted_perm x l :
  Permutation (x :: l) (Sql.insert_sorted leb x l).
Proof.
  induction l as [|y l IH]; simpl; [reflexivity|].
  destruct (leb x y); [reflexivity|].
  rewrite perm_swap. apply perm_skip. exact IH.
Qed.

(** ORDER BY rearranges the rows and neither adds nor drops one. *)
Lemma order_by_perm l : Permutation l (Sql.order_by leb l).
Proof.
  unfold Sql.order_by. induction l as [|x l IH]; simpl; [reflexivity|].
  rewrite <- insert_sorted_perm. apply perm_skip. exact IH.
Qed.

Lemma order_by_In x l : In x (Sql.order_by leb l) <-> In x l.
Proof.
  split; apply Permutation_in;
    [symmetry|]; apply order_by_perm.
Qed.

End OrderByFacts.

Lemma firstn_incl A (n : nat) (l : list A) x :
  In x (firstn n l) -> In x l.
Proof.
  intros Hin. rewrite <- (firstn_skipn n l). apply in_or_app. auto.
Qed.

Lemma LIMIT_In A (n : Z) (l rows : list A) x :
  Sql.LIMIT n l = Some rows -> In x rows -> In x l.
Proof.
  unfold Sql.LIMIT. destruct (n <? 0); [discriminate|].
  intros [= <-]. apply firstn_incl.
Qed.

Lemma LIMIT_nonneg A (n : Z) (l : list A) :
  0 <= n -> Sql.LIMIT n l = Some (firstn (Z.to_nat n) l).
Proof.
  intros Hn. unfold Sql.LIMIT.
  destruct (Z.ltb_spec n 0); [lia|reflexivity].
Qed.

(* ================================================================== *)
(** * Recommendations never contain a reviewed movie (C3) *)
(* ================================================================== *)

(** Whatever the connection does, a result that comes back is the
    statement's meaning on the current tables. *)
Lemma execute_query_Ok_inv A (q : statement A) w a w' :
  execute_query q w = (Ok a, w') ->
  exists d', st_run q (w_db w) = inr (d', a).
Proof.
  unfold execute_query, get_cursor, bind, try_except, next_fault, emit,
    get_db, raise, ret, put_db.
  destruct w as [d s fs t sec]; simpl.
  destruct fs as [|f fs]; simpl.
  - destruct (st_run q d) as [msg|[d' a']]; simpl; [discriminate|].
    destruct (is_select (st_verb q)); simpl; intros [= -> _]; eauto.
  - destruct f; simpl; try discriminate.
    destruct (st_run q d) as [msg|[d' a']]; simpl; [discriminate|].
    destruct (is_select (st_verb q)); simpl; intros [= -> _]; eauto.
Qed.

Lemma non_null_In A (x : A) (l : list (option A)) :
  In x (Sql.non_null l) <-> In (Some x) l.
Proof.
  induction l as [|[y|] l IH]; simpl.
  - reflexivity.
  - rewrite IH. split; intros [H|H]; auto; left; congruence.
  - rewrite IH. split; [auto|intros [H|H]; [discriminate|assumption]].
Qed.

Lemma reviewed_movie_ids_spec d user movie :
  In movie (reviewed_movie_ids d user) <-> has_reviewed d user movie.
Proof.
  unfold reviewed_movie_ids, has_reviewed.
  rewrite non_null_In, in_map_iff. split.
  - intros [r [Hm Hin]]. apply filter_In in Hin. destruct Hin as [Hin Hp].
    apply andb_true_iff in Hp. destruct Hp as [Hu _].
    apply Z.eqb_eq in Hu. exists r. auto.
  - intros [r [Hin [Hu Hm]]]. exists r. split; [assumption|].
    apply filter_In. split; [assumption|].
    rewrite Hm. simpl. rewrite andb_true_r. apply Z.eqb_eq. assumption.
Qed.

Lemma NOT_IN_reviewed d user movie :
  NOT_IN movie (reviewed_movie_ids d user) = true ->
  ~ has_reviewed d user movie.
Proof.
  unfold NOT_IN. rewrite negb_true_iff. intros Hex Hrev.
  apply reviewed_movie_ids_spec in Hrev.
  assert (existsb (Z.eqb movie) (reviewed_movie_ids d user) = true) as E.
  { apply existsb_exists. exists movie. split; [assumption|apply Z.eqb_refl]. }
  congruence.
Qed.

(** Every group of the preference query is keyed by an unreviewed
    movie. *)
Lemma pref_groups_unreviewed d user g :
  In g (Recommendation.pref_groups d user) ->
  ~ has_reviewed d user (m_Movie_ID (fst g)).
Proof.
  intros Hg. apply group_by_inv in Hg.
  destruct Hg as [x [Hx [Hk _]]]. rewrite Hk.
  unfold Recommendation.pref_rows in Hx. apply filter_In in Hx.
  apply NOT_IN_reviewed. exact (proj2 Hx).
Qed.

(** Every group of the friend query is keyed by an unreviewed movie. *)
Lemma friend_groups_unreviewed d user g :
  In g (Recommendation.friend_groups d user) ->
  ~ has_reviewed d user (m_Movie_ID (fst g)).
Proof.
  intros Hg. apply group_by_inv in Hg.
  destruct Hg as [x [Hx [Hk _]]]. rewrite Hk.
  unfold Recommendation.friend_rows in Hx. apply filter_In in Hx.
  destruct Hx as [_ Hx]. apply andb_true_iff in Hx.
  apply NOT_IN_reviewed. exact (proj1 Hx).
Qed.

Lemma movie_recommendations_unreviewed d user limit d' rows row :
  st_run (Recommendation.movie_recommendations_statement user limit) d
  = inr (d', rows) ->
  In row rows ->
  ~ has_reviewed d user (m_Movie_ID (Recommendation.rec_movie row)).
Proof.
  simpl. intros Hrun Hin.
  destruct (Sql.LIMIT limit _) as [l|] eqn:Hl; [|discriminate].
  injection Hrun as _ <-.
  apply (LIMIT_In _ _ _ Hl) in Hin.
  apply in_map_iff in Hin. destruct Hin as [g [<- Hg]].
  apply order_by_In in Hg.
  simpl. apply pref_groups_unreviewed. exact Hg.
Qed.

Lemma friend_recommendations_unreviewed d user limit d' rows row :
  st_run (Recommendation.friend_recommendations_statement user limit) d
  = inr (d', rows) ->
  In row rows ->
  ~ has_reviewed d user (m_Movie_ID (Recommendation.fr_movie row)).
Proof.
  simpl. intros Hrun Hin.
  destruct (Sql.LIMIT limit _) as [l|] eqn:Hl; [|discriminate].
  injection Hrun as _ <-.
  apply (LIMIT_In _ _ _ Hl) in Hin.
  apply order_by_In in Hin.
  apply in_map_iff in Hin. destruct Hin as [g [<- Hg]].
  simpl. apply friend_groups_unreviewed. exact Hg.
Qed.

(** C3.  For every user, database state, connection state and limit, no
    row of either recommendation list is a movie the user has reviewed;
    and when the connection serves the query and the limit is not
    negative, each call does return its list. *)
Theorem C3_recommendations_exclude_reviewed (w : world) (user limit : Z) :
  (forall row,
      In row (rows_of (Recommendation.get_movie_recommendations user limit w)) ->
      ~ has_reviewed (w_db w) user
          (m_Movie_ID (Recommendation.rec_movie row)))
  /\ (forall row,
         In row (rows_of (Recommendation.get_friend_recommendations
                            user limit w)) ->
         ~ has_reviewed (w_db w) user
             (m_Movie_ID (Recommendation.fr_movie row)))
  /\ (healthy w -> 0 <= limit ->
      exists prefs friends,
        Recommendation.get_movie_recommendations user limit w
        = (Ok prefs, served w [Execute SELECT "Movie"])
        /\ Recommendation.get_friend_recommendations user limit w
           = (Ok friends, served w [Execute SELECT "Movie"])).
Proof.
  split; [|split].
  - intros row. unfold rows_of, Recommendation.get_movie_recommendations.
    rewrite try_except_reraise.
    destruct (execute_query _ w) as [[rows|e] w'] eqn:E; simpl; [|intros []].
    apply execute_query_Ok_inv in E. destruct E as [d' E].
    intros Hin. eapply movie_recommendations_unreviewed; eassumption.
  - intros row. unfold rows_of, Recommendation.get_friend_recommendations.
    rewrite try_except_reraise.
    destruct (execute_query _ w) as [[rows|e] w'] eqn:E; simpl; [|intros []].
    apply execute_query_Ok_inv in E. destruct E as [d' E].
    intros Hin. eapply friend_recommendations_unreviewed; eassumption.
  - intros Hh Hl.
    unfold Recommendation.get_movie_recommendations,
      Recommendation.get_friend_recommendations.
    rewrite !try_except_reraise.
    do 2 eexists. split.
    + eapply (@execute_query_healthy _
                (Recommendation.movie_recommendations_statement user limit));
        [assumption|reflexivity|].
      simpl. rewrite LIMIT_nonneg by assumption. reflexivity.
    + eapply (@execute_query_healthy _
                (Recommendation.friend_recommendations_statement user limit));
        [assumption|reflexivity|].
      simpl. rewrite LIMIT_nonneg by assumption. reflexivity.
Qed.

Lemma C3_recommendations_exclude_reviewed_witness :
  exists prefs friends,
    Recommendation.get_movie_recommendations
      1 10 (Sample.world_of Sample.preferences_db (Some 1))
    = (Ok prefs,
       served (Sample.world_of Sample.preferences_db (Some 1))
              [Execute SELECT "Movie"])
    /\ Recommendation.get_friend_recommendations
         1 10 (Sample.world_of Sample.preferences_db (Some 1))
       = (Ok friends,
          served (Sample.world_of Sample.preferences_db (Some 1))
                 [Execute SELECT "Movie"]).
Proof.
  apply (proj2 (proj2 (C3_recommendations_exclude_reviewed
                         (Sample.world_of Sample.preferences_db (Some 1))
                         1 10))).
  - reflexivity.
  - lia.
Defined.

(* ================================================================== *)
(** * A second review of the same movie fails (C8) *)
(* ================================================================== *)

Lemma already_reviewed_detected d user movie :
  has_reviewed d user movie ->
  existsb (fun r => (r_User_ID r =? user)
                    && Review.same_target (Some movie) None r)
          (tbl_Reviews d) = true.
Proof.
  intros [r [Hin [Hu Hm]]]. apply existsb_exists. exists r.
  split; [assumption|].
  unfold Review.same_target. rewrite Hm, Hu. simpl.
  rewrite !Z.eqb_refl. reflexivity.
Qed.

(** A stored procedure that signals an error on a healthy connection:
    the call is made, rolled back, and the error raised; the tables stay
    as they were. *)
Lemma execute_procedure_signals A (p : procedure A) w msg :
  healthy w ->
  p_run p (w_db w) = inl msg ->
  execute_procedure p w
  = (Raise (MySQLError msg), served w [Callproc (p_name p); Rollback]).
Proof.
  intros Hh Hrun. unfold healthy in Hh.
  unfold execute_procedure, get_cursor, bind, try_except, next_fault, emit,
    get_db, raise, served.
  destruct w as [d s fs t sec]; simpl in *.
  destruct fs as [|f fs]; simpl in *.
  - rewrite Hrun. simpl. rewrite <- app_assoc. reflexivity.
  - subst f. simpl. rewrite Hrun. simpl. rewrite <- app_assoc. reflexivity.
Qed.

(** C8.  When user U already has a review of movie M, creating another
    one fails: on a healthy connection the call of [sp_add_review]
    raises [Error], [execute_procedure] rolls back and raises it again,
    nothing is committed, and every table is as it was. *)
Theorem C8_second_review_fails (w : world) (user movie : Z) (score : float)
  (title : string) (content : option string) :
  healthy w ->
  has_reviewed (w_db w) user movie ->
  exists msg,
    Review.create_review user score title content (Some movie) None w
    = (Raise (MySQLError msg),
       served w [Callproc "sp_add_review"; Rollback]).
Proof.
  intros Hh Hrev. unfold Review.create_review.
  rewrite try_except_reraise. unfold bind.
  eexists.
  rewrite (@execute_procedure_signals _
             (Review.sp_add_review user (Some movie) None score title content)
             w "User has already reviewed this content"); [reflexivity|assumption|].
  unfold Review.sp_add_review. cbn [p_run].
  rewrite already_reviewed_detected by assumption. reflexivity.
Qed.

(** After user 1's first review of movie 1 has been stored, the second
    attempt raises. *)
Lemma C8_second_review_fails_witness :
  fst Sample.first_review = Ok true
  /\ exists msg,
       Review.create_review 1 8%float "Second thoughts" None (Some 1) None
                            (snd Sample.first_review)
       = (Raise (MySQLError msg),
          served (snd Sample.first_review)
                 [Callproc "sp_add_review"; Rollback]).
Proof.
  split; [reflexivity|].
  apply (@C8_second_review_fails (snd Sample.first_review) 1 1 8%float
                                 "Second thoughts"%string None).
  - reflexivity.
  - exists (ReviewRow 6 1 (Some 1) None 9 "Great film" None).
    split; [|split; reflexivity].
    do 5 right. left. vm_compute. reflexivity.
Defined.

(* ================================================================== *)
(** * Only the author edits or deletes a review (C6) *)
(* ================================================================== *)

Lemma left_join_In_left A B (l : list A) (r : list B) on a ob :
  In (a, ob) (Sql.left_join l r on) -> In a l.
Proof.
  unfold Sql.left_join. rewrite in_flat_map. intros [a' [Hin Hx]].
  destruct (filter (on a') r) as [|b bs].
  - destruct Hx as [[= <- _]|[]]. assumption.
  - apply in_map_iff in Hx. destruct Hx as [b' [[= <- _] _]]. assumption.
Qed.

Lemma left_join_keeps_left A B (l : list A) (r : list B) on a :
  In a l -> exists ob, In (a, ob) (Sql.left_join l r on).
Proof.
  intros Hin. unfold Sql.left_join.
  destruct (filter (on a) r) as [|b bs] eqn:E.
  - exists None. apply in_flat_map. exists a. rewrite E. simpl. auto.
  - exists (Some b). apply in_flat_map. exists a. rewrite E.
    split; [assumption|]. left. reflexivity.
Qed.

(** The rows [get_review_by_id] selects are views of stored reviews that
    carry the requested id. *)
Lemma review_by_id_rows_sound d review_id rv :
  In rv (Review.review_by_id_rows d review_id) ->
  In (Review.rv_review rv) (tbl_Reviews d)
  /\ r_Review_ID (Review.rv_review rv) = review_id.
Proof.
  unfold Review.review_by_id_rows. rewrite in_map_iff.
  intros [[[r om] os] [<- Hin]]. apply filter_In in Hin.
  destruct Hin as [Hin Hid]. simpl in *. split.
  - apply left_join_In_left in Hin. apply left_join_In_left in Hin.
    assumption.
  - apply Z.eqb_eq. assumption.
Qed.

(** A stored review with the requested id is selected. *)
Lemma review_by_id_rows_complete d review_id r :
  In r (tbl_Reviews d) -> r_Review_ID r = review_id ->
  Review.review_by_id_rows d review_id <> [].
Proof.
  intros Hin Hid. unfold Review.review_by_id_rows.
  destruct (@left_join_keeps_left _ _ _ (tbl_Movie d)
              (fun r m => Sql.eq_null (m_Movie_ID m) (r_Movie_ID r)) _ Hin)
    as [om Hm].
  destruct (@left_join_keeps_left _ _ _ (tbl_TV_Show d)
              (fun x s => Sql.eq_null (s_Show_ID s) (r_Show_ID (fst x))) _ Hm)
    as [os Hs].
  intros E.
  assert (In (Review.ReviewView r (option_map m_Title om)
                                (option_map s_Title os))
             (map (fun x => Review.ReviewView (fst (fst x))
                              (option_map m_Title (snd (fst x)))
                              (option_map s_Title (snd x)))
                  (filter (fun x => r_Review_ID (fst (fst x)) =? review_id)
                     (Sql.left_join
                        (Sql.left_join (tbl_Reviews d) (tbl_Movie d)
                           (fun r m => Sql.eq_null (m_Movie_ID m)
                                                   (r_Movie_ID r)))
                        (tbl_TV_Show d)
                        (fun x s => Sql.eq_null (s_Show_ID s)
                                                (r_Show_ID (fst x))))))) as H.
  { apply in_map_iff. exists (r, om, os). split; [reflexivity|].
    apply filter_In. split; [assumption|]. simpl. apply Z.eqb_eq. assumption. }
  rewrite E in H. destruct H.
Qed.

Lemma get_review_by_id_healthy w review_id :
  healthy w ->
  Review.get_review_by_id review_id w
  = (Ok (first_or_None (Review.review_by_id_rows (w_db w) review_id)),
     served w [Execute SELECT "Reviews"]).
Proof.
  intros Hh. unfold Review.get_review_by_id.
  rewrite try_except_reraise. unfold bind.
  rewrite execute_select_healthy by assumption. reflexivity.
Qed.

Lemma served_flash w evs message category :
  flash message category (served w evs)
  = (Ok tt, served w (evs ++ [Flash message category])).
Proof.
  unfold flash, emit, served. simpl. rewrite <- app_assoc. reflexivity.
Qed.

Lemma bind_Ok A B (c : M A) (k : A -> M B) w a w' :
  c w = (Ok a, w') -> bind c k w = k a w'.
Proof. intros E. unfold bind. rewrite E. reflexivity. Qed.

Lemma bind_Raise A B (c : M A) (k : A -> M B) w e w' :
  c w = (Raise e, w') -> bind c k w = (Raise e, w').
Proof. intros E. unfold bind. rewrite E. reflexivity. Qed.

Lemma try_except_Ok A (body : M A) class handler w a w' :
  body w = (Ok a, w') -> try_except body class handler w = (Ok a, w').
Proof. intros E. unfold try_except. rewrite E. reflexivity. Qed.

Lemma try_except_caught A (body : M A) class handler w e w' :
  body w = (Raise e, w') -> class e = true ->
  try_except body class handler w = handler e w'.
Proof. intros E Hc. unfold try_except. rewrite E, Hc. reflexivity. Qed.

Lemma login_required_logged_in f w uid :
  user_id (w_session w) = Some uid -> login_required f w = f w.
Proof.
  intros Hs. unfold login_required, bind, get_session. rewrite Hs.
  reflexivity.
Qed.

Lemma session_user_id_logged_in w uid :
  user_id (w_session w) = Some uid -> session_user_id w = (Ok uid, w).
Proof.
  intros Hs. unfold session_user_id, bind, get_session. rewrite Hs.
  reflexivity.
Qed.

Lemma review_of_another_first d review_id uid :
  review_of_another d review_id uid ->
  exists rv,
    first_or_None (Review.review_by_id_rows d review_id) = Some rv
    /\ (r_User_ID (Review.rv_review rv) =? uid) = false.
Proof.
  intros [[r [Hin Hid]] Hother].
  destruct (Review.review_by_id_rows d review_id) as [|rv rows] eqn:E.
  - exfalso. eapply review_by_id_rows_complete; eassumption.
  - exists rv. split; [reflexivity|].
    apply Z.eqb_neq.
    destruct (@review_by_id_rows_sound d review_id rv) as [Hin' Hid'].
    { rewrite E. left. reflexivity. }
    apply Hother; assumption.
Qed.

(** C6.  Let the session user be [uid], the connection healthy.  When the
    review exists and its author is someone else, [edit_review] (GET or
    POST, whatever the form holds) and [delete_review] answer with the
    flash "You can only edit/delete your own reviews." and a redirect to
    the profile: the only statement run is the SELECT that fetched the
    review, so no UPDATE, DELETE or commit happens and the tables are
    unchanged.  When no review has the id, both answer with the flash
    "Review not found." instead. *)
Theorem C6_only_the_author_edits_or_deletes (w : world) (review_id uid : Z)
  (req : request app.review_form) :
  healthy w ->
  user_id (w_session w) = Some uid ->
  (review_of_another (w_db w) review_id uid ->
   app.edit_review review_id req w
   = (Ok (Redirect url_profile),
      served w [Execute SELECT "Reviews";
                Flash "You can only edit your own reviews." "error"])
   /\ app.delete_review review_id w
      = (Ok (Redirect url_profile),
         served w [Execute SELECT "Reviews";
                   Flash "You can only delete your own reviews." "error"]))
  /\ ((forall r, In r (tbl_Reviews (w_db w)) -> r_Review_ID r <> review_id) ->
      app.edit_review review_id req w
      = (Ok (Redirect url_profile),
         served w [Execute SELECT "Reviews";
                   Flash "Review not found." "error"])
      /\ app.delete_review review_id w
         = (Ok (Redirect url_profile),
            served w [Execute SELECT "Reviews";
                      Flash "Review not found." "error"])).
Proof.
  intros Hh Hs. split.
  - intros Hother.
    destruct (review_of_another_first Hother) as [rv [Hrv Hne]].
    unfold app.edit_review, app.delete_review.
    rewrite !(login_required_logged_in _ _ Hs).
    split; apply try_except_Ok;
      (erewrite bind_Ok by (apply get_review_by_id_healthy; assumption));
      rewrite Hrv;
      (erewrite bind_Ok
         by (apply session_user_id_logged_in with (uid := uid); exact Hs));
      rewrite Hne; cbn [negb];
      (erewrite bind_Ok by apply served_flash); reflexivity.
  - intros Hnone.
    assert (Review.review_by_id_rows (w_db w) review_id = []) as E.
    { destruct (Review.review_by_id_rows (w_db w) review_id) as [|rv rows] eqn:E;
        [reflexivity|].
      destruct (@review_by_id_rows_sound (w_db w) review_id rv) as [Hin Hid].
      { rewrite E. left. reflexivity. }
      exfalso. exact (Hnone _ Hin Hid). }
    unfold app.edit_review, app.delete_review.
    rewrite !(login_required_logged_in _ _ Hs).
    split; apply try_except_Ok;
      (erewrite bind_Ok by (apply get_review_by_id_healthy; assumption));
      rewrite E; cbn [first_or_None hd_error];
      (erewrite bind_Ok by apply served_flash); reflexivity.
Qed.

(** User 1 asks to edit and to delete review 1, which user 2 wrote. *)
Lemma C6_only_the_author_edits_or_deletes_witness :
  app.edit_review 1 (review_request (Some 5%float))
                  (Sample.world_of Sample.preferences_db (Some 1))
  = (Ok (Redirect url_profile),
     served (Sample.world_of Sample.preferences_db (Some 1))
            [Execute SELECT "Reviews";
             Flash "You can only edit your own reviews." "error"])
  /\ app.delete_review 1 (Sample.world_of Sample.preferences_db (Some 1))
     = (Ok (Redirect url_profile),
        served (Sample.world_of Sample.preferences_db (Some 1))
               [Execute SELECT "Reviews";
                Flash "You can only delete your own reviews." "error"]).
Proof.
  apply (proj1 (@C6_only_the_author_edits_or_deletes
                  (Sample.world_of Sample.preferences_db (Some 1)) 1 1
                  (review_request (Some 5%float))
                  eq_refl eq_refl)).
  split.
  - exists (Sample.review 1 2 1 8). split; [left|]; reflexivity.
  - intros r Hin Hid. simpl in Hin.
    repeat (destruct Hin as [<-|Hin]; [simpl in Hid |- *; lia|]).
    destruct Hin.
Defined.

(* ================================================================== *)
(** * Computations that leave the session alone *)
(* ================================================================== *)

Lemma keeps_ret A (a : A) : keeps_session (ret a).
Proof. intros w. reflexivity. Qed.

Lemma keeps_raise A (e : exn) : keeps_session (@raise A e).
Proof. intros w. reflexivity. Qed.

Lemma keeps_emit e : keeps_session (emit e).
Proof. intros w. reflexivity. Qed.

Lemma keeps_flash message category : keeps_session (flash message category).
Proof. intros w. reflexivity. Qed.

Lemma keeps_get_db : keeps_session get_db.
Proof. intros w. reflexivity. Qed.

Lemma keeps_put_db d : keeps_session (put_db d).
Proof. intros w. reflexivity. Qed.

Lemma keeps_get_security : keeps_session get_security.
Proof. intros w. reflexivity. Qed.

Lemma keeps_next_fault : keeps_session next_fault.
Proof. intros w. unfold next_fault. destruct (w_faults w); reflexivity. Qed.

Lemma keeps_bind A B (c : M A) (k : A -> M B) :
  keeps_session c -> (forall a, keeps_session (k a)) ->
  keeps_session (bind c k).
Proof.
  intros Hc Hk w. unfold bind. specialize (Hc w).
  destruct (c w) as [[a|e] w1]; simpl in *.
  - rewrite Hk. assumption.
  - assumption.
Qed.

Lemma keeps_try_except A (body : M A) class handler :
  keeps_session body -> (forall e, keeps_session (handler e)) ->
  keeps_session (try_except body class handler).
Proof.
  intros Hb Hh w. unfold try_except. specialize (Hb w).
  destruct (body w) as [[a|e] w1]; simpl in *; [assumption|].
  destruct (class e); simpl; [rewrite Hh|]; assumption.
Qed.

Create HintDb session.
#[local] Hint Resolve keeps_ret keeps_raise keeps_emit keeps_flash
  keeps_get_db keeps_put_db keeps_get_security keeps_next_fault : session.

(** Break a computation into its steps, splitting on every test. *)
Ltac keeps_step :=
  first
    [ apply keeps_bind; [|intros ?]
    | apply keeps_try_except; [|intros ?]
    | solve [auto with session]
    | match goal with
      | |- keeps_session (match ?x with _ => _ end) => destruct x
      | |- keeps_session (if ?b then _ else _) => destruct b
      | |- keeps_session (let _ := _ in _) => cbv zeta
      end ].

Ltac keeps := repeat keeps_step.

Lemma keeps_get_cursor : keeps_session get_cursor.
Proof. unfold get_cursor. keeps. Qed.

Lemma keeps_execute_query A (q : statement A) :
  keeps_session (execute_query q).
Proof.
  unfold execute_query. apply keeps_bind; [apply keeps_get_cursor|].
  intros f. keeps.
Qed.

Lemma keeps_execute_procedure A (p : procedure A) :
  keeps_session (execute_procedure p).
Proof.
  unfold execute_procedure. apply keeps_bind; [apply keeps_get_cursor|].
  intros f. keeps.
Qed.

#[local] Hint Resolve keeps_get_cursor keeps_execute_query
  keeps_execute_procedure : session.

Lemma keeps_get_user_by_email email :
  keeps_session (User.get_user_by_email email).
Proof. unfold User.get_user_by_email. keeps. Qed.

Lemma keeps_create_user name email password role age gender vtype vid :
  keeps_session (User.create_user name email password role age gender
                                  vtype vid).
Proof. unfold User.create_user. keeps. Qed.

Lemma keeps_get_all_companies :
  keeps_session ProductionCompany.get_all_companies.
Proof. unfold ProductionCompany.get_all_companies. keeps. Qed.

Lemma keeps_get_all_celebrities :
  keeps_session Celebrity.get_all_celebrities.
Proof. unfold Celebrity.get_all_celebrities. keeps. Qed.

#[local] Hint Resolve keeps_get_user_by_email keeps_create_user
  keeps_get_all_companies keeps_get_all_celebrities : session.

(** No path through [register], successful or failed, sets a session
    key. *)
Lemma register_keeps_session req : keeps_session (app.register req).
Proof.
  unfold app.register, app.register_attempt. keeps.
Qed.

(* ================================================================== *)
(** * Computations that only read the database *)
(* ================================================================== *)

Lemma reads_ret A P (a : A) (Q : database -> A -> Prop) :
  (forall d, P d -> Q d a) -> reads P (ret a) Q.
Proof.
  intros HQ w HP. simpl. repeat split; auto.
  exists []. rewrite app_nil_r. auto.
Qed.

Lemma reads_raise A P (e : exn) (Q : database -> A -> Prop) :
  reads P (raise e) Q.
Proof.
  intros w HP. simpl. repeat split; auto.
  exists []. rewrite app_nil_r. auto.
Qed.

Lemma reads_emit P e (Q : database -> unit -> Prop) :
  is_write e = false -> (forall d, P d -> Q d tt) -> reads P (emit e) Q.
Proof.
  intros He HQ w HP. simpl. repeat split; auto.
  exists [e]. auto.
Qed.

Lemma reads_flash P message category :
  reads P (flash message category) (fun _ _ => True).
Proof. apply reads_emit; auto. Qed.

Lemma reads_get_db P : reads P get_db (fun d a => a = d).
Proof.
  intros w HP. simpl. repeat split; auto.
  exists []. rewrite app_nil_r. auto.
Qed.

Lemma reads_next_fault P : reads P next_fault (fun _ _ => True).
Proof.
  intros w HP. unfold next_fault.
  destruct (w_faults w); simpl; repeat split; auto;
    exists []; rewrite app_nil_r; auto.
Qed.

Lemma reads_bind A B P (c : M A) (k : A -> M B) Q R :
  reads P c Q ->
  (forall a, reads (fun d => P d /\ Q d a) (k a) R) ->
  reads P (bind c k) R.
Proof.
  intros Hc Hk w HP. unfold bind.
  destruct (Hc w HP) as [Hd [[evs [Ht He]] Hr]].
  destruct (c w) as [[a|e] w1]; simpl in *.
  - rewrite <- Hd in HP, Hr.
    destruct (Hk a w1 (conj HP Hr)) as [Hd' [[evs' [Ht' He']] Hr']].
    rewrite Hd', Hd. repeat split.
    + exists (evs ++ evs'). rewrite Ht', Ht, app_assoc. split; [reflexivity|].
      apply Forall_app. auto.
    + rewrite Hd in Hr'. assumption.
  - repeat split; auto. exists evs. auto.
Qed.

Lemma reads_try_except A P (body : M A) class handler Q :
  reads P body Q ->
  (forall e, reads P (handler e) Q) ->
  reads P (try_except body class handler) Q.
Proof.
  intros Hb Hh w HP. unfold try_except.
  destruct (Hb w HP) as [Hd [[evs [Ht He]] Hr]].
  destruct (body w) as [[a|e] w1]; simpl in *.
  - repeat split; auto. exists evs. auto.
  - destruct (class e); simpl.
    + rewrite <- Hd in HP.
      destruct (Hh e w1 HP) as [Hd' [[evs' [Ht' He']] Hr']].
      rewrite Hd', Hd. repeat split.
      * exists (evs ++ evs'). rewrite Ht', Ht, app_assoc.
        split; [reflexivity|]. apply Forall_app. auto.
      * rewrite Hd in Hr'. assumption.
    + repeat split; auto. exists evs. auto.
Qed.

Lemma reads_weaken A (P P' : database -> Prop) (c : M A)
  (Q Q' : database -> A -> Prop) :
  reads P c Q ->
  (forall d, P' d -> P d) ->
  (forall d a, P' d -> Q d a -> Q' d a) ->
  reads P' c Q'.
Proof.
  intros Hc HP HQ w HP'.
  destruct (Hc w (HP _ HP')) as [Hd [Ht Hr]].
  repeat split; auto.
  destruct (fst (c w)); auto.
Qed.

(** A SELECT reads only, and what it returns is its meaning on the
    tables. *)
Lemma reads_select A P table (rows : database -> list A) :
  reads P (execute_query (select table rows)) (fun d a => a = rows d).
Proof.
  intros w HP.
  unfold execute_query, get_cursor, bind, try_except, next_fault, emit,
    get_db, raise, ret.
  destruct w as [d s fs t sec]; simpl.
  destruct fs as [|[|msg|] fs]; simpl; repeat split; auto.
  - exists [Execute SELECT table]. auto.
  - exists [Execute SELECT table]. auto.
  - exists [Execute SELECT table; Rollback].
    rewrite <- app_assoc. auto.
  - exists []. rewrite app_nil_r. auto.
Qed.

(* ================================================================== *)
(** * Registering with an email already in use (C9) *)
(* ================================================================== *)

Lemma reads_impossible A (P : database -> Prop) (c : M A) Q :
  (forall d, ~ P d) -> reads P c Q.
Proof. intros HP w Hw. destruct (HP _ Hw). Qed.

Lemma reads_get_user_by_email P email :
  reads P (User.get_user_by_email email)
        (fun d r =>
           r = first_or_None
                 (filter (fun u => Sql.co_eqb (db_collation d) (u_Email u)
                                              email)
                         (tbl_User d))).
Proof.
  unfold User.get_user_by_email.
  eapply reads_bind; [apply reads_select|].
  intros rows. apply reads_ret. intros d [_ ->]. reflexivity.
Qed.

Lemma email_in_use_found email d :
  email_in_use email d ->
  first_or_None
    (filter (fun u => Sql.co_eqb (db_collation d) (u_Email u) email)
            (tbl_User d)) <> None.
Proof.
  intros [u [Hin He]].
  destruct (filter _ (tbl_User d)) as [|u' us] eqn:E; [|discriminate].
  assert (In u (filter (fun u => Sql.co_eqb (db_collation d) (u_Email u)
                                            email) (tbl_User d))) as H.
  { apply filter_In. auto. }
  rewrite E in H. destruct H.
Qed.

(** A flash followed by the return of [r]. *)
Lemma reads_flash_ret A P message category (r : A) (Q : database -> A -> Prop) :
  (forall d, P d -> Q d r) ->
  reads P (flash message category ;;; ret r) Q.
Proof.
  intros HQ. eapply reads_bind; [apply reads_flash|].
  intros []. apply reads_ret. intros d [HP _]. auto.
Qed.

(** With the email in use, the [try] of [register] only reads, and does
    not end in the redirect that follows a successful registration. *)
Lemma reads_register_attempt name email password role age gender vtype vid :
  reads (email_in_use email)
        (app.register_attempt name email password role age gender vtype vid)
        (fun _ r => r <> Some (Redirect url_login)).
Proof.
  unfold app.register_attempt. apply reads_try_except.
  - eapply reads_bind; [apply reads_get_user_by_email|].
    intros [u|].
    + apply reads_flash_ret. intros; discriminate.
    + apply reads_impossible. intros d [Hin Hnone].
      symmetry in Hnone. revert Hnone. apply email_in_use_found. assumption.
  - intros e. apply reads_flash_ret. intros; discriminate.
Qed.

Lemma reads_register req email :
  rf_email_of req = Some email ->
  reads (email_in_use email) (app.register req)
        (fun _ r => r <> Redirect url_login).
Proof.
  unfold rf_email_of. intros Hemail. unfold app.register.
  eapply reads_bind with
    (Q := fun (_ : database) (r : option response) =>
            r <> Some (Redirect url_login)).
  - destruct (method req); [apply reads_ret; intros; discriminate|].
    cbv zeta. rewrite Hemail.
    destruct (app.rf_name (form req)) as [name|];
      [|apply reads_flash_ret; intros; discriminate].
    destruct (app.rf_password (form req)) as [password|];
      [|apply reads_flash_ret; intros; discriminate].
    destruct (app.rf_confirm_password (form req)) as [confirm|];
      [|apply reads_flash_ret; intros; discriminate].
    repeat match goal with
           | |- reads _ (if ?b then _ else _) _ =>
               destruct b; [apply reads_flash_ret; intros; discriminate|]
           end.
    apply reads_register_attempt.
  - intros [r|].
    + apply reads_ret. intros d [_ Hr]. congruence.
    + eapply reads_bind; [apply reads_select|]. intros companies.
      eapply reads_bind; [apply reads_select|]. intros celebrities.
      apply reads_ret. intros; discriminate.
Qed.

(** C9.  No path through [register] sets a session key: the session
    after the request is the session before it, for every request and
    every state of the database and of the connection.  And when the
    submitted email already belongs to a stored user, the request does
    not end in the redirect that follows a successful registration, the
    tables are unchanged, and nothing that writes is sent to the
    database: [User.create_user], which calls [sp_add_user], is not
    invoked. *)
Theorem C9_duplicate_email_is_rejected (w : world)
  (req : request app.register_form) :
  w_session (snd (app.register req w)) = w_session w
  /\ (forall email,
         rf_email_of req = Some email ->
         email_in_use email (w_db w) ->
         fst (app.register req w) <> Ok (Redirect url_login)
         /\ w_db (snd (app.register req w)) = w_db w
         /\ Forall (fun e => is_write e = false)
                   (new_events w (snd (app.register req w)))).
Proof.
  split; [apply register_keeps_session|].
  intros email Hemail Huse.
  destruct (reads_register req Hemail w Huse) as [Hd [[evs [Ht He]] Hr]].
  repeat split.
  - destruct (fst (app.register req w)) as [r|e]; [|discriminate].
    congruence.
  - assumption.
  - rewrite (@new_events_app _ _ _ Ht). assumption.
Qed.

Lemma C9_duplicate_email_is_rejected_witness :
  app.register register_alice_again
               (Sample.world_of Sample.preferences_db None)
  = (Ok (Render "register.html" []),
     served (Sample.world_of Sample.preferences_db None)
            [Execute SELECT "User";
             Flash "Email already registered." "error"])
  /\ fst (app.register register_alice_again
                       (Sample.world_of Sample.preferences_db None))
     <> Ok (Redirect url_login)
  /\ w_db (snd (app.register register_alice_again
                             (Sample.world_of Sample.preferences_db None)))
     = Sample.preferences_db
  /\ Forall (fun e => is_write e = false)
            (new_events (Sample.world_of Sample.preferences_db None)
                        (snd (app.register
                                register_alice_again
                                (Sample.world_of Sample.preferences_db None)))).
Proof.
  split; [reflexivity|].
  apply (proj2 (C9_duplicate_email_is_rejected
                  (Sample.world_of Sample.preferences_db None)
                  register_alice_again)
               "alice@example.com"%string eq_refl).
  exists (Sample.person 1 "Alice" "alice@example.com").
  split; [left|]; reflexivity.
Defined.

(** For contrast: a new email is stored through [sp_add_user], and
    [login] is the handler that does set the session. *)
Lemma register_new_email_creates_user :
  new_events (Sample.world_of Sample.preferences_db None)
    (snd (app.register
            (Request POST None []
               (app.RegisterForm (Some "Erin"%string)
                                 (Some "erin@example.com"%string)
                                 (Some "secret"%string) (Some "secret"%string)
                                 None None None None None))
            (Sample.world_of Sample.preferences_db None)))
  = [Execute SELECT "User"; Callproc "sp_add_user"; Commit;
     Flash "Registration successful! Please log in." "success"].
Proof. vm_compute. reflexivity. Qed.

Lemma login_sets_session :
  w_session
    (snd (app.login
            (Request POST None []
               (app.LoginForm (Some "alice@example.com"%string)
                              (Some "alice@example.com"%string)))
            (Sample.world_of Sample.preferences_db None)))
  = Session (Some 1) (Some "Alice"%string) (Some "normal_user"%string).
Proof. vm_compute. reflexivity. Qed.

(* ================================================================== *)
(** * LIKE and substrings *)
(* ================================================================== *)

Section Like.
Variable chr : ascii -> ascii -> bool.

Lemma like_percent_unfold c p s :
  Sql.is_percent c = true ->
  Sql.like_chars chr (c :: p) s
  = Sql.like_chars chr p s
    || match s with
       | [] => false
       | _ :: s' => Sql.like_chars chr (c :: p) s'
       end.
Proof.
  intros Hc. simpl. rewrite Hc. destruct s; reflexivity.
Qed.

Lemma like_literal_unfold c p s :
  literal c = true ->
  Sql.like_chars chr (c :: p) s
  = match s with
    | [] => false
    | x :: s' => chr c x && Sql.like_chars chr p s'
    end.
Proof.
  unfold literal. rewrite negb_true_iff, !orb_false_iff.
  intros [[H1 H2] H3]. simpl. rewrite H1, H2, H3. reflexivity.
Qed.

(** A leading [%] lets the rest of the pattern match any suffix. *)
Lemma like_percent c p s :
  Sql.is_percent c = true ->
  Sql.like_chars chr (c :: p) s = true
  <-> exists pre rest, s = pre ++ rest /\ Sql.like_chars chr p rest = true.
Proof.
  intros Hc. induction s as [|x s IH].
  - rewrite like_percent_unfold by assumption. rewrite orb_false_r. split.
    + intros H. exists [], []. auto.
    + intros [pre [rest [E H]]]. symmetry in E.
      apply app_eq_nil in E. destruct E as [_ ->]. assumption.
  - rewrite like_percent_unfold by assumption.
    rewrite orb_true_iff, IH. split.
    + intros [H|[pre [rest [-> H]]]].
      * exists [], (x :: s). auto.
      * exists (x :: pre), rest. auto.
    + intros [[|y pre] [rest [E H]]]; simpl in E.
      * left. subst rest. assumption.
      * right. injection E as _ ->. exists pre, rest. auto.
Qed.

(** Literal text at the head of a pattern matches a prefix of the
    string, character by character. *)
Lemma like_literal_text q : forall p s,
  forallb literal q = true ->
  Sql.like_chars chr (q ++ p) s = true
  <-> exists mid rest,
        s = mid ++ rest /\ matches_text chr q mid
        /\ Sql.like_chars chr p rest = true.
Proof.
  induction q as [|c q IH]; intros p s Hq.
  - simpl. split.
    + intros H. exists [], s. repeat split; [constructor|assumption].
    + intros [mid [rest [-> [Hm H]]]]. inversion Hm. assumption.
  - simpl in Hq. apply andb_true_iff in Hq. destruct Hq as [Hc Hq].
    simpl app. rewrite like_literal_unfold by assumption.
    destruct s as [|x s].
    + split; [discriminate|].
      intros [mid [rest [E [Hm _]]]]. inversion Hm; subst. discriminate.
    + rewrite andb_true_iff, (IH p s Hq). split.
      * intros [Hx [mid [rest [-> [Hm H]]]]].
        exists (x :: mid), rest. repeat split; [constructor|]; assumption.
      * intros [mid [rest [E [Hm H]]]]. inversion Hm; subst.
        injection E as -> ->. split; [assumption|]. eauto.
Qed.

Lemma like_percent_only c s :
  Sql.is_percent c = true -> Sql.like_chars chr [c] s = true.
Proof.
  intros Hc. apply like_percent; [assumption|].
  exists s, []. rewrite app_nil_r. auto.
Qed.

(** The pattern [%q%] for literal text [q] matches exactly the strings
    that contain a run of characters matching [q]. *)
Lemma like_contains q s :
  forallb literal q = true ->
  Sql.like_chars chr ("%"%char :: q ++ ["%"%char]) s = true
  <-> exists pre mid post, s = pre ++ mid ++ post /\ matches_text chr q mid.
Proof.
  intros Hq. rewrite like_percent by reflexivity. split.
  - intros [pre [rest [-> H]]].
    apply (like_literal_text q ["%"%char] rest Hq) in H.
    destruct H as [mid [post [-> [Hm _]]]]. eauto.
  - intros [pre [mid [post [-> Hm]]]]. exists pre, (mid ++ post).
    split; [reflexivity|].
    apply (like_literal_text q ["%"%char] (mid ++ post) Hq).
    exists mid, post. repeat split; [assumption|].
    apply like_percent_only. reflexivity.
Qed.

End Like.

(* ================================================================== *)
(** * ORDER BY sorts *)
(* ================================================================== *)

Section OrderBySorts.
Variables (A : Type) (leb : A -> A -> bool).
Hypothesis leb_total : forall a b, leb a b = false -> leb b a = true.

Let no_later_than (a b : A) : Prop := leb a b = true.

Lemma insert_sorted_HdRel x y l :
  no_later_than y x -> HdRel no_later_than y l ->
  HdRel no_later_than y (Sql.insert_sorted leb x l).
Proof.
  intros Hyx Hl. destruct l as [|z l]; simpl.
  - constructor. assumption.
  - destruct (leb x z); constructor; [assumption|].
    inversion Hl. assumption.
Qed.

Lemma insert_sorted_Sorted x l :
  Sorted no_later_than l -> Sorted no_later_than (Sql.insert_sorted leb x l).
Proof.
  induction l as [|y l IH]; simpl; intros Hs.
  - repeat constructor.
  - inversion Hs as [|? ? Hl Hy]; subst.
    destruct (leb x y) eqn:E.
    + constructor; [assumption|]. constructor. assumption.
    + constructor; [apply IH; assumption|].
      apply insert_sorted_HdRel; [|assumption].
      apply leb_total. assumption.
Qed.

(** The rows come out of ORDER BY in order. *)
Lemma order_by_Sorted l : Sorted no_later_than (Sql.order_by leb l).
Proof.
  unfold Sql.order_by. induction l as [|x l IH]; simpl.
  - constructor.
  - apply insert_sorted_Sorted. assumption.
Qed.

End OrderBySorts.

Lemma join_inv A B (l : list A) (r : list B) on a b :
  In (a, b) (Sql.join l r on) -> In a l /\ In b r /\ on a b = true.
Proof.
  unfold Sql.join. rewrite in_flat_map. intros [a' [Ha Hx]].
  apply in_map_iff in Hx. destruct Hx as [b' [[= <- <-] Hb]].
  apply filter_In in Hb. destruct Hb. auto.
Qed.

(* ================================================================== *)
(** * Filtering the movie catalogue (C7) *)
(* ================================================================== *)

Lemma list_ascii_of_string_app (a b : string) :
  list_ascii_of_string (a ++ b)
  = list_ascii_of_string a ++ list_ascii_of_string b.
Proof.
  induction a as [|c a IH]; simpl; [reflexivity|]. rewrite IH. reflexivity.
Qed.

Lemma like_pattern_chars q :
  list_ascii_of_string (Movie.like_pattern q)
  = "%"%char :: list_ascii_of_string q ++ ["%"%char].
Proof.
  unfold Movie.like_pattern. simpl. rewrite list_ascii_of_string_app.
  reflexivity.
Qed.

(** For a search string without wildcards the pattern [%q%] selects the
    titles that contain it. *)
Lemma LIKE_contains co title q :
  literal_text q = true ->
  Sql.LIKE co title (Movie.like_pattern q) = true <-> contains_text co q title.
Proof.
  intros Hq. unfold Sql.LIKE, contains_text.
  rewrite like_pattern_chars. apply like_contains. assumption.
Qed.

Lemma truthy_int_Some genre_id :
  truthy_int genre_id = true -> exists g, genre_id = Some g /\ g <> 0.
Proof.
  destruct genre_id as [g|]; simpl; [|discriminate].
  rewrite negb_true_iff, Z.eqb_neq. eauto.
Qed.

(** What a row that survives FROM, JOIN and WHERE satisfies. *)
Lemma filtered_rows_inv d genre_id search_query x :
  In x (Movie.filtered_rows d genre_id search_query) ->
  In (Movie.fr_m x) (tbl_Movie d)
  /\ (forall g, genre_id = Some g -> g <> 0 ->
                has_genre d (m_Movie_ID (Movie.fr_m x)) g)
  /\ (forall q, search_query = Some q -> q <> EmptyString ->
                Sql.LIKE (db_collation d) (m_Title (Movie.fr_m x))
                         (Movie.like_pattern q) = true).
Proof.
  unfold Movie.filtered_rows. intros Hin. apply filter_In in Hin.
  destruct Hin as [Hin Hw]. unfold Movie.filtered_where in Hw.
  apply andb_true_iff in Hw. destruct Hw as [Hg Hq].
  split; [|split].
  - destruct (truthy_int genre_id).
    + apply in_map_iff in Hin. destruct Hin as [[y mg] [<- Hj]].
      apply join_inv in Hj. destruct Hj as [Hy _]. destruct y as [m r].
      apply left_join_In_left in Hy. assumption.
    + apply in_map_iff in Hin. destruct Hin as [[m r] [<- Hy]].
      apply left_join_In_left in Hy. assumption.
  - intros g -> Hg0.
    assert (truthy_int (Some g) = true) as Ht.
    { simpl. apply negb_true_iff, Z.eqb_neq. assumption. }
    rewrite Ht in Hg, Hin.
    apply in_map_iff in Hin. destruct Hin as [[y mg] [<- Hj]].
    apply join_inv in Hj. destruct Hj as [_ [Hmg Hon]].
    simpl in Hg. apply Z.eqb_eq in Hg, Hon.
    exists mg. simpl. auto.
  - intros q -> Hq0.
    assert (truthy_str (Some q) = true) as Ht.
    { simpl. apply negb_true_iff, String.eqb_neq. assumption. }
    rewrite Ht in Hq. assumption.
Qed.

Lemma movies_filtered_rows_inv d genre_id search_query row :
  In row (Movie.movies_filtered_rows d genre_id search_query) ->
  exists x, In x (Movie.filtered_rows d genre_id search_query)
            /\ Movie.lm_movie row = Movie.fr_m x.
Proof.
  unfold Movie.movies_filtered_rows. intros Hin.
  apply order_by_In in Hin. apply in_map_iff in Hin.
  destruct Hin as [g [<- Hg]]. apply group_by_inv in Hg.
  destruct Hg as [x [Hx [Hk _]]]. exists x. auto.
Qed.

(** C7, as amended.  Every movie [get_movies_filtered] returns is a
    stored movie; with a genre filter it has an association to that
    genre; with a text filter its title matches the LIKE pattern [%q%],
    which for a search string free of [%], [_] and backslash means that
    the title contains the search string (compared under the column's
    collation); with both filters both hold.  The rows come back ordered
    by title under the collation, and on a healthy connection the call
    returns them. *)
Theorem C7_movies_filtered_by_genre_and_like (w : world)
  (genre_id : option Z) (search_query : option string) :
  let d := w_db w in
  let rows := rows_of (Movie.get_movies_filtered genre_id search_query w) in
  (forall row, In row rows ->
      In (Movie.lm_movie row) (tbl_Movie d)
      /\ (forall g, genre_id = Some g -> g <> 0 ->
                    has_genre d (m_Movie_ID (Movie.lm_movie row)) g)
      /\ (forall q, search_query = Some q -> q <> EmptyString ->
                    Sql.LIKE (db_collation d) (m_Title (Movie.lm_movie row))
                             (Movie.like_pattern q) = true
                    /\ (literal_text q = true ->
                        contains_text (db_collation d) q
                                      (m_Title (Movie.lm_movie row)))))
  /\ ((forall a b, Sql.co_leb (db_collation d) a b = false ->
                   Sql.co_leb (db_collation d) b a = true) ->
      Sorted (fun a b => Sql.co_leb (db_collation d)
                                    (m_Title (Movie.lm_movie a))
                                    (m_Title (Movie.lm_movie b)) = true)
             rows)
  /\ (healthy w ->
      Movie.get_movies_filtered genre_id search_query w
      = (Ok (Movie.movies_filtered_rows d genre_id search_query),
         served w [Execute SELECT "Movie"])).
Proof.
  intros d rows. subst rows. unfold rows_of, Movie.get_movies_filtered.
  split; [|split].
  - intros row.
    destruct (execute_query _ w) as [[rows|e] w'] eqn:E; simpl; [|intros []].
    apply execute_query_Ok_inv in E. destruct E as [d' E].
    simpl in E. injection E as _ <-. intros Hin.
    apply movies_filtered_rows_inv in Hin. destruct Hin as [x [Hx ->]].
    apply filtered_rows_inv in Hx. destruct Hx as [Hm [Hg Hq]].
    split; [assumption|]. split; [assumption|].
    intros q Hsq Hq0. split; [apply Hq; assumption|].
    intros Hlit. apply LIKE_contains; [assumption|]. apply Hq; assumption.
  - intros Htotal.
    destruct (execute_query _ w) as [[rows|e] w'] eqn:E; simpl; [|constructor].
    apply execute_query_Ok_inv in E. destruct E as [d' E].
    simpl in E. injection E as _ <-.
    unfold Movie.movies_filtered_rows.
    apply (order_by_Sorted
             (fun a b => Sql.co_leb (db_collation d)
                                    (m_Title (Movie.lm_movie a))
                                    (m_Title (Movie.lm_movie b)))).
    intros a b. apply Htotal.
  - intros Hh. apply execute_select_healthy. assumption.
Qed.

Lemma matches_text_binary q mid :
  matches_text Ascii.eqb q mid <-> mid = q.
Proof.
  unfold matches_text. split.
  - induction 1 as [|c x q mid Hc _ IH]; [reflexivity|].
    apply Ascii.eqb_eq in Hc. congruence.
  - intros ->. induction q as [|c q IH]; constructor;
      [apply Ascii.eqb_refl|assumption].
Qed.

Lemma string_of_list_ascii_app (a b : list ascii) :
  string_of_list_ascii (a ++ b)
  = (string_of_list_ascii a ++ string_of_list_ascii b)%string.
Proof.
  induction a as [|c a IH]; simpl; [reflexivity|]. rewrite IH. reflexivity.
Qed.

(** Under the binary collation, matching text is the specification's
    "contains as a substring". *)
Lemma contains_text_binary q title :
  contains_text Sql.binary q title <-> contains_substring q title.
Proof.
  unfold contains_text, contains_substring. simpl. split.
  - intros [pre [mid [post [E Hm]]]]. apply matches_text_binary in Hm.
    subst mid.
    exists (string_of_list_ascii pre), (string_of_list_ascii post).
    rewrite <- (string_of_list_ascii_of_string title), E.
    rewrite !string_of_list_ascii_app, string_of_list_ascii_of_string.
    reflexivity.
  - intros [pre [post ->]].
    exists (list_ascii_of_string pre), (list_ascii_of_string q),
      (list_ascii_of_string post).
    rewrite !list_ascii_of_string_app. split; [reflexivity|].
    apply matches_text_binary. reflexivity.
Qed.

Lemma contains_substring_chars q title c :
  contains_substring q title ->
  In c (list_ascii_of_string q) -> In c (list_ascii_of_string title).
Proof.
  intros [pre [post ->]] Hin. rewrite !list_ascii_of_string_app.
  apply in_or_app. right. apply in_or_app. left. assumption.
Qed.

(** The claim as stated fails: searching the sample catalogue for "_"
    returns "Arrival", whose title holds no underscore. *)
Lemma C7_underscore_is_a_wildcard :
  exists row,
    In row (rows_of (Movie.get_movies_filtered
                       None (Some "_"%string)
                       (Sample.world_of Sample.preferences_db None)))
    /\ ~ contains_substring "_" (m_Title (Movie.lm_movie row)).
Proof.
  exists (Movie.ListedMovie (Sample.movie 1 "Arrival") 2 (Some (800 # 100))).
  split.
  - vm_compute. left. reflexivity.
  - intros H.
    apply (@contains_substring_chars _ _ "_"%char) in H; [|left; reflexivity].
    simpl in H.
    repeat (destruct H as [H|H]; [discriminate|]). destruct H.
Qed.

(** Genre 2 and the search string "riv" select "Arrival" alone. *)
Lemma C7_movies_filtered_by_genre_and_like_witness :
  Movie.get_movies_filtered (Some 2) (Some "riv"%string)
                            (Sample.world_of Sample.preferences_db None)
  = (Ok (Movie.movies_filtered_rows Sample.preferences_db (Some 2)
                                    (Some "riv"%string)),
     served (Sample.world_of Sample.preferences_db None)
            [Execute SELECT "Movie"])
  /\ map (fun row => m_Title (Movie.lm_movie row))
         (Movie.movies_filtered_rows Sample.preferences_db (Some 2)
                                     (Some "riv"%string))
     = ["Arrival"%string].
Proof.
  split; [|vm_compute; reflexivity].
  apply (proj2 (proj2 (C7_movies_filtered_by_genre_and_like
                         (Sample.world_of Sample.preferences_db None)
                         (Some 2) (Some "riv"%string)))).
  reflexivity.
Defined.

(* ================================================================== *)
(** * The leading sort key and the size of the recommendation lists *)
(* ================================================================== *)

Lemma lex_opp c1 c2 :
  CompOpp (Sql.lex c1 c2) = Sql.lex (CompOpp c1) (CompOpp c2).
Proof. destruct c1; reflexivity. Qed.

Lemma cmpQ_desc_opp a b : CompOpp (Sql.cmpQ_desc a b) = Sql.cmpQ_desc b a.
Proof. unfold Sql.cmpQ_desc. apply Qcompare_antisym. Qed.

Lemma cmpZ_desc_opp a b : CompOpp (Sql.cmpZ_desc a b) = Sql.cmpZ_desc b a.
Proof. unfold Sql.cmpZ_desc. symmetry. apply Z.compare_antisym. Qed.

Lemma cmp_null_desc_opp a b :
  CompOpp (Sql.cmp_null_desc a b) = Sql.cmp_null_desc b a.
Proof.
  destruct a, b; simpl; try reflexivity. apply cmpQ_desc_opp.
Qed.

(** A comparison and its converse cannot both say "later". *)
Lemma no_later_total c :
  Sql.no_later c = false -> Sql.no_later (CompOpp c) = true.
Proof. destruct c; simpl; congruence. Qed.

Lemma pref_order_opp g1 g2 :
  CompOpp (Recommendation.pref_order g1 g2) = Recommendation.pref_order g2 g1.
Proof.
  unfold Recommendation.pref_order.
  rewrite !lex_opp, cmpQ_desc_opp, cmp_null_desc_opp, cmpZ_desc_opp.
  reflexivity.
Qed.

Lemma friend_order_opp a b :
  CompOpp (Recommendation.friend_order a b) = Recommendation.friend_order b a.
Proof.
  unfold Recommendation.friend_order.
  rewrite lex_opp, cmpZ_desc_opp, cmp_null_desc_opp. reflexivity.
Qed.

Lemma StronglySorted_firstn A (R : A -> A -> Prop) n l :
  StronglySorted R l -> StronglySorted R (firstn n l).
Proof.
  revert l. induction n as [|n IH]; intros l Hs; simpl; [constructor|].
  destruct l as [|x l]; [constructor|].
  inversion Hs as [|? ? Hl Hx]; subst. constructor; [apply IH; assumption|].
  apply Forall_forall. intros y Hy. apply firstn_incl in Hy.
  revert y Hy. apply Forall_forall. assumption.
Qed.

Lemma StronglySorted_map A B (f : A -> B) (R : B -> B -> Prop) l :
  StronglySorted (fun a b => R (f a) (f b)) l -> StronglySorted R (map f l).
Proof.
  induction 1 as [|x l Hl IH Hx]; simpl; constructor; [assumption|].
  apply Forall_forall. intros y Hy. apply in_map_iff in Hy.
  destruct Hy as [a [<- Ha]]. revert a Ha. apply Forall_forall. assumption.
Qed.

(** ORDER BY on a total comparison whose "no later" implies a transitive
    relation [R] puts every row before all rows it is [R]-related to. *)
Lemma order_by_StronglySorted A (leb : A -> A -> bool) (R : A -> A -> Prop) l :
  (forall a b, leb a b = false -> leb b a = true) ->
  (forall a b, leb a b = true -> R a b) ->
  (forall a b c, R a b -> R b c -> R a c) ->
  StronglySorted R (Sql.order_by leb l).
Proof.
  intros Htotal Himp Htrans.
  apply Sorted_StronglySorted; [exact Htrans|].
  assert (Sorted (fun a b => leb a b = true) (Sql.order_by leb l)) as Hs
      by (apply order_by_Sorted; assumption).
  induction Hs as [|x l' Hl IH Hx]; constructor; [assumption|].
  destruct Hx; constructor. auto.
Qed.

Lemma LIMIT_length A (n : Z) (l rows : list A) :
  Sql.LIMIT n l = Some rows -> Z.of_nat (List.length rows) <= n.
Proof.
  unfold Sql.LIMIT. destruct (Z.ltb_spec n 0); [discriminate|].
  intros [= <-]. pose proof (firstn_le_length (Z.to_nat n) l). lia.
Qed.

(** X1.  Whatever the database and the connection, the preference-based
    list holds at most [limit] rows, and no row follows a row with a
    smaller preference score: a candidate with score 5 is ranked before
    every candidate with score 3, whatever their ratings. *)
Theorem movie_recommendations_by_preference (w : world) (user limit : Z) :
  let rows := rows_of (Recommendation.get_movie_recommendations user limit w) in
  StronglySorted
    (fun a b => (Recommendation.rec_max_preference_score b
                 <= Recommendation.rec_max_preference_score a)%Q)
    rows
  /\ Z.of_nat (List.length rows) <= Z.max 0 limit.
Proof.
  cbv zeta. unfold rows_of, Recommendation.get_movie_recommendations.
  rewrite try_except_reraise.
  destruct (execute_query _ w) as [[rows|e] w'] eqn:E; simpl fst; cbv iota;
    [|split; [constructor|simpl; lia]].
  apply execute_query_Ok_inv in E. destruct E as [d' E]. simpl in E.
  destruct (Sql.LIMIT limit _) as [l|] eqn:Hl; [|discriminate].
  injection E as _ <-. split.
  - unfold Sql.LIMIT in Hl. destruct (limit <? 0); [discriminate|].
    injection Hl as <-.
    apply StronglySorted_firstn, StronglySorted_map. simpl.
    apply order_by_StronglySorted.
    + intros a b H. apply no_later_total in H.
      rewrite pref_order_opp in H. assumption.
    + intros a b. unfold Recommendation.pref_order, Sql.cmpQ_desc.
      intros H. apply Qle_alt. intros Hgt. rewrite Hgt in H. discriminate.
    + intros a b c Hab Hbc. eapply Qle_trans; eassumption.
  - apply LIMIT_length in Hl. lia.
Qed.

(** X2.  Whatever the database and the connection, the friend-activity
    list holds at most [limit] rows, and no row follows a row with fewer
    friend likes. *)
Theorem friend_recommendations_by_likes (w : world) (user limit : Z) :
  let rows := rows_of (Recommendation.get_friend_recommendations
                         user limit w) in
  StronglySorted
    (fun a b => Recommendation.fr_friend_likes b
                <= Recommendation.fr_friend_likes a)
    rows
  /\ Z.of_nat (List.length rows) <= Z.max 0 limit.
Proof.
  cbv zeta. unfold rows_of, Recommendation.get_friend_recommendations.
  rewrite try_except_reraise.
  destruct (execute_query _ w) as [[rows|e] w'] eqn:E; simpl fst; cbv iota;
    [|split; [constructor|simpl; lia]].
  apply execute_query_Ok_inv in E. destruct E as [d' E]. simpl in E.
  destruct (Sql.LIMIT limit _) as [l|] eqn:Hl; [|discriminate].
  injection E as _ <-. split.
  - unfold Sql.LIMIT in Hl. destruct (limit <? 0); [discriminate|].
    injection Hl as <-.
    apply StronglySorted_firstn.
    apply order_by_StronglySorted.
    + intros a b H. apply no_later_total in H.
      rewrite friend_order_opp in H. assumption.
    + intros a b. unfold Recommendation.friend_order, Sql.cmpZ_desc.
      intros H. apply Z.compare_le_iff. intros Hgt. rewrite Hgt in H.
      discriminate.
    + intros a b c Hab Hbc. lia.
  - apply LIMIT_length in Hl. lia.
Qed.

(* ================================================================== *)
(** * What puts a movie on the friend-activity list *)
(* ================================================================== *)

Section GroupByNonEmpty.
Variables (R K : Type) (key : R -> K) (keqb : K -> K -> bool).

Lemma group_insert_nonempty r gs :
  (forall g, In g gs -> snd g <> []) ->
  forall g, In g (Sql.group_insert key keqb r gs) -> snd g <> [].
Proof.
  induction gs as [|[k rs] gs IH]; simpl; intros Hgs g.
  - intros [<-|[]]. discriminate.
  - destruct (keqb (key r) k).
    + intros [<-|Hin]; simpl.
      * destruct rs; discriminate.
      * apply Hgs. auto.
    + intros [<-|Hin].
      * apply (Hgs (k, rs)). auto.
      * apply IH; auto.
Qed.

(** No group is empty. *)
Lemma group_by_nonempty rows g :
  In g (Sql.group_by key keqb rows) -> snd g <> [].
Proof.
  unfold Sql.group_by.
  assert (forall acc, (forall g, In g acc -> snd g <> []) ->
            forall g, In g (fold_left
                              (fun gs r => Sql.group_insert key keqb r gs)
                              rows acc) -> snd g <> []) as H.
  { induction rows as [|r rows IH]; simpl; intros acc Hacc; [assumption|].
    apply IH. apply group_insert_nonempty. assumption. }
  apply H. intros g' [].
Qed.

End GroupByNonEmpty.

(** What a row that survives FROM, JOIN and WHERE of the friend query
    satisfies. *)
Lemma friend_rows_inv d user x :
  In x (Recommendation.friend_rows d user) ->
  In (Recommendation.fw_r x) (tbl_Reviews d)
  /\ In (Recommendation.fw_f x) (tbl_Friends d)
  /\ r_Movie_ID (Recommendation.fw_r x)
     = Some (m_Movie_ID (Recommendation.fw_m x))
  /\ (7 <= r_Score (Recommendation.fw_r x))%Q
  /\ friends_row_for user (r_User_ID (Recommendation.fw_r x))
                     (Recommendation.fw_f x)
  /\ Recommendation.the_friend user (Recommendation.fw_f x)
     = Some (r_User_ID (Recommendation.fw_r x)).
Proof.
  unfold Recommendation.friend_rows. intros Hin. apply filter_In in Hin.
  destruct Hin as [Hin Hw]. apply andb_true_iff in Hw. destruct Hw as [_ Hs].
  destruct x as [[m r] f]. apply join_inv in Hin.
  destruct Hin as [Hmr [Hf Hon]]. apply join_inv in Hmr.
  destruct Hmr as [Hm [Hr Heq]]. simpl in *.
  unfold Recommendation.fw_r, Recommendation.fw_f, Recommendation.fw_m.
  simpl. repeat split; try assumption.
  - unfold Sql.eq_null in Heq. destruct (r_Movie_ID r) as [id|]; [|discriminate].
    apply Z.eqb_eq in Heq. congruence.
  - apply Qle_bool_iff. assumption.
  - unfold Recommendation.friend_of_reviewer in Hon.
    unfold friends_row_for.
    rewrite orb_true_iff, !andb_true_iff, !Z.eqb_eq in Hon. tauto.
  - unfold Recommendation.friend_of_reviewer in Hon.
    unfold Recommendation.the_friend.
    rewrite orb_true_iff, !andb_true_iff, !Z.eqb_eq in Hon.
    destruct (Z.eqb_spec (f_User_ID1 f) user) as [E1|E1].
    + destruct Hon as [[_ H]|[H1 H2]]; congruence.
    + destruct Hon as [[H _]|[H1 H2]]; [contradiction|].
      rewrite H1, Z.eqb_refl. congruence.
Qed.

(** X3.  Whatever the database and the connection, every movie on the
    friend-activity list has a stored review scoring at least 7 whose
    author is joined to the user by a Friends row (stored either way
    round), and its [friend_likes] is at least 1. *)
Theorem friend_recommendations_are_liked_by_a_friend (w : world)
  (user limit : Z) :
  Forall
    (fun row =>
       1 <= Recommendation.fr_friend_likes row
       /\ exists r f,
            In r (tbl_Reviews (w_db w))
            /\ In f (tbl_Friends (w_db w))
            /\ r_Movie_ID r = Some (m_Movie_ID (Recommendation.fr_movie row))
            /\ (7 <= r_Score r)%Q
            /\ friends_row_for user (r_User_ID r) f)
    (rows_of (Recommendation.get_friend_recommendations user limit w)).
Proof.
  apply Forall_forall.
  intros row. unfold rows_of, Recommendation.get_friend_recommendations.
  rewrite try_except_reraise.
  destruct (execute_query _ w) as [[rows|e] w'] eqn:E; simpl; [|intros []].
  apply execute_query_Ok_inv in E. destruct E as [d' E]. simpl in E.
  destruct (Sql.LIMIT limit _) as [l|] eqn:Hl; [|discriminate].
  injection E as _ <-. intros Hin.
  apply (LIMIT_In _ _ _ Hl) in Hin. apply order_by_In in Hin.
  apply in_map_iff in Hin. destruct Hin as [g [<- Hg]].
  pose proof (group_by_nonempty _ _ _ _ Hg) as Hne.
  apply group_by_inv in Hg. destruct Hg as [x [Hx [Hk Hall]]].
  split.
  - simpl. unfold Recommendation.friend_likes, Sql.COUNT_DISTINCT.
    destruct (snd g) as [|y ys] eqn:Es; [congruence|].
    assert (In y (Recommendation.friend_rows (w_db w) user)) as Hy
        by (apply Hall; left; reflexivity).
    apply friend_rows_inv in Hy.
    destruct Hy as [_ [_ [_ [_ [_ Hfriend]]]]].
    simpl map. rewrite Hfriend. simpl Sql.non_null.
    simpl Sql.distinctZ. simpl List.length. lia.
  - apply friend_rows_inv in Hx.
    destruct Hx as [Hr [Hf [Hm [Hs [Hfr _]]]]].
    exists (Recommendation.fw_r x), (Recommendation.fw_f x).
    simpl. rewrite Hk. auto.
Qed.

(* ================================================================== *)
(** * The popularity ranking *)
(* ================================================================== *)

Lemma select_popular_key content_type g :
  (Analytics.p_Movie_ID (Analytics.select_popular content_type g),
   Analytics.p_Title (Analytics.select_popular content_type g),
   Analytics.p_Description (Analytics.select_popular content_type g),
   Analytics.p_Year (Analytics.select_popular content_type g),
   Analytics.p_Age_Rating (Analytics.select_popular content_type g))
  = fst g
  /\ Analytics.p_content_type (Analytics.select_popular content_type g)
     = content_type.
Proof.
  unfold Analytics.select_popular.
  destruct (fst g) as [[[[i t] de] y] a]. simpl. auto.
Qed.

Lemma popular_movie_part_stored d p :
  In p (Analytics.popular_movie_part d) -> stored_item d p.
Proof.
  unfold Analytics.popular_movie_part. intros Hin.
  apply in_map_iff in Hin. destruct Hin as [g [<- Hg]].
  apply group_by_inv in Hg. destruct Hg as [x [Hx [Hk _]]].
  apply in_map_iff in Hx. destruct Hx as [[m r] [<- Hmr]].
  apply left_join_In_left in Hmr. simpl in Hk.
  destruct (select_popular_key "movie" g) as [Hkey Htype].
  left. split; [assumption|]. exists m. split; [assumption|]. congruence.
Qed.

Lemma popular_show_part_stored d p :
  In p (Analytics.popular_show_part d) -> stored_item d p.
Proof.
  unfold Analytics.popular_show_part. intros Hin.
  apply in_map_iff in Hin. destruct Hin as [g [<- Hg]].
  apply group_by_inv in Hg. destruct Hg as [x [Hx [Hk _]]].
  apply in_map_iff in Hx. destruct Hx as [[s r] [<- Hsr]].
  apply left_join_In_left in Hsr. simpl in Hk.
  destruct (select_popular_key "show" g) as [Hkey Htype].
  right. split; [assumption|]. exists s. split; [assumption|]. congruence.
Qed.

(** X4.  Whatever the database and the connection, [get_popular_movies]
    returns at most 20 items, in non-increasing order of popularity
    score, and each of them is a stored movie labelled 'movie' or a
    stored show labelled 'show' (the show's id in the Movie_ID column). *)
Theorem popular_movies_top_twenty (w : world) :
  let rows := rows_of (Analytics.get_popular_movies w) in
  (List.length rows <= 20)%nat
  /\ StronglySorted
       (fun a b => (Analytics.p_popularity_score b
                    <= Analytics.p_popularity_score a)%Q)
       rows
  /\ Forall (stored_item (w_db w)) rows.
Proof.
  cbv zeta. unfold rows_of, Analytics.get_popular_movies.
  rewrite try_except_reraise.
  destruct (execute_query _ w) as [[rows|e] w'] eqn:E; simpl fst; cbv iota;
    [|repeat split; [simpl; lia|constructor|constructor]].
  apply execute_query_Ok_inv in E. destruct E as [d' E]. simpl in E.
  injection E as _ <-. unfold Analytics.popular_rows. repeat split.
  - apply firstn_le_length.
  - apply StronglySorted_firstn. apply order_by_StronglySorted.
    + intros a b H. apply no_later_total in H.
      rewrite cmpQ_desc_opp in H. assumption.
    + intros a b. unfold Sql.cmpQ_desc. intros H. apply Qle_alt.
      intros Hgt. rewrite Hgt in H. discriminate.
    + intros a b c Hab Hbc. eapply Qle_trans; eassumption.
  - apply Forall_forall. intros p Hp. apply firstn_incl in Hp.
    apply order_by_In in Hp. apply in_app_or in Hp.
    destruct Hp; [apply popular_movie_part_stored
                 |apply popular_show_part_stored]; assumption.
Qed.

(* ================================================================== *)
(** * Removing a friendship *)
(* ================================================================== *)

(** A statement other than a SELECT, served: the tables change, the
    change is committed and the row count is returned. *)
Lemma execute_write_healthy A (q : statement A) w d' a :
  healthy w ->
  is_select (st_verb q) = false ->
  st_run q (w_db w) = inr (d', a) ->
  execute_query q w = (Ok a, committed w d' (st_verb q) (st_table q)).
Proof.
  intros Hh Hv Hrun.
  unfold healthy in Hh.
  unfold execute_query, get_cursor, bind, try_except, next_fault, emit,
    get_db, put_db, ret, committed.
  destruct w as [d s fs t sec]; simpl in *.
  destruct fs as [|f fs]; simpl in *.
  - rewrite Hrun, Hv. simpl. rewrite <- app_assoc. reflexivity.
  - subst f. simpl. rewrite Hrun, Hv. simpl. rewrite <- app_assoc.
    reflexivity.
Qed.

Lemma are_friends_healthy w a b :
  healthy w ->
  fst (Friendship.are_friends a b w)
  = Ok (existsb (Friendship.either_orientation a b) (tbl_Friends (w_db w))).
Proof.
  intros Hh. unfold Friendship.are_friends, bind.
  rewrite execute_select_healthy by assumption.
  unfold Friendship.are_friends_rows, ret. simpl. f_equal.
  apply eq_true_iff_eq. rewrite count_star_positive, existsb_exists.
  reflexivity.
Qed.

Lemma remove_friendship_healthy w a b :
  healthy w ->
  Friendship.remove_friendship a b w
  = (Ok (existsb (Friendship.either_orientation a b) (tbl_Friends (w_db w))),
     committed w
       (set_Friends
          (filter (fun f => negb (Friendship.either_orientation a b f))
                  (tbl_Friends (w_db w))) (w_db w))
       DELETE "Friends").
Proof.
  intros Hh. unfold Friendship.remove_friendship.
  rewrite try_except_reraise. unfold bind.
  erewrite execute_write_healthy; [| assumption | reflexivity | reflexivity].
  unfold ret. simpl. do 2 f_equal.
  apply eq_true_iff_eq. rewrite count_star_positive, existsb_exists.
  reflexivity.
Qed.

Lemma either_orientation_other a b u1 u2 f :
  ~ same_pair a b u1 u2 ->
  Friendship.either_orientation a b f = true ->
  Friendship.either_orientation u1 u2 f = false.
Proof.
  intros Hne Hab. apply not_true_is_false. intros Hu.
  apply either_orientation_spec in Hab, Hu. apply Hne.
  unfold friends_row_for, same_pair in *. lia.
Qed.

Lemma existsb_filter_out A (p : A -> bool) l :
  existsb p (filter (fun x => negb (p x)) l) = false.
Proof.
  apply not_true_is_false. intros H. apply existsb_exists in H.
  destruct H as [x [Hin Hp]]. apply filter_In in Hin.
  destruct Hin as [_ Hn]. rewrite Hp in Hn. discriminate.
Qed.

Lemma existsb_filter_other A (p q : A -> bool) l :
  (forall x, q x = true -> p x = false) ->
  existsb q (filter (fun x => negb (p x)) l) = existsb q l.
Proof.
  intros H. apply eq_true_iff_eq. rewrite !existsb_exists.
  split; intros [x [Hin Hq]]; exists x; split; auto.
  - apply filter_In in Hin. tauto.
  - apply filter_In. split; auto. rewrite (H x Hq). reflexivity.
Qed.

(** X5.  When the connection serves the DELETE and the query after it,
    [remove_friendship(u1, u2)] returns what [are_friends(u1, u2)]
    answered before it; afterwards [are_friends] is False for the pair
    in both argument orders and answers as before for every other pair;
    the session is untouched. *)
Theorem remove_friendship_unfriends (w : world) (user1 user2 : Z) :
  healthy w ->
  healthy (snd (Friendship.remove_friendship user1 user2 w)) ->
  let w' := snd (Friendship.remove_friendship user1 user2 w) in
  fst (Friendship.remove_friendship user1 user2 w)
  = fst (Friendship.are_friends user1 user2 w)
  /\ fst (Friendship.are_friends user1 user2 w') = Ok false
  /\ fst (Friendship.are_friends user2 user1 w') = Ok false
  /\ (forall a b, ~ same_pair a b user1 user2 ->
        fst (Friendship.are_friends a b w')
        = fst (Friendship.are_friends a b w))
  /\ w_session w' = w_session w.
Proof.
  intros Hh Hh'. cbv zeta.
  rewrite remove_friendship_healthy in * by assumption.
  cbn [fst snd] in *.
  rewrite !are_friends_healthy by assumption. cbn [committed w_db].
  repeat split.
  - f_equal. cbn [set_Friends tbl_Friends]. apply existsb_filter_out.
  - f_equal. cbn [set_Friends tbl_Friends].
    rewrite <- (existsb_filter_out (Friendship.either_orientation user1 user2)
                                   (tbl_Friends (w_db w))).
    apply eq_true_iff_eq. rewrite !existsb_exists.
    split; intros [f [Hin Hf]]; exists f; split; auto;
      rewrite either_orientation_sym; assumption.
  - intros a b Hne. rewrite !are_friends_healthy by assumption.
    f_equal. cbn [w_db committed set_Friends tbl_Friends].
    apply existsb_filter_other. intros f.
    apply either_orientation_other. assumption.
Qed.

Lemma remove_friendship_unfriends_witness :
  let w := Sample.world_of Sample.friends_db (Some 1) in
  let w' := snd (Friendship.remove_friendship 1 2 w) in
  fst (Friendship.remove_friendship 1 2 w)
  = fst (Friendship.are_friends 1 2 w)
  /\ fst (Friendship.are_friends 1 2 w') = Ok false
  /\ fst (Friendship.are_friends 2 1 w') = Ok false
  /\ (forall a b, ~ same_pair a b 1 2 ->
        fst (Friendship.are_friends a b w')
        = fst (Friendship.are_friends a b w))
  /\ w_session w' = w_session w.
Proof.
  apply (@remove_friendship_unfriends
           (Sample.world_of Sample.friends_db (Some 1)) 1 2);
    reflexivity.
Defined.

(* ================================================================== *)
(** * The author deletes a review *)
(* ================================================================== *)

Lemma serves_S n w :
  serves (S n) w ->
  healthy w /\ (forall w', w_faults w' = tl (w_faults w) -> serves n w').
Proof.
  unfold serves, healthy. destruct (w_faults w) as [|f fs]; simpl.
  - intros _. split; [reflexivity|]. intros w' ->.
    destruct n; reflexivity.
  - intros H. apply andb_true_iff in H. destruct H as [Hf Hfs].
    split; [destruct f; (reflexivity || discriminate)|].
    intros w' ->. assumption.
Qed.

Lemma serves_healthy n w : serves (S n) w -> healthy w.
Proof. intros H. apply (serves_S H). Qed.

Lemma serves_served n w evs : serves (S n) w -> serves n (served w evs).
Proof. intros H. apply (serves_S H). reflexivity. Qed.

Lemma serves_committed n w d' v table :
  serves (S n) w -> serves n (committed w d' v table).
Proof. intros H. apply (serves_S H). reflexivity. Qed.

Lemma review_of_first d review_id uid :
  review_of d review_id uid ->
  exists rv,
    first_or_None (Review.review_by_id_rows d review_id) = Some rv
    /\ (r_User_ID (Review.rv_review rv) =? uid) = true.
Proof.
  intros [[r [Hin Hid]] Hown].
  destruct (Review.review_by_id_rows d review_id) as [|rv rows] eqn:E.
  - exfalso. eapply review_by_id_rows_complete; eassumption.
  - exists rv. split; [reflexivity|].
    apply Z.eqb_eq.
    destruct (@review_by_id_rows_sound d review_id rv) as [Hin' Hid'].
    { rewrite E. left. reflexivity. }
    apply Hown; assumption.
Qed.

Lemma review_by_id_rows_none d review_id :
  (forall r, In r (tbl_Reviews d) -> r_Review_ID r <> review_id) ->
  Review.review_by_id_rows d review_id = [].
Proof.
  intros Hnone.
  destruct (Review.review_by_id_rows d review_id) as [|rv rows] eqn:E;
    [reflexivity|].
  destruct (@review_by_id_rows_sound d review_id rv) as [Hin Hid].
  { rewrite E. left. reflexivity. }
  exfalso. exact (Hnone _ Hin Hid).
Qed.

Lemma delete_review_healthy w review_id :
  healthy w ->
  Review.delete_review review_id w
  = (Ok true,
     committed w
       (set_Reviews (filter (fun r => negb (r_Review_ID r =? review_id))
                            (tbl_Reviews (w_db w))) (w_db w))
       DELETE "Reviews").
Proof.
  intros Hh. unfold Review.delete_review.
  rewrite try_except_reraise. unfold bind.
  erewrite execute_write_healthy; [| assumption | reflexivity | reflexivity].
  reflexivity.
Qed.

Lemma delete_review_by_author w review_id uid :
  serves 2 w ->
  user_id (w_session w) = Some uid ->
  review_of (w_db w) review_id uid ->
  app.delete_review review_id w
  = (Ok (Redirect url_profile),
     World (set_Reviews (filter (fun r => negb (r_Review_ID r =? review_id))
                                (tbl_Reviews (w_db w))) (w_db w))
           (w_session w) (tl (tl (w_faults w)))
           (w_trace w ++ [Execute SELECT "Reviews"; Execute DELETE "Reviews";
                          Commit;
                          Flash "Review deleted successfully!" "success"])
           (w_security w)).
Proof.
  intros Hs2 Hs Hown.
  destruct (review_of_first Hown) as [rv [Hrv Hauthor]].
  pose proof (serves_healthy Hs2) as Hh.
  pose proof (serves_healthy
                (serves_served [Execute SELECT "Reviews"] Hs2)) as Hh'.
  unfold app.delete_review.
  rewrite (login_required_logged_in _ _ Hs).
  apply try_except_Ok.
  erewrite bind_Ok by (apply get_review_by_id_healthy; assumption).
  rewrite Hrv.
  erewrite bind_Ok
    by (apply session_user_id_logged_in with (uid := uid); exact Hs).
  rewrite Hauthor; cbn [negb].
  erewrite bind_Ok by (apply delete_review_healthy; assumption).
  unfold bind, flash, emit, ret, committed, served. simpl.
  rewrite <- !app_assoc. reflexivity.
Qed.

(** X6.  The session user is the author of the stored review and the
    connection serves the calls: [delete_review] redirects to the
    profile with the flash 'Review deleted successfully!', having run
    the SELECT and one committed DELETE; the Reviews table then holds
    exactly the reviews with another id, [get_review_by_id] of the id
    finds nothing, and the session is as it was. *)
Theorem author_deletes_own_review (w : world) (review_id uid : Z) :
  serves 3 w ->
  user_id (w_session w) = Some uid ->
  review_of (w_db w) review_id uid ->
  let w' := snd (app.delete_review review_id w) in
  fst (app.delete_review review_id w) = Ok (Redirect url_profile)
  /\ new_events w w'
     = [Execute SELECT "Reviews"; Execute DELETE "Reviews"; Commit;
        Flash "Review deleted successfully!" "success"]
  /\ (forall r, In r (tbl_Reviews (w_db w'))
                <-> In r (tbl_Reviews (w_db w)) /\ r_Review_ID r <> review_id)
  /\ fst (Review.get_review_by_id review_id w') = Ok None
  /\ w_session w' = w_session w.
Proof.
  intros Hs3 Hs Hown. cbv zeta.
  assert (serves 2 w) as Hs2.
  { unfold serves in *. destruct (w_faults w) as [|f1 [|f2 [|f3 fs]]];
      simpl in *; auto.
    apply andb_true_iff in Hs3. destruct Hs3 as [-> Hs3].
    apply andb_true_iff in Hs3. destruct Hs3 as [-> _]. reflexivity. }
  assert (forall r,
             In r (filter (fun r => negb (r_Review_ID r =? review_id))
                          (tbl_Reviews (w_db w)))
             <-> In r (tbl_Reviews (w_db w)) /\ r_Review_ID r <> review_id)
    as Hfilter.
  { intros r. rewrite filter_In, negb_true_iff, Z.eqb_neq. reflexivity. }
  rewrite (delete_review_by_author Hs2 Hs Hown). cbn [fst snd].
  split; [reflexivity|]. split; [|split; [|split; [|reflexivity]]].
  - apply new_events_app. reflexivity.
  - exact Hfilter.
  - rewrite get_review_by_id_healthy.
    + cbn [fst w_db]. rewrite review_by_id_rows_none; [reflexivity|].
      intros r Hin. apply Hfilter in Hin. tauto.
    + unfold serves, healthy in *. simpl.
      destruct (w_faults w) as [|f1 [|f2 [|f3 fs]]]; simpl in *; auto.
      destruct f1, f2, f3; simpl in Hs3; (reflexivity || discriminate).
Qed.

(** User 2 deletes review 1, which they wrote. *)
Lemma author_deletes_own_review_witness :
  let w := Sample.world_of Sample.preferences_db (Some 2) in
  let w' := snd (app.delete_review 1 w) in
  fst (app.delete_review 1 w) = Ok (Redirect url_profile)
  /\ new_events w w'
     = [Execute SELECT "Reviews"; Execute DELETE "Reviews"; Commit;
        Flash "Review deleted successfully!" "success"]
  /\ (forall r, In r (tbl_Reviews (w_db w'))
                <-> In r (tbl_Reviews (w_db w)) /\ r_Review_ID r <> 1)
  /\ fst (Review.get_review_by_id 1 w') = Ok None
  /\ w_session w' = w_session w.
Proof.
  apply (@author_deletes_own_review
           (Sample.world_of Sample.preferences_db (Some 2)) 1 2);
    [reflexivity | reflexivity |].
  split.
  - exists (Sample.review 1 2 1 8). split; [left|]; reflexivity.
  - intros r Hin Hid. simpl in Hin.
    repeat (destruct Hin as [<-|Hin]; [simpl in Hid |- *; lia|]).
    destruct Hin.
Defined.

(* ================================================================== *)
(** * The author edits a review *)
(* ================================================================== *)

(** A score that passed the range test and is not [nan] is a number the
    server accepts. *)
Lemma in_range_is_decimal sc :
  app.out_of_range sc = false ->
  PrimFloat.eqb sc sc = true ->
  exists q, float_to_decimal sc = Some q.
Proof.
  unfold app.out_of_range, float_to_decimal.
  rewrite !FloatAxioms.ltb_spec, FloatAxioms.eqb_spec.
  destruct (Prim2SF sc) as [s|s| |s m e]; intros Hrange Hnan.
  - eexists; reflexivity.
  - destruct s; vm_compute in Hrange; discriminate.
  - vm_compute in Hnan. discriminate.
  - eexists; reflexivity.
Qed.

Lemma update_review_healthy w review_id sc q title content :
  healthy w ->
  float_to_decimal sc = Some q ->
  Review.update_review review_id sc title content w
  = (Ok true,
     committed w
       (set_Reviews
          (map (fun r => if r_Review_ID r =? review_id
                         then ReviewRow (r_Review_ID r) (r_User_ID r)
                                        (r_Movie_ID r) (r_Show_ID r)
                                        q title content
                         else r)
               (tbl_Reviews (w_db w))) (w_db w))
       UPDATE "Reviews").
Proof.
  intros Hh Hq. unfold Review.update_review.
  rewrite try_except_reraise. unfold bind.
  erewrite execute_write_healthy; [| assumption | reflexivity |].
  - reflexivity.
  - simpl. rewrite Hq. reflexivity.
Qed.

Lemma edited_rows review_id q title content rows :
  Forall2 (edited_row review_id title content) rows
    (map (fun r => if r_Review_ID r =? review_id
                   then ReviewRow (r_Review_ID r) (r_User_ID r)
                                  (r_Movie_ID r) (r_Show_ID r)
                                  q title content
                   else r)
         rows).
Proof.
  induction rows as [|r rows IH]; simpl; constructor; [|assumption].
  unfold edited_row. destruct (r_Review_ID r =? review_id); simpl; auto 10.
Qed.

Lemma edit_review_by_author w review_id uid req sc q t :
  serves 2 w ->
  user_id (w_session w) = Some uid ->
  review_of (w_db w) review_id uid ->
  method req = POST ->
  app.score (form req) = Some sc ->
  app.title (form req) = Some t ->
  app.missing_required (Some sc) (Some t) = false ->
  app.out_of_range sc = false ->
  float_to_decimal sc = Some q ->
  app.edit_review review_id req w
  = (Ok (Redirect url_profile),
     World (set_Reviews
              (map (fun r => if r_Review_ID r =? review_id
                             then ReviewRow (r_Review_ID r) (r_User_ID r)
                                            (r_Movie_ID r) (r_Show_ID r)
                                            q t (app.content (form req))
                             else r)
                   (tbl_Reviews (w_db w))) (w_db w))
           (w_session w) (tl (tl (w_faults w)))
           (w_trace w ++ [Execute SELECT "Reviews"; Execute UPDATE "Reviews";
                          Commit;
                          Flash "Review updated successfully!" "success"])
           (w_security w)).
Proof.
  intros Hs2 Hs Hown Hmethod Hscore Htitle Hmissing Hrange Hq.
  destruct (review_of_first Hown) as [rv [Hrv Hauthor]].
  pose proof (serves_healthy Hs2) as Hh.
  pose proof (serves_healthy
                (serves_served [Execute SELECT "Reviews"] Hs2)) as Hh'.
  unfold app.edit_review.
  rewrite (login_required_logged_in _ _ Hs).
  apply try_except_Ok.
  erewrite bind_Ok by (apply get_review_by_id_healthy; assumption).
  rewrite Hrv.
  erewrite bind_Ok
    by (apply session_user_id_logged_in with (uid := uid); exact Hs).
  rewrite Hauthor; cbn [negb].
  rewrite Hmethod. cbv zeta. rewrite Hscore, Htitle, Hmissing, Hrange.
  apply try_except_Ok.
  erewrite bind_Ok by (apply update_review_healthy; eassumption).
  unfold bind, flash, emit, ret, committed, served. simpl.
  rewrite <- !app_assoc. reflexivity.
Qed.

(** A whole score from 1 to 10 is stored as that number. *)
Lemma whole_score_decimal k :
  (1 <= k <= 10)%nat ->
  float_to_decimal (whole_score k) = Some (inject_Z (Z.of_nat k)).
Proof.
  intros Hk.
  do 11 (destruct k as [|k]; [first [lia | vm_compute; reflexivity]|]).
  lia.
Qed.

(** X7.  The session user is the author of the stored review, the form
    holds a title and a score that pass the handler's two tests, the
    score is not [nan], and the connection serves the calls:
    [edit_review] on POST redirects to the profile with the flash 'Review
    updated successfully!', having run the SELECT and one committed
    UPDATE.  Row by row, a review with the id keeps its id, author and
    target and takes the submitted title and content; every other review
    is as it was.  When the submitted score is a whole number from 1 to
    10, the review's stored score is that number.  The session is
    untouched. *)
Theorem author_edits_own_review (w : world) (review_id uid : Z)
  (req : request app.review_form) (sc : float) (t : string) :
  serves 2 w ->
  user_id (w_session w) = Some uid ->
  review_of (w_db w) review_id uid ->
  method req = POST ->
  app.score (form req) = Some sc ->
  app.title (form req) = Some t ->
  app.missing_required (Some sc) (Some t) = false ->
  app.out_of_range sc = false ->
  PrimFloat.eqb sc sc = true ->
  let w' := snd (app.edit_review review_id req w) in
  fst (app.edit_review review_id req w) = Ok (Redirect url_profile)
  /\ new_events w w'
     = [Execute SELECT "Reviews"; Execute UPDATE "Reviews"; Commit;
        Flash "Review updated successfully!" "success"]
  /\ Forall2 (edited_row review_id t (app.content (form req)))
             (tbl_Reviews (w_db w)) (tbl_Reviews (w_db w'))
  /\ (forall k, (1 <= k <= 10)%nat -> sc = whole_score k ->
        Forall (fun r => r_Review_ID r = review_id ->
                         r_Score r = inject_Z (Z.of_nat k))
               (tbl_Reviews (w_db w')))
  /\ w_session w' = w_session w.
Proof.
  intros Hs2 Hs Hown Hmethod Hscore Htitle Hmissing Hrange Hnan. cbv zeta.
  destruct (in_range_is_decimal Hrange Hnan) as [q Hq].
  rewrite (@edit_review_by_author w review_id uid req sc q t
             Hs2 Hs Hown Hmethod Hscore Htitle Hmissing Hrange Hq).
  cbn [fst snd w_db w_session set_Reviews tbl_Reviews].
  split; [reflexivity|]. split; [|split; [|split; [|reflexivity]]].
  - apply new_events_app. reflexivity.
  - apply edited_rows.
  - intros k Hk ->. rewrite (whole_score_decimal Hk) in Hq.
    injection Hq as <-.
    apply Forall_forall. intros r Hin Hid.
    apply in_map_iff in Hin. destruct Hin as [r0 [<- _]].
    destruct (r_Review_ID r0 =? review_id) eqn:E.
    + reflexivity.
    + apply Z.eqb_neq in E. contradiction.
Qed.

(** User 2 changes the score of review 1, which they wrote, from 8 to
    5. *)
Lemma author_edits_own_review_witness :
  let w := Sample.world_of Sample.preferences_db (Some 2) in
  let req := review_request (Some 5%float) in
  let w' := snd (app.edit_review 1 req w) in
  fst (app.edit_review 1 req w) = Ok (Redirect url_profile)
  /\ new_events w w'
     = [Execute SELECT "Reviews"; Execute UPDATE "Reviews"; Commit;
        Flash "Review updated successfully!" "success"]
  /\ Forall2 (edited_row 1 "Great film" None)
             (tbl_Reviews (w_db w)) (tbl_Reviews (w_db w'))
  /\ Forall (fun r => r_Review_ID r = 1 -> r_Score r = 5%Q)
            (tbl_Reviews (w_db w'))
  /\ w_session w' = w_session w.
Proof.
  destruct (@author_edits_own_review
              (Sample.world_of Sample.preferences_db (Some 2)) 1 2
              (review_request (Some 5%float)) 5%float "Great film"%string)
    as [Hresponse [Hevents [Hrows [Hscore Hsession]]]];
    try reflexivity.
  - split.
    + exists (Sample.review 1 2 1 8). split; [left|]; reflexivity.
    + intros r Hin Hid. simpl in Hin.
      repeat (destruct Hin as [<-|Hin]; [simpl in Hid |- *; lia|]).
      destruct Hin.
  - repeat split; try assumption.
    apply (Hscore 5%nat); [lia|reflexivity].
Defined.

(* ================================================================== *)
(** * Logging in *)
(* ================================================================== *)

(** Whatever the connection does, a SELECT touches neither the tables
    nor the session nor the password hashing, and rows that come back
    are the statement's rows. *)
Lemma execute_select_frame A table (rows : database -> list A) w :
  w_db (snd (execute_query (select table rows) w)) = w_db w
  /\ w_session (snd (execute_query (select table rows) w)) = w_session w
  /\ w_security (snd (execute_query (select table rows) w)) = w_security w
  /\ (forall a, fst (execute_query (select table rows) w) = Ok a ->
                a = rows (w_db w)).
Proof.
  unfold execute_query, get_cursor, bind, try_except, next_fault, emit,
    get_db, raise, ret, select.
  destruct w as [d s fs t sec]; simpl.
  destruct fs as [|f fs]; simpl.
  - repeat split. intros a [= <-]. reflexivity.
  - destruct f; simpl; repeat split; try discriminate.
    intros a [= <-]. reflexivity.
Qed.

Lemma get_user_by_email_frame email w :
  w_db (snd (User.get_user_by_email email w)) = w_db w
  /\ w_session (snd (User.get_user_by_email email w)) = w_session w
  /\ w_security (snd (User.get_user_by_email email w)) = w_security w
  /\ (forall u, fst (User.get_user_by_email email w) = Ok (Some u) ->
                In u (tbl_User (w_db w))
                /\ Sql.co_eqb (db_collation (w_db w)) (u_Email u) email
                   = true).
Proof.
  unfold User.get_user_by_email, bind.
  match goal with
  | |- context [execute_query (select ?t ?r) w] =>
      destruct (execute_select_frame t r w) as [Hd [Hs [Hsec Hrows]]];
      destruct (execute_query (select t r) w) as [[rows|e] w']
  end; simpl in *; (split; [auto|split; [auto|split; [auto|]]]);
    [|discriminate].
  intros u [= Hu]. rewrite (Hrows rows eq_refl) in Hu.
  destruct (filter _ (tbl_User (w_db w))) as [|u' us] eqn:E;
    [discriminate|].
  injection Hu as ->.
  apply (proj1 (filter_In
                  (fun u => Sql.co_eqb (db_collation (w_db w)) (u_Email u)
                                       email)
                  u (tbl_User (w_db w)))).
  rewrite E. left. reflexivity.
Qed.

(** X9.  Whatever the request, the tables and the connection, [login]
    never raises and never changes a table.  Either it renders the login
    page and leaves the session as it was, or it redirects home, and
    then the request was a POST whose email belongs to a stored user
    whose stored hash accepts the submitted password, and the session
    holds that user's id, name and role. *)
Theorem login_opens_session_only_for_accepted_user (w : world)
  (req : request app.login_form) :
  let r := app.login req w in
  w_db (snd r) = w_db w
  /\ ((fst r = Ok (Render "login.html" [])
       /\ w_session (snd r) = w_session w)
      \/ (fst r = Ok (Redirect url_home)
          /\ exists email password u,
               method req = POST
               /\ app.lf_email (form req) = Some email
               /\ app.lf_password (form req) = Some password
               /\ accepted w email password u
               /\ w_session (snd r)
                  = Session (Some (u_User_ID u)) (Some (u_Name u))
                            (Some (u_Role u)))).
Proof.
  cbv zeta. destruct (app.login req w) as [res w'] eqn:E.
  cbn [fst snd]. unfold app.login in E.
  destruct (method req) eqn:Hm.
  { unfold bind, ret in E. simpl in E. injection E as <- <-. auto. }
  destruct (app.lf_email (form req)) as [email|] eqn:He;
    [|unfold bind, flash, emit, ret in E; simpl in E; injection E as <- <-;
      auto].
  destruct (app.lf_password (form req)) as [password|] eqn:Hp;
    [|unfold bind, flash, emit, ret in E; simpl in E; injection E as <- <-;
      auto].
  destruct (negb (truthy_str (Some email))
            || negb (truthy_str (Some password)));
    [unfold bind, flash, emit, ret in E; simpl in E; injection E as <- <-;
     auto|].
  unfold bind at 1 in E. unfold try_except in E. unfold bind at 1 in E.
  destruct (get_user_by_email_frame email w) as [Hd [Hs [Hsec Hu]]].
  destruct (User.get_user_by_email email w) as [[[u|]|e] w1];
    cbn [fst snd] in *.
  - destruct (Hu u eq_refl) as [Hin Hmail].
    unfold User.verify_password, bind, get_security, ret in E.
    destruct (check_password_hash (w_security w1) (u_PasswordHash u)
                                  password) eqn:Hc.
    + unfold put_session, flash, emit in E. simpl in E.
      injection E as <- <-. simpl. split; [assumption|].
      right. split; [reflexivity|].
      exists email, password, u. repeat split; auto.
      rewrite <- Hsec. assumption.
    + unfold flash, emit in E. simpl in E. injection E as <- <-. auto.
  - unfold bind, flash, emit, ret in E. simpl in E.
    injection E as <- <-. auto.
  - unfold bind, flash, emit, ret in E. simpl in E.
    injection E as <- <-. auto.
Qed.

Lemma get_user_by_email_healthy email w :
  healthy w ->
  User.get_user_by_email email w
  = (Ok (first_or_None
           (filter (fun u => Sql.co_eqb (db_collation (w_db w)) (u_Email u)
                                        email)
                   (tbl_User (w_db w)))),
     served w [Execute SELECT "User"]).
Proof.
  intros Hh. unfold User.get_user_by_email, bind.
  rewrite execute_select_healthy by assumption. reflexivity.
Qed.

(** X10.  A failed login does not tell why it failed.  On a served POST
    with both fields filled in, when no stored user with the email has a
    hash that accepts the password, the answer is the same whether the
    email is unknown or the password is wrong: the login page, the one
    flash 'Invalid email or password.', one SELECT on User and nothing
    else; tables and session are as they were. *)
Theorem failed_login_does_not_tell_why (w : world) (email password : string) :
  healthy w ->
  truthy_str (Some email) = true ->
  truthy_str (Some password) = true ->
  (forall u, ~ accepted w email password u) ->
  app.login (login_request email password) w
  = (Ok (Render "login.html" []),
     served w [Execute SELECT "User";
               Flash "Invalid email or password." "error"]).
Proof.
  intros Hh He Hp Hnone. unfold app.login, login_request.
  cbn [method form app.lf_email app.lf_password].
  rewrite He, Hp. cbn [negb orb].
  match goal with
  | |- bind ?c ?k w = _ =>
      cut (c w = (Ok None,
                  served w [Execute SELECT "User";
                            Flash "Invalid email or password." "error"]));
        [intros E; unfold bind at 1; rewrite E; reflexivity|]
  end.
  apply try_except_Ok.
  erewrite bind_Ok by (apply get_user_by_email_healthy; assumption).
  destruct (filter _ (tbl_User (w_db w))) as [|u us] eqn:E;
    cbn [first_or_None hd_error].
  - erewrite bind_Ok by apply served_flash. reflexivity.
  - assert (In u (tbl_User (w_db w))
            /\ Sql.co_eqb (db_collation (w_db w)) (u_Email u) email = true)
      as [Hin Hmail].
    { apply (proj1 (filter_In
                      (fun u => Sql.co_eqb (db_collation (w_db w))
                                           (u_Email u) email)
                      u (tbl_User (w_db w)))).
      rewrite E. left. reflexivity. }
    unfold User.verify_password.
    erewrite bind_Ok; [|unfold bind, get_security, ret; reflexivity].
    cbn [served w_security].
    destruct (check_password_hash (w_security w) (u_PasswordHash u) password)
      eqn:Hc.
    + exfalso. apply (Hnone u). repeat split; assumption.
    + erewrite bind_Ok by apply served_flash. reflexivity.
Qed.

(** An unknown email, and Alice's email with a wrong password. *)
Lemma failed_login_does_not_tell_why_witness :
  app.login (login_request "nobody@example.com" "secret")
            (Sample.world_of Sample.preferences_db None)
  = (Ok (Render "login.html" []),
     served (Sample.world_of Sample.preferences_db None)
            [Execute SELECT "User";
             Flash "Invalid email or password." "error"])
  /\ app.login (login_request "alice@example.com" "secret")
               (Sample.world_of Sample.preferences_db None)
     = (Ok (Render "login.html" []),
        served (Sample.world_of Sample.preferences_db None)
               [Execute SELECT "User";
                Flash "Invalid email or password." "error"]).
Proof.
  split;
    apply (@failed_login_does_not_tell_why
             (Sample.world_of Sample.preferences_db None));
    try reflexivity;
    intros u [Hin [Hmail Hhash]]; simpl in Hin;
    repeat (destruct Hin as [<-|Hin]; [vm_compute in *; discriminate|]);
    destruct Hin.
Defined.

(* ================================================================== *)
(** * Access control *)
(* ================================================================== *)

(** Whatever the connection does, a SELECT adds no writing event. *)
Lemma execute_select_trace A table (rows : database -> list A) w :
  exists evs,
    w_trace (snd (execute_query (select table rows) w)) = w_trace w ++ evs
    /\ Forall (fun e => is_write e = false) evs.
Proof.
  unfold execute_query, get_cursor, bind, try_except, next_fault, emit,
    get_db, raise, ret, select.
  destruct w as [d s fs t sec]; simpl.
  destruct fs as [|f fs]; simpl.
  - exists [Execute SELECT table]. split; [reflexivity|].
    repeat constructor.
  - destruct f; simpl.
    + exists [Execute SELECT table]. split; [reflexivity|].
      repeat constructor.
    + exists [Execute SELECT table; Rollback].
      rewrite <- app_assoc. split; [reflexivity|]. repeat constructor.
    + exists []. rewrite app_nil_r. split; [reflexivity|]. constructor.
Qed.

Lemma get_user_by_id_frame uid w :
  w_db (snd (User.get_user_by_id uid w)) = w_db w
  /\ w_session (snd (User.get_user_by_id uid w)) = w_session w
  /\ (exists evs,
         w_trace (snd (User.get_user_by_id uid w)) = w_trace w ++ evs
         /\ Forall (fun e => is_write e = false) evs)
  /\ (forall u, fst (User.get_user_by_id uid w) = Ok (Some u) ->
                In u (tbl_User (w_db w)) /\ u_User_ID u = uid).
Proof.
  unfold User.get_user_by_id, bind.
  match goal with
  | |- context [execute_query (select ?t ?r) w] =>
      destruct (execute_select_frame t r w) as [Hd [Hs [Hsec Hrows]]];
      destruct (execute_select_trace t r w) as [evs Hevs];
      destruct (execute_query (select t r) w) as [[rows|e] w']
  end; simpl in *;
    (split; [auto|split; [auto|split; [exists evs; exact Hevs|]]]);
    [|discriminate].
  intros u [= Hu]. rewrite (Hrows rows eq_refl) in Hu.
  destruct (filter _ (tbl_User (w_db w))) as [|u' us] eqn:E;
    [discriminate|].
  injection Hu as ->.
  rewrite <- Z.eqb_eq.
  apply (proj1 (filter_In (fun u => u_User_ID u =? uid) u
                          (tbl_User (w_db w)))).
  rewrite E. left. reflexivity.
Qed.

Lemma wrote_nothing_refl w : wrote_nothing w w.
Proof.
  repeat split. exists []. rewrite app_nil_r. split; [reflexivity|constructor].
Qed.

Lemma wrote_nothing_trans w1 w2 w3 :
  wrote_nothing w1 w2 -> wrote_nothing w2 w3 -> wrote_nothing w1 w3.
Proof.
  intros [Hd1 [Hs1 [evs1 [Ht1 Hw1]]]] [Hd2 [Hs2 [evs2 [Ht2 Hw2]]]].
  split; [congruence|]. split; [congruence|].
  exists (evs1 ++ evs2). rewrite Ht2, Ht1, app_assoc.
  split; [reflexivity|]. apply Forall_app. split; assumption.
Qed.

Lemma wrote_nothing_flash w message category :
  wrote_nothing w (snd (flash message category w)).
Proof.
  unfold flash, emit. simpl. repeat split.
  exists [Flash message category]. split; [reflexivity|].
  repeat constructor.
Qed.

Lemma wrote_nothing_get_user_by_id uid w :
  wrote_nothing w (snd (User.get_user_by_id uid w)).
Proof.
  destruct (get_user_by_id_frame uid w) as [Hd [Hs [Ht _]]].
  repeat split; assumption.
Qed.

Lemma flash_ret A message category (a : A) w :
  (flash message category ;;; ret a) w
  = (Ok a, snd (flash message category w)).
Proof. reflexivity. Qed.

(** X11.  The [admin_required] of app.py fails closed.  Whatever the
    wrapped handler and the state of the connection, the decorated
    handler never raises.  Unless the session's user id is that of a
    stored user whose role is 'admin', the handler is not run at all:
    the answer is a redirect that is the same for every handler, the
    tables and the session are as they were, and nothing was written. *)
Theorem admin_required_fails_closed (f : M response) (w : world) :
  (exists r, fst (app.admin_required f w) = Ok r)
  /\ ((exists u, session_user w u /\ u_Role u = "admin"%string)
      \/ (exists location w',
            (forall g, app.admin_required g w = (Ok (Redirect location), w'))
            /\ wrote_nothing w w')).
Proof.
  assert (get_session w = (Ok (w_session w), w)) as Hsess by reflexivity.
  destruct (user_id (w_session w)) as [uid|] eqn:Hu.
  2:{ assert (forall g, app.admin_required g w
                        = (Ok (Redirect url_login),
                           snd (flash "Please log in to access this page."
                                      "error" w))) as E.
      { intros g. unfold app.admin_required.
        erewrite bind_Ok by exact Hsess. rewrite Hu. reflexivity. }
      split; [rewrite E; eexists; reflexivity|].
      right. do 2 eexists. split; [exact E|apply wrote_nothing_flash]. }
  destruct (uid =? 0) eqn:Hz.
  { assert (forall g, app.admin_required g w
                      = (Ok (Redirect url_login),
                         snd (flash "Please log in to access this page."
                                    "error" w))) as E.
    { intros g. unfold app.admin_required.
      erewrite bind_Ok by exact Hsess. rewrite Hu. cbn [truthy_int].
      rewrite Hz. reflexivity. }
    split; [rewrite E; eexists; reflexivity|].
    right. do 2 eexists. split; [exact E|apply wrote_nothing_flash]. }
  assert (session_user_id w = (Ok uid, w)) as Hsid
      by (apply session_user_id_logged_in; assumption).
  pose proof (wrote_nothing_get_user_by_id uid w) as Hwn.
  destruct (get_user_by_id_frame uid w) as [_ [_ [_ Hrow]]].
  destruct (User.get_user_by_id uid w) as [[[u|]|e] w1] eqn:Eg;
    cbn [fst snd] in *.
  - destruct (String.eqb (u_Role u) "admin") eqn:Hr.
    + split.
      * unfold app.admin_required.
        erewrite bind_Ok by exact Hsess. rewrite Hu. cbn [truthy_int].
        rewrite Hz. cbn [negb]. unfold try_except.
        erewrite bind_Ok by exact Hsid. erewrite bind_Ok by exact Eg.
        cbv beta iota. rewrite Hr. cbn [negb].
        destruct (f w1) as [[r|e] w2]; eexists; reflexivity.
      * left. exists u. destruct (Hrow u eq_refl) as [Hin Hid].
        split; [split; [assumption|congruence]|].
        apply String.eqb_eq. assumption.
    + assert (forall g, app.admin_required g w
                        = (Ok (Redirect url_home),
                           snd (flash
                                  "Access denied. Admin privileges required."
                                  "error" w1))) as E.
      { intros g. unfold app.admin_required.
        erewrite bind_Ok by exact Hsess. rewrite Hu. cbn [truthy_int].
        rewrite Hz. cbn [negb]. apply try_except_Ok.
        erewrite bind_Ok by exact Hsid. erewrite bind_Ok by exact Eg.
        cbv beta iota. rewrite Hr. reflexivity. }
      split; [rewrite E; eexists; reflexivity|].
      right. do 2 eexists. split; [exact E|].
      eapply wrote_nothing_trans; [exact Hwn|apply wrote_nothing_flash].
  - assert (forall g, app.admin_required g w
                      = (Ok (Redirect url_login),
                         snd (flash "User not found." "error" w1))) as E.
    { intros g. unfold app.admin_required.
      erewrite bind_Ok by exact Hsess. rewrite Hu. cbn [truthy_int].
      rewrite Hz. cbn [negb]. apply try_except_Ok.
      erewrite bind_Ok by exact Hsid. erewrite bind_Ok by exact Eg.
      cbv beta iota. reflexivity. }
    split; [rewrite E; eexists; reflexivity|].
    right. do 2 eexists. split; [exact E|].
    eapply wrote_nothing_trans; [exact Hwn|apply wrote_nothing_flash].
  - assert (forall g, app.admin_required g w
                      = (Ok (Redirect url_home),
                         snd (flash ("Error checking admin access: "
                                     ++ exn_message e) "error" w1))) as E.
    { intros g. unfold app.admin_required.
      erewrite bind_Ok by exact Hsess. rewrite Hu. cbn [truthy_int].
      rewrite Hz. cbn [negb].
      erewrite try_except_caught with (e := e) (w' := w1);
        [reflexivity| |reflexivity].
      erewrite bind_Ok by exact Hsid. erewrite bind_Raise by exact Eg.
      reflexivity. }
    split; [rewrite E; eexists; reflexivity|].
    right. do 2 eexists. split; [exact E|].
    eapply wrote_nothing_trans; [exact Hwn|apply wrote_nothing_flash].
Qed.

(** X12.  [can_edit_content] says yes only to an administrator or to
    the verified owner.  Whatever the connection does, when it returns
    True the session's user id is that of a stored user who either has
    the role 'admin', or has the role 'verified_user', is verified for
    an entity of the asked type ('company' or 'celebrity') and for the
    asked id.  The call writes nothing. *)
Theorem can_edit_content_only_for_admin_or_owner (w : world)
  (content_owner_type : string) (content_owner_id : Z) :
  fst (can_edit_content content_owner_type content_owner_id w) = Ok true ->
  wrote_nothing w (snd (can_edit_content content_owner_type
                                         content_owner_id w))
  /\ exists u,
       session_user w u
       /\ (u_Role u = "admin"%string
           \/ (u_Role u = "verified_user"%string
               /\ (content_owner_type = "company"%string
                   \/ content_owner_type = "celebrity"%string)
               /\ u_verified_entity_type u = Some content_owner_type
               /\ u_verified_entity_id u = Some content_owner_id)).
Proof.
  intros Htrue.
  destruct (can_edit_content content_owner_type content_owner_id w)
    as [res w'] eqn:E.
  cbn [fst snd] in *. subst res.
  unfold can_edit_content in E. unfold bind at 1 in E.
  unfold get_session in E. cbv beta iota in E.
  destruct (user_id (w_session w)) as [uid|] eqn:Hu; [|discriminate].
  unfold bind in E.
  pose proof (wrote_nothing_get_user_by_id uid w) as Hwn.
  destruct (get_user_by_id_frame uid w) as [_ [_ [_ Hrow]]].
  destruct (User.get_user_by_id uid w) as [[[u|]|e] w1];
    cbn [fst snd] in *; try discriminate.
  destruct (Hrow u eq_refl) as [Hin Hid].
  assert (session_user w u) as Hsu by (split; [assumption|congruence]).
  destruct (String.eqb (u_Role u) "admin") eqn:Hadmin.
  { injection E as <-. split; [exact Hwn|]. exists u. split; [assumption|].
    left. apply String.eqb_eq. assumption. }
  destruct (String.eqb (u_Role u) "verified_user") eqn:Hver;
    [|discriminate].
  apply String.eqb_eq in Hver.
  assert (forall t,
             String.eqb content_owner_type t
             && eq_str (u_verified_entity_type u) t = true ->
             eq_int (u_verified_entity_id u) content_owner_id = true ->
             content_owner_type = t
             /\ u_verified_entity_type u = Some content_owner_type
             /\ u_verified_entity_id u = Some content_owner_id) as Hmatch.
  { intros t Ht Hi. apply andb_true_iff in Ht. destruct Ht as [Ht1 Ht2].
    apply String.eqb_eq in Ht1. subst t. split; [reflexivity|].
    unfold eq_str, eq_int in *.
    destruct (u_verified_entity_type u) as [v|]; [|discriminate].
    destruct (u_verified_entity_id u) as [i|]; [|discriminate].
    apply String.eqb_eq in Ht2. apply Z.eqb_eq in Hi. subst. auto. }
  destruct (String.eqb content_owner_type "company"
            && eq_str (u_verified_entity_type u) "company") eqn:Hc.
  { unfold ret in E. injection E as Hi <-.
    destruct (Hmatch _ Hc Hi) as [H1 [H2 H3]].
    split; [exact Hwn|]. exists u. split; [assumption|]. right. auto. }
  destruct (String.eqb content_owner_type "celebrity"
            && eq_str (u_verified_entity_type u) "celebrity") eqn:Hce;
    [|discriminate].
  unfold ret in E. injection E as Hi <-.
  destruct (Hmatch _ Hce Hi) as [H1 [H2 H3]].
  split; [exact Hwn|]. exists u. split; [assumption|]. right. auto.
Qed.

(** User 7, verified for company 3, asks about company 3. *)
Lemma can_edit_content_only_for_admin_or_owner_witness :
  let w := Sample.world_of Sample.staff_db (Some 7) in
  wrote_nothing w (snd (can_edit_content "company" 3 w))
  /\ exists u,
       session_user w u
       /\ (u_Role u = "admin"%string
           \/ (u_Role u = "verified_user"%string
               /\ ("company"%string = "company"%string
                   \/ "company"%string = "celebrity"%string)
               /\ u_verified_entity_type u = Some "company"%string
               /\ u_verified_entity_id u = Some 3)).
Proof.
  apply (@can_edit_content_only_for_admin_or_owner
           (Sample.world_of Sample.staff_db (Some 7)) "company"%string 3).
  vm_compute. reflexivity.
Defined.

Ltac gate_denies E Hwn :=
  right; do 2 eexists; split; [exact E|];
  first [ apply wrote_nothing_flash
        | exact Hwn
        | eapply wrote_nothing_trans; [exact Hwn|apply wrote_nothing_flash] ].

(** X13.  The role decorators of models.py let the handler run only for
    the right role.  Unless the session's user id is that of a stored
    user with the role 'admin' (for [admin_required]), or with the role
    'verified_user' or 'admin' (for [verified_user_required]), the
    outcome is the same for every wrapped handler, so the handler is
    not run, and nothing is written.  Unlike the decorator of app.py,
    these two let an exception of the lookup escape. *)
Theorem role_decorators_fail_closed (w : world) :
  ((exists u, session_user w u /\ u_Role u = "admin"%string)
   \/ (exists r w',
         (forall g, admin_required g w = (r, w')) /\ wrote_nothing w w'))
  /\ ((exists u, session_user w u
                 /\ (u_Role u = "verified_user"%string
                     \/ u_Role u = "admin"%string))
      \/ (exists r w',
            (forall g, verified_user_required g w = (r, w'))
            /\ wrote_nothing w w')).
Proof.
  assert (get_session w = (Ok (w_session w), w)) as Hsess by reflexivity.
  destruct (user_id (w_session w)) as [uid|] eqn:Hu.
  2:{ split.
      - assert (forall g, admin_required g w
                          = (Ok (Redirect url_login),
                             snd (flash "Please log in to access this page."
                                        "error" w))) as E.
        { intros g. unfold admin_required.
          erewrite bind_Ok by exact Hsess. rewrite Hu. reflexivity. }
        gate_denies E I.
      - assert (forall g, verified_user_required g w
                          = (Ok (Redirect url_login),
                             snd (flash "Please log in to access this page."
                                        "error" w))) as E.
        { intros g. unfold verified_user_required.
          erewrite bind_Ok by exact Hsess. rewrite Hu. reflexivity. }
        gate_denies E I. }
  pose proof (wrote_nothing_get_user_by_id uid w) as Hwn.
  destruct (get_user_by_id_frame uid w) as [_ [_ [_ Hrow]]].
  destruct (User.get_user_by_id uid w) as [[[u|]|e] w1] eqn:Eg;
    cbn [fst snd] in *.
  - destruct (Hrow u eq_refl) as [Hin Hid].
    assert (session_user w u) as Hsu by (split; [assumption|congruence]).
    split.
    + destruct (String.eqb (u_Role u) "admin") eqn:Hr.
      * left. exists u. split; [assumption|].
        apply String.eqb_eq. assumption.
      * assert (forall g, admin_required g w
                          = (Ok (Redirect url_home),
                             snd (flash "Admin access required." "error"
                                        w1))) as E.
        { intros g. unfold admin_required.
          erewrite bind_Ok by exact Hsess. rewrite Hu.
          erewrite bind_Ok by exact Eg. cbv beta iota. rewrite Hr.
          reflexivity. }
        gate_denies E Hwn.
    + destruct (existsb (String.eqb (u_Role u))
                        ["verified_user"; "admin"]%string) eqn:Hr.
      * left. exists u. split; [assumption|]. simpl in Hr.
        rewrite orb_false_r in Hr. apply orb_true_iff in Hr.
        destruct Hr as [Hr|Hr]; apply String.eqb_eq in Hr; auto.
      * assert (forall g, verified_user_required g w
                          = (Ok (Redirect url_home),
                             snd (flash "Verified user access required."
                                        "error" w1))) as E.
        { intros g. unfold verified_user_required.
          erewrite bind_Ok by exact Hsess. rewrite Hu.
          erewrite bind_Ok by exact Eg. cbv beta iota. rewrite Hr.
          reflexivity. }
        gate_denies E Hwn.
  - split.
    + assert (forall g, admin_required g w
                        = (Ok (Redirect url_home),
                           snd (flash "Admin access required." "error" w1)))
        as E.
      { intros g. unfold admin_required.
        erewrite bind_Ok by exact Hsess. rewrite Hu.
        erewrite bind_Ok by exact Eg. reflexivity. }
      gate_denies E Hwn.
    + assert (forall g, verified_user_required g w
                        = (Ok (Redirect url_home),
                           snd (flash "Verified user access required."
                                      "error" w1))) as E.
      { intros g. unfold verified_user_required.
        erewrite bind_Ok by exact Hsess. rewrite Hu.
        erewrite bind_Ok by exact Eg. reflexivity. }
      gate_denies E Hwn.
  - split.
    + assert (forall g, admin_required g w = (Raise e, w1)) as E.
      { intros g. unfold admin_required.
        erewrite bind_Ok by exact Hsess. rewrite Hu.
        erewrite bind_Raise by exact Eg. reflexivity. }
      gate_denies E Hwn.
    + assert (forall g, verified_user_required g w = (Raise e, w1)) as E.
      { intros g. unfold verified_user_required.
        erewrite bind_Ok by exact Hsess. rewrite Hu.
        erewrite bind_Raise by exact Eg. reflexivity. }
      gate_denies E Hwn.
Qed.

(* ================================================================== *)
(** * The catalogue with no filter *)
(* ================================================================== *)

Section GroupByMap.
Variables (R R' K : Type) (key : R -> K) (key' : R' -> K)
          (keqb : K -> K -> bool) (f : R -> R').
Hypothesis key_f : forall r, key' (f r) = key r.

Let lift (g : K * list R) : K * list R' := (fst g, map f (snd g)).

Lemma group_insert_map r gs :
  Sql.group_insert key' keqb (f r) (map lift gs)
  = map lift (Sql.group_insert key keqb r gs).
Proof.
  induction gs as [|[k rs] gs IH]; simpl.
  - rewrite key_f. reflexivity.
  - rewrite key_f. destruct (keqb (key r) k); simpl.
    + unfold lift at 2. simpl. rewrite map_app. reflexivity.
    + rewrite IH. reflexivity.
Qed.

Lemma group_fold_map rows gs :
  fold_left (fun gs r => Sql.group_insert key' keqb r gs) (map f rows)
            (map lift gs)
  = map lift (fold_left (fun gs r => Sql.group_insert key keqb r gs) rows gs).
Proof.
  revert gs. induction rows as [|r rows IH]; intros gs; simpl.
  - reflexivity.
  - rewrite group_insert_map. apply IH.
Qed.

Lemma group_by_map rows :
  Sql.group_by key' keqb (map f rows)
  = map (fun g => (fst g, map f (snd g))) (Sql.group_by key keqb rows).
Proof.
  unfold Sql.group_by. apply (group_fold_map rows []).
Qed.

End GroupByMap.

Lemma filter_true A (p : A -> bool) l :
  (forall x, p x = true) -> filter p l = l.
Proof.
  intros H. induction l as [|x l IH]; simpl; [reflexivity|].
  rewrite H, IH. reflexivity.
Qed.

Lemma movies_filtered_rows_no_filter d genre_id search_query :
  truthy_int genre_id = false ->
  truthy_str search_query = false ->
  Movie.movies_filtered_rows d genre_id search_query
  = Movie.all_movies_rows d.
Proof.
  intros Hg Hq.
  unfold Movie.movies_filtered_rows, Movie.all_movies_rows,
    Movie.filtered_rows. cbv zeta. rewrite Hg.
  rewrite filter_true
    by (intros x; unfold Movie.filtered_where; rewrite Hg, Hq; reflexivity).
  f_equal.
  rewrite (@group_by_map _ _ _ fst Movie.fr_m
             (fun a b => m_Movie_ID a =? m_Movie_ID b)
             (fun x => (x, None)))
    by reflexivity.
  rewrite map_map. apply map_ext. intros [m rs].
  unfold Movie.select_listed, Movie.select_all. simpl.
  rewrite !map_map. reflexivity.
Qed.

(** X14.  With no effective filter, the filtered catalogue is the whole
    catalogue: when [genre_id] is [None] or 0 and [search_query] is
    [None] or empty, [get_movies_filtered] behaves exactly as
    [get_all_movies], whatever the tables and the connection. *)
Theorem get_movies_filtered_without_filter (w : world) (genre_id : option Z)
  (search_query : option string) :
  truthy_int genre_id = false ->
  truthy_str search_query = false ->
  Movie.get_movies_filtered genre_id search_query w = Movie.get_all_movies w.
Proof.
  intros Hg Hq. unfold Movie.get_movies_filtered, Movie.get_all_movies.
  apply execute_query_ext; try reflexivity.
  intros d. simpl. rewrite movies_filtered_rows_no_filter by assumption.
  reflexivity.
Qed.

(** Genre 0 and the empty search string. *)
Lemma get_movies_filtered_without_filter_witness :
  Movie.get_movies_filtered (Some 0) (Some ""%string)
                            (Sample.world_of Sample.preferences_db None)
  = Movie.get_all_movies (Sample.world_of Sample.preferences_db None).
Proof.
  apply (@get_movies_filtered_without_filter
           (Sample.world_of Sample.preferences_db None) (Some 0)
           (Some ""%string));
    reflexivity.
Defined.

(* ================================================================== *)
(** * The detail page of a movie *)
(* ================================================================== *)

Lemma left_join_filter_left A B (p : A -> bool) (l : list A) (r : list B) on :
  filter (fun x => p (fst x)) (Sql.left_join l r on)
  = Sql.left_join (filter p l) r on.
Proof.
  unfold Sql.left_join. induction l as [|a l IH]; [reflexivity|].
  cbn [flat_map filter]. rewrite filter_app, IH.
  assert (forall rows : list (A * option B),
             (forall x, In x rows -> fst x = a) ->
             filter (fun x => p (fst x)) rows = if p a then rows else [])
    as Hrows.
  { induction rows as [|x rows IHr]; intros Hall; simpl.
    - destruct (p a); reflexivity.
    - rewrite (Hall x (or_introl eq_refl)).
      rewrite IHr by (intros y Hy; apply Hall; right; assumption).
      destruct (p a); reflexivity. }
  rewrite Hrows.
  - destruct (p a); reflexivity.
  - clear IH Hrows. intros x Hx. destruct (filter (on a) r) as [|b bs].
    + destruct Hx as [<-|[]]. reflexivity.
    + apply in_map_iff in Hx. destruct Hx as [b' [<- _]]. reflexivity.
Qed.

(** Rows that all carry the key of the first one form a single group. *)
Lemma group_by_single R K (key : R -> K) (keqb : K -> K -> bool) r rows :
  (forall x, In x rows -> keqb (key x) (key r) = true) ->
  Sql.group_by key keqb (r :: rows) = [(key r, r :: rows)].
Proof.
  intros Hall. unfold Sql.group_by. simpl.
  assert (forall acc,
             fold_left (fun gs x => Sql.group_insert key keqb x gs) rows
                       [(key r, acc)]
             = [(key r, acc ++ rows)]) as H.
  { induction rows as [|x rows IH]; intros acc; simpl.
    - rewrite app_nil_r. reflexivity.
    - rewrite (Hall x (or_introl eq_refl)).
      rewrite IH by (intros y Hy; apply Hall; right; assumption).
      rewrite <- app_assoc. reflexivity. }
  apply (H [r]).
Qed.

Lemma movie_by_id_rows_none d movie_id :
  movies_with_id d movie_id = [] -> Movie.movie_by_id_rows d movie_id = [].
Proof.
  unfold movies_with_id, Movie.movie_by_id_rows, Movie.movie_left_join_reviews.
  intros E. cbv zeta.
  rewrite (left_join_filter_left (fun m => m_Movie_ID m =? movie_id)).
  rewrite E. reflexivity.
Qed.

Lemma movie_by_id_rows_one d movie_id m :
  movies_with_id d movie_id = [m] ->
  Movie.movie_by_id_rows d movie_id
  = [Movie.DetailedMovie
       m
       (Z.of_nat (List.length (reviews_of_movie d movie_id)))
       (option_map Sql.ROUND2
          (Sql.AVG (map (fun r => Some (r_Score r))
                        (reviews_of_movie d movie_id))))
       (Movie.detail_popularity (match reviews_of_movie d movie_id with
                                 | [] => [None]
                                 | rs => map Some rs
                                 end))].
Proof.
  intros E.
  assert (m_Movie_ID m = movie_id) as Hid.
  { apply Z.eqb_eq.
    apply (proj1 (filter_In (fun m => m_Movie_ID m =? movie_id) m
                            (tbl_Movie d))).
    unfold movies_with_id in E. rewrite E. left. reflexivity. }
  unfold Movie.movie_by_id_rows, Movie.movie_left_join_reviews. cbv zeta.
  rewrite (left_join_filter_left (fun m => m_Movie_ID m =? movie_id)).
  unfold movies_with_id in E. rewrite E.
  unfold Sql.left_join. cbn [flat_map]. rewrite app_nil_r, Hid.
  fold (reviews_of_movie d movie_id).
  destruct (reviews_of_movie d movie_id) as [|r rs].
  - reflexivity.
  - cbn [map]. rewrite group_by_single.
    + cbn [map fst snd]. unfold Movie.select_detailed. cbn [fst snd map].
      f_equal. f_equal.
      * rewrite !map_map. cbn [snd option_map].
        change (Sql.COUNT (Some (r_Review_ID r)
                           :: map (fun x => Some (r_Review_ID x)) rs))
          with (Sql.COUNT (map (fun x => Some (r_Review_ID x)) (r :: rs))).
        rewrite <- (map_map Some (option_map r_Review_ID)).
        apply COUNT_of_reviews.
      * rewrite !map_map. reflexivity.
      * rewrite !map_map. reflexivity.
    + intros x Hx. apply in_map_iff in Hx. destruct Hx as [b [<- _]].
      apply Z.eqb_refl.
Qed.

Lemma get_movie_by_id_healthy w movie_id :
  healthy w ->
  Movie.get_movie_by_id movie_id w
  = (Ok (first_or_None (Movie.movie_by_id_rows (w_db w) movie_id)),
     served w [Execute SELECT "Movie"]).
Proof.
  intros Hh. unfold Movie.get_movie_by_id, bind.
  rewrite execute_select_healthy by assumption. reflexivity.
Qed.

(** X15.  On a served query, [get_movie_by_id] returns None when no
    stored movie has the id.  When exactly one has it, the result is
    that movie with [review_count] the number of stored reviews of the
    movie and [avg_rating] the average of their scores rounded to two
    places (NULL when there is none): the statistics of the detail page
    are the movie's own. *)
Theorem movie_detail_counts_its_reviews (w : world) (movie_id : Z) :
  healthy w ->
  (movies_with_id (w_db w) movie_id = [] ->
   fst (Movie.get_movie_by_id movie_id w) = Ok None)
  /\ (forall m,
         movies_with_id (w_db w) movie_id = [m] ->
         exists dm,
           fst (Movie.get_movie_by_id movie_id w) = Ok (Some dm)
           /\ Movie.dm_movie dm = m
           /\ Movie.dm_review_count dm
              = Z.of_nat (List.length (reviews_of_movie (w_db w) movie_id))
           /\ Movie.dm_avg_rating dm
              = option_map Sql.ROUND2
                  (Sql.AVG (map (fun r => Some (r_Score r))
                                (reviews_of_movie (w_db w) movie_id)))).
Proof.
  intros Hh. rewrite get_movie_by_id_healthy by assumption. cbn [fst].
  split.
  - intros E. rewrite movie_by_id_rows_none by assumption. reflexivity.
  - intros m E. rewrite (@movie_by_id_rows_one _ _ _ E).
    eexists. split; [reflexivity|]. repeat split.
Qed.

(** Movie 2 of the sample data has three reviews, each scoring 8. *)
Lemma movie_detail_counts_its_reviews_witness :
  exists dm,
    fst (Movie.get_movie_by_id 2 (Sample.world_of Sample.preferences_db None))
    = Ok (Some dm)
    /\ Movie.dm_movie dm = Sample.movie 2 "Brazil"
    /\ Movie.dm_review_count dm
       = Z.of_nat (List.length (reviews_of_movie Sample.preferences_db 2))
    /\ Movie.dm_avg_rating dm
       = option_map Sql.ROUND2
           (Sql.AVG (map (fun r => Some (r_Score r))
                         (reviews_of_movie Sample.preferences_db 2))).
Proof.
  apply (proj2 (@movie_detail_counts_its_reviews
                  (Sample.world_of Sample.preferences_db None) 2 eq_refl)
               (Sample.movie 2 "Brazil")).
  reflexivity.
Defined.

(* ================================================================== *)
(** * Submissions turned away before the database *)
(* ================================================================== *)

(** X16.  On a POST, [add_review] turns a submission away before the
    database whenever nobody is logged in, both id fields are absent or
    empty, the score or the title is missing (a score of zero counts as
    missing), or the score compares below 0 or above 10, whatever else
    the form holds: the answer is one error flash and a redirect, no
    statement or procedure call is sent, and the tables are as they
    were. *)
Theorem add_review_turns_away_before_the_database (w : world)
  (req : request app.review_form) :
  method req = POST ->
  turned_away w req ->
  exists message location,
    fst (app.add_review req w) = Ok (Redirect location)
    /\ new_events w (snd (app.add_review req w)) = [Flash message "error"]
    /\ w_db (snd (app.add_review req w)) = w_db w.
Proof.
  intros Hm Hf. apply add_review_rejects_tested_faults; [assumption|].
  unfold turned_away in Hf. unfold tested_fault. cbv zeta in *.
  destruct Hf as [Hf|[[Hmovie Hshow]|[Hf|Hf]]]; auto.
  right. right. left. unfold app.parse_id. rewrite Hmovie, Hshow.
  split; reflexivity.
Qed.

(** User 1 submits a score of 11 for movie 1; and a score of 9 with
    both id fields empty. *)
Lemma add_review_turns_away_before_the_database_witness :
  (exists message location,
      fst (app.add_review (review_request (Some 11%float))
                          (Sample.world_of Sample.preferences_db (Some 1)))
      = Ok (Redirect location)
      /\ new_events (Sample.world_of Sample.preferences_db (Some 1))
                    (snd (app.add_review
                            (review_request (Some 11%float))
                            (Sample.world_of Sample.preferences_db (Some 1))))
         = [Flash message "error"]
      /\ w_db (snd (app.add_review
                      (review_request (Some 11%float))
                      (Sample.world_of Sample.preferences_db (Some 1))))
         = w_db (Sample.world_of Sample.preferences_db (Some 1)))
  /\ (exists message location,
         fst (app.add_review no_target
                             (Sample.world_of Sample.preferences_db (Some 1)))
         = Ok (Redirect location)
         /\ new_events (Sample.world_of Sample.preferences_db (Some 1))
                       (snd (app.add_review
                               no_target
                               (Sample.world_of Sample.preferences_db
                                                (Some 1))))
            = [Flash message "error"]
         /\ w_db (snd (app.add_review
                         no_target
                         (Sample.world_of Sample.preferences_db (Some 1))))
            = w_db (Sample.world_of Sample.preferences_db (Some 1))).
Proof.
  split.
  - apply (@add_review_turns_away_before_the_database
             (Sample.world_of Sample.preferences_db (Some 1))
             (review_request (Some 11%float))).
    + reflexivity.
    + unfold turned_away. cbv zeta. right. right. right.
      exists 11%float. split; reflexivity.
  - apply (@add_review_turns_away_before_the_database
             (Sample.world_of Sample.preferences_db (Some 1)) no_target).
    + reflexivity.
    + unfold turned_away. cbv zeta. right. left. split; reflexivity.
Defined.

(* ================================================================== *)
(** * GROUP BY: one group per key, and no row lost *)
(* ================================================================== *)

Section GroupByKeys.
Variables (R K : Type) (key : R -> K) (keqb : K -> K -> bool).

(** The row sits in the group, under its own key or one equal to it. *)
Let placed (x : R) (g : K * list R) : Prop :=
  In x (snd g) /\ (fst g = key x \/ keqb (key x) (fst g) = true).

Lemma group_insert_places r gs :
  exists g, In g (Sql.group_insert key keqb r gs) /\ placed r g.
Proof.
  induction gs as [|[k rs] gs IH]; simpl.
  - exists (key r, [r]). split; [left; reflexivity|].
    split; [left; reflexivity|left; reflexivity].
  - destruct (keqb (key r) k) eqn:E.
    + exists (k, rs ++ [r]). split; [left; reflexivity|].
      split; [apply in_or_app; right; left; reflexivity|right; exact E].
    + destruct IH as [g [Hin Hp]]. exists g. split; [right|]; assumption.
Qed.

Lemma group_insert_keeps r gs g x :
  In g gs -> placed x g ->
  exists g', In g' (Sql.group_insert key keqb r gs) /\ placed x g'.
Proof.
  induction gs as [|[k rs] gs IH]; simpl; [intros []|].
  intros [<-|Hin] Hp.
  - destruct (keqb (key r) k).
    + exists (k, rs ++ [r]). split; [left; reflexivity|].
      destruct Hp as [Hx Hk]. split; [|exact Hk].
      apply in_or_app. left. exact Hx.
    + exists (k, rs). split; [left; reflexivity|exact Hp].
  - destruct (keqb (key r) k).
    + exists g. split; [right|]; assumption.
    + destruct (IH Hin Hp) as [g' [Hin' Hp']].
      exists g'. split; [right|]; assumption.
Qed.

Lemma group_fold_keeps rows : forall acc g x,
  In g acc -> placed x g ->
  exists g', In g' (fold_left (fun gs r => Sql.group_insert key keqb r gs)
                              rows acc)
             /\ placed x g'.
Proof.
  induction rows as [|r rows IH]; simpl; intros acc g x Hin Hp.
  - exists g. split; assumption.
  - destruct (@group_insert_keeps r acc g x Hin Hp) as [g' [Hin' Hp']].
    eapply IH; eassumption.
Qed.

(** No row is lost: each one sits in a group whose key is its own or
    equal to it. *)
Lemma group_by_complete rows x :
  In x rows ->
  exists g, In g (Sql.group_by key keqb rows)
            /\ In x (snd g)
            /\ (fst g = key x \/ keqb (key x) (fst g) = true).
Proof.
  unfold Sql.group_by.
  assert (forall acc, In x rows ->
            exists g, In g (fold_left
                              (fun gs r => Sql.group_insert key keqb r gs)
                              rows acc)
                      /\ placed x g) as H.
  { induction rows as [|r rows IH]; simpl; intros acc; [intros []|].
    intros [->|Hin].
    - destruct (group_insert_places x acc) as [g [Hg Hp]].
      eapply group_fold_keeps; eassumption.
    - apply IH. assumption. }
  intros Hin. destruct (H [] Hin) as [g [Hg [Hx Hk]]].
  exists g. auto.
Qed.

(** The keys of the groups after an insertion: those before, followed
    by the row's key when it equals none of them. *)
Lemma group_insert_keys r gs :
  map fst (Sql.group_insert key keqb r gs) = map fst gs
  \/ (map fst (Sql.group_insert key keqb r gs) = map fst gs ++ [key r]
      /\ Forall (fun k => keqb (key r) k = false) (map fst gs)).
Proof.
  induction gs as [|[k rs] gs IH]; simpl.
  - right. split; [reflexivity|constructor].
  - destruct (keqb (key r) k) eqn:E; simpl.
    + left. reflexivity.
    + destruct IH as [->|[-> Hall]].
      * left. reflexivity.
      * right. split; [reflexivity|]. constructor; assumption.
Qed.

Lemma ForallOrdPairs_snoc A (P : A -> A -> Prop) l x :
  ForallOrdPairs P l -> Forall (fun y => P y x) l ->
  ForallOrdPairs P (l ++ [x]).
Proof.
  induction 1 as [|y l Hy Hl IH]; simpl; intros Hx.
  - repeat constructor.
  - inversion Hx; subst. constructor.
    + apply Forall_app. split; [assumption|]. constructor; [assumption|].
      constructor.
    + apply IH. assumption.
Qed.

(** One group per key: no group's key equals that of an earlier one. *)
Lemma group_by_keys_distinct rows :
  ForallOrdPairs (fun earlier later => keqb later earlier = false)
                 (map fst (Sql.group_by key keqb rows)).
Proof.
  unfold Sql.group_by.
  assert (forall acc,
             ForallOrdPairs (fun earlier later => keqb later earlier = false)
                            (map fst acc) ->
             ForallOrdPairs (fun earlier later => keqb later earlier = false)
                            (map fst (fold_left
                                        (fun gs r =>
                                           Sql.group_insert key keqb r gs)
                                        rows acc))) as H.
  { induction rows as [|r rows IH]; simpl; intros acc Hacc; [assumption|].
    apply IH. destruct (group_insert_keys r acc) as [->|[-> Hall]].
    - assumption.
    - apply ForallOrdPairs_snoc; assumption. }
  apply H. constructor.
Qed.

End GroupByKeys.

Lemma distinct_keys_NoDup A (f : A -> Z) l :
  ForallOrdPairs (fun earlier later => (f later =? f earlier) = false) l ->
  NoDup (map f l).
Proof.
  induction 1 as [|a l Ha Hl IH]; simpl; constructor; [|assumption].
  intros Hin. apply in_map_iff in Hin. destruct Hin as [b [Hb Hin]].
  rewrite Forall_forall in Ha. specialize (Ha b Hin).
  rewrite Hb, Z.eqb_refl in Ha. discriminate.
Qed.

Lemma get_all_movies_healthy w :
  healthy w ->
  Movie.get_all_movies w
  = (Ok (Movie.all_movies_rows (w_db w)), served w [Execute SELECT "Movie"]).
Proof.
  intros Hh. unfold Movie.get_all_movies.
  apply execute_select_healthy. assumption.
Qed.

(** X17.  On a served query the catalogue lists each movie once: no two
    rows of [get_all_movies] carry the same Movie_ID, however many
    reviews the movies have; every row is a stored movie; and the id of
    every stored movie is listed. *)
Theorem catalogue_lists_each_movie_once (w : world) :
  healthy w ->
  let rows := rows_of (Movie.get_all_movies w) in
  NoDup (map (fun lm => m_Movie_ID (Movie.lm_movie lm)) rows)
  /\ Forall (fun lm => In (Movie.lm_movie lm) (tbl_Movie (w_db w))) rows
  /\ Forall (fun m => In (m_Movie_ID m)
                         (map (fun lm => m_Movie_ID (Movie.lm_movie lm)) rows))
            (tbl_Movie (w_db w)).
Proof.
  intros Hh. cbv zeta. unfold rows_of.
  rewrite get_all_movies_healthy by assumption. cbn [fst].
  unfold Movie.all_movies_rows. cbv zeta.
  set (groups := Sql.group_by fst (fun a b => m_Movie_ID a =? m_Movie_ID b)
                              (Movie.movie_left_join_reviews (w_db w))).
  set (leb := fun a b => Sql.co_leb (db_collation (w_db w))
                                    (m_Title (Movie.lm_movie a))
                                    (m_Title (Movie.lm_movie b))).
  split; [|split].
  - eapply Permutation_NoDup.
    + apply Permutation_map. apply order_by_perm.
    + rewrite map_map. cbn [Movie.select_all Movie.lm_movie].
      rewrite <- (map_map fst m_Movie_ID).
      apply distinct_keys_NoDup.
      apply (group_by_keys_distinct
               fst (fun a b => m_Movie_ID a =? m_Movie_ID b)).
  - apply Forall_forall. intros lm Hin.
    apply order_by_In in Hin. apply in_map_iff in Hin.
    destruct Hin as [g [<- Hg]]. apply group_by_inv in Hg.
    destruct Hg as [[m ob] [Hx [Hk _]]]. cbn [Movie.select_all Movie.lm_movie].
    rewrite Hk. eapply left_join_In_left. exact Hx.
  - apply Forall_forall. intros m Hin.
    destruct (@left_join_keeps_left _ _ _ (tbl_Reviews (w_db w))
                (fun m r => Sql.eq_null (m_Movie_ID m) (r_Movie_ID r)) _ Hin)
      as [ob Hx].
    destruct (@group_by_complete _ _ fst
                (fun a b => m_Movie_ID a =? m_Movie_ID b) _ _ Hx)
      as [g [Hg [_ Hk]]].
    apply in_map_iff. exists (Movie.select_all g). split.
    + cbn [Movie.select_all Movie.lm_movie fst] in *.
      destruct Hk as [->|Hk]; [reflexivity|].
      apply Z.eqb_eq in Hk. symmetry. exact Hk.
    + apply order_by_In. apply in_map. exact Hg.
Qed.

(** The two movies of the sample data, with two and three reviews. *)
Lemma catalogue_lists_each_movie_once_witness :
  let w := Sample.world_of Sample.preferences_db None in
  let rows := rows_of (Movie.get_all_movies w) in
  NoDup (map (fun lm => m_Movie_ID (Movie.lm_movie lm)) rows)
  /\ Forall (fun lm => In (Movie.lm_movie lm) (tbl_Movie (w_db w))) rows
  /\ Forall (fun m => In (m_Movie_ID m)
                         (map (fun lm => m_Movie_ID (Movie.lm_movie lm)) rows))
            (tbl_Movie (w_db w)).
Proof.
  apply (@catalogue_lists_each_movie_once
           (Sample.world_of Sample.preferences_db None)).
  reflexivity.
Defined.

(* ================================================================== *)
(** * Logging out *)
(* ================================================================== *)

(** X18.  After [logout], whoever was logged in, the protected routes
    are closed: [login_required] and the [admin_required] of app.py
    answer every request with the flash 'Please log in to access this
    page.' and a redirect to the login page, without running the wrapped
    handler and without a database call.  [logout] itself redirects
    home and touches no table. *)
Theorem logout_closes_protected_routes (w : world) (f : M response) :
  let w' := snd (app.logout w) in
  fst (app.logout w) = Ok (Redirect url_home)
  /\ w_db w' = w_db w
  /\ new_events w w' = [Flash "You have been logged out." "info"]
  /\ login_required f w'
     = (Ok (Redirect url_login),
        snd (flash "Please log in to access this page." "error" w'))
  /\ app.admin_required f w'
     = (Ok (Redirect url_login),
        snd (flash "Please log in to access this page." "error" w')).
Proof.
  cbv zeta. split; [reflexivity|]. split; [reflexivity|].
  split; [apply new_events_app; reflexivity|].
  split; reflexivity.
Qed.

(* ================================================================== *)
(** * Registrations turned away before the database *)
(* ================================================================== *)

(** X19.  Every fault the registration handler tests for on a POST ends
    the request with one error flash and the bare registration page;
    neither the email lookup nor the procedure nor the two dropdown
    queries are run, so the connection, the tables and the session are
    untouched. *)
Theorem register_rejects_tested_faults (w : world)
  (req : request app.register_form) :
  method req = POST ->
  registration_fault (form req) ->
  exists message,
    app.register req w
    = (Ok (Render "register.html" []), snd (flash message "error" w)).
Proof.
  intros Hm Hf. unfold registration_fault in Hf.
  unfold app.register. rewrite Hm. cbv zeta.
  destruct (app.rf_name (form req)) as [name|];
    [|eexists; reflexivity].
  destruct (app.rf_email (form req)) as [email|];
    [|eexists; reflexivity].
  destruct (app.rf_password (form req)) as [password|];
    [|eexists; reflexivity].
  destruct (app.rf_confirm_password (form req)) as [confirm|];
    [|eexists; reflexivity].
  destruct (negb (truthy_str (Some name) && truthy_str (Some email)
                  && truthy_str (Some password)
                  && truthy_str (Some confirm))) eqn:Hall;
    [eexists; reflexivity|].
  apply negb_false_iff in Hall. rewrite !andb_true_iff in Hall.
  destruct Hall as [[[Hn He] Hp] Hc].
  destruct Hf as [Hf|[Hf|[Hf|[Hf|Hf]]]]; try congruence.
  destruct (negb (String.eqb password confirm)) eqn:Hpw;
    [eexists; reflexivity|].
  apply negb_false_iff, String.eqb_eq in Hpw.
  destruct Hf as [Hf|[age [Hage [Hnz Hout]]]]; [congruence|].
  rewrite Hage. cbn [truthy_int].
  replace (age =? 0) with false by (symmetry; apply Z.eqb_neq; assumption).
  replace ((age <? 13) || (age >? 120)) with true.
  - eexists; reflexivity.
  - symmetry. apply orb_true_iff. rewrite Z.ltb_lt, Z.gtb_lt. lia.
Qed.

(** Mismatched passwords. *)
Lemma register_rejects_tested_faults_witness :
  exists message,
    app.register (registration "Eve" "eve@example.com" "secret" "Secret"
                               (Some 30))
                 (Sample.world_of Sample.preferences_db None)
    = (Ok (Render "register.html" []),
       snd (flash message "error"
                  (Sample.world_of Sample.preferences_db None))).
Proof.
  apply (@register_rejects_tested_faults
           (Sample.world_of Sample.preferences_db None)
           (registration "Eve" "eve@example.com" "secret" "Secret"
                         (Some 30))).
  - reflexivity.
  - right. right. right. right. left. simpl. discriminate.
Defined.

(* ================================================================== *)
(** * Computations that only add to the trace *)
(* ================================================================== *)

Lemma grows_same A (c : M A) :
  (forall w, w_trace (snd (c w)) = w_trace w) -> grows c.
Proof. intros H w. exists []. rewrite app_nil_r. apply H. Qed.

Lemma grows_ret A (a : A) : grows (ret a).
Proof. apply grows_same. reflexivity. Qed.

Lemma grows_raise A (e : exn) : grows (@raise A e).
Proof. apply grows_same. reflexivity. Qed.

Lemma grows_emit e : grows (emit e).
Proof. intros w. exists [e]. reflexivity. Qed.

Lemma grows_flash message category : grows (flash message category).
Proof. apply grows_emit. Qed.

Lemma grows_get_db : grows get_db.
Proof. apply grows_same. reflexivity. Qed.

Lemma grows_put_db d : grows (put_db d).
Proof. apply grows_same. reflexivity. Qed.

Lemma grows_get_security : grows get_security.
Proof. apply grows_same. reflexivity. Qed.

Lemma grows_next_fault : grows next_fault.
Proof.
  apply grows_same. intros w. unfold next_fault.
  destruct (w_faults w); reflexivity.
Qed.

Lemma grows_bind A B (c : M A) (k : A -> M B) :
  grows c -> (forall a, grows (k a)) -> grows (bind c k).
Proof.
  intros Hc Hk w. unfold bind. destruct (Hc w) as [evs1 H1].
  destruct (c w) as [[a|e] w1]; simpl in *.
  - destruct (Hk a w1) as [evs2 H2]. exists (evs1 ++ evs2).
    rewrite H2, H1, app_assoc. reflexivity.
  - exists evs1. assumption.
Qed.

Lemma grows_try_except A (body : M A) class handler :
  grows body -> (forall e, grows (handler e)) ->
  grows (try_except body class handler).
Proof.
  intros Hb Hh w. unfold try_except. destruct (Hb w) as [evs1 H1].
  destruct (body w) as [[a|e] w1]; simpl in *; [exists evs1; assumption|].
  destruct (class e); simpl; [|exists evs1; assumption].
  destruct (Hh e w1) as [evs2 H2]. exists (evs1 ++ evs2).
  rewrite H2, H1, app_assoc. reflexivity.
Qed.

Create HintDb trace.
#[local] Hint Resolve grows_ret grows_raise grows_emit grows_flash
  grows_get_db grows_put_db grows_get_security grows_next_fault : trace.

Ltac grows_step :=
  first
    [ apply grows_bind; [|intros ?]
    | apply grows_try_except; [|intros ?]
    | solve [auto with trace]
    | match goal with
      | |- grows (match ?x with _ => _ end) => destruct x
      | |- grows (if ?b then _ else _) => destruct b
      | |- grows (let _ := _ in _) => cbv zeta
      end ].

Ltac grows_all := repeat grows_step.

Lemma grows_get_cursor : grows get_cursor.
Proof. unfold get_cursor. grows_all. Qed.

Lemma grows_execute_query A (q : statement A) : grows (execute_query q).
Proof.
  unfold execute_query. apply grows_bind; [apply grows_get_cursor|].
  intros f. grows_all.
Qed.

Lemma grows_execute_procedure A (p : procedure A) :
  grows (execute_procedure p).
Proof.
  unfold execute_procedure. apply grows_bind; [apply grows_get_cursor|].
  intros f. grows_all.
Qed.

#[local] Hint Resolve grows_get_cursor grows_execute_query
  grows_execute_procedure : trace.

Lemma grows_create_user name email password role age gender vtype vid :
  grows (User.create_user name email password role age gender vtype vid).
Proof. unfold User.create_user. grows_all. Qed.

Lemma grows_get_user_by_email email : grows (User.get_user_by_email email).
Proof. unfold User.get_user_by_email. grows_all. Qed.

Lemma grows_get_all_companies : grows ProductionCompany.get_all_companies.
Proof. unfold ProductionCompany.get_all_companies. grows_all. Qed.

Lemma grows_get_all_celebrities : grows Celebrity.get_all_celebrities.
Proof. unfold Celebrity.get_all_celebrities. grows_all. Qed.

#[local] Hint Resolve grows_create_user grows_get_user_by_email
  grows_get_all_companies grows_get_all_celebrities : trace.

Lemma extends_start A B (c : M A) (k : A -> M B) w a w1 :
  c w = (Ok a, w1) -> grows (k a) ->
  exists evs, w_trace (snd (bind c k w)) = w_trace w1 ++ evs.
Proof.
  intros E Hk. unfold bind. rewrite E. apply Hk.
Qed.

Lemma extends_bind A B (c : M A) (k : A -> M B) w t :
  (exists evs, w_trace (snd (c w)) = t ++ evs) ->
  (forall a, grows (k a)) ->
  exists evs, w_trace (snd (bind c k w)) = t ++ evs.
Proof.
  intros [evs1 H1] Hk. unfold bind.
  destruct (c w) as [[a|e] w1]; simpl in *; [|exists evs1; assumption].
  destruct (Hk a w1) as [evs2 H2]. exists (evs1 ++ evs2).
  rewrite H2, H1, app_assoc. reflexivity.
Qed.

Lemma extends_try_except A (body : M A) class handler w t :
  (exists evs, w_trace (snd (body w)) = t ++ evs) ->
  (forall e, grows (handler e)) ->
  exists evs, w_trace (snd (try_except body class handler w)) = t ++ evs.
Proof.
  intros [evs1 H1] Hh. unfold try_except.
  destruct (body w) as [[a|e] w1]; simpl in *; [exists evs1; assumption|].
  destruct (class e); simpl; [|exists evs1; assumption].
  destruct (Hh e w1) as [evs2 H2]. exists (evs1 ++ evs2).
  rewrite H2, H1, app_assoc. reflexivity.
Qed.

(** X20.  The age test of [register] lets an age of 0 through.  A POST
    with the required fields filled in, matching passwords and age 0 is
    not turned away with 'Age must be between 13 and 120.': on a served
    connection the first thing the handler does is the email lookup on
    User, as for an age within the range. *)
Theorem register_accepts_age_zero (w : world) (name email password : string) :
  healthy w ->
  truthy_str (Some name) = true ->
  truthy_str (Some email) = true ->
  truthy_str (Some password) = true ->
  exists evs,
    new_events w (snd (app.register
                         (registration name email password password (Some 0))
                         w))
    = Execute SELECT "User" :: evs.
Proof.
  intros Hh Hn He Hp.
  assert (exists evs,
             w_trace (snd (app.register
                             (registration name email password password
                                           (Some 0)) w))
             = w_trace (served w [Execute SELECT "User"]) ++ evs) as [evs H].
  { unfold app.register, registration.
    cbn [method form app.rf_name app.rf_email app.rf_password
         app.rf_confirm_password app.rf_age app.rf_role app.rf_gender
         app.rf_verified_entity_type app.rf_verified_entity_id].
    cbv zeta. rewrite Hn, He, Hp, String.eqb_refl. cbn [andb negb truthy_int].
    cbn [Z.eqb negb andb].
    apply extends_bind.
    - unfold app.register_attempt. apply extends_try_except.
      + eapply extends_start.
        * apply get_user_by_email_healthy. assumption.
        * grows_all.
      + intros e. grows_all.
    - intros a. grows_all. }
  exists evs. apply new_events_app. rewrite H. unfold served. simpl.
  rewrite <- app_assoc. reflexivity.
Qed.

Lemma register_accepts_age_zero_witness :
  exists evs,
    new_events (Sample.world_of Sample.preferences_db None)
               (snd (app.register
                       (registration "Eve" "eve@example.com" "secret"
                                     "secret" (Some 0))
                       (Sample.world_of Sample.preferences_db None)))
    = Execute SELECT "User" :: evs.
Proof.
  apply (@register_accepts_age_zero
           (Sample.world_of Sample.preferences_db None)
           "Eve"%string "eve@example.com"%string "secret"%string);
    reflexivity.
Defined.

(* ================================================================== *)
(** * The detail page of a show *)
(* ================================================================== *)

Lemma show_by_id_rows_none d show_id :
  shows_with_id d show_id = [] -> TVShow.show_by_id_rows d show_id = [].
Proof.
  unfold shows_with_id, TVShow.show_by_id_rows, TVShow.show_left_join_reviews.
  intros E. cbv zeta.
  rewrite (left_join_filter_left (fun s => s_Show_ID s =? show_id)).
  rewrite E. reflexivity.
Qed.

Lemma show_by_id_rows_one d show_id s :
  shows_with_id d show_id = [s] ->
  TVShow.show_by_id_rows d show_id
  = [TVShow.DetailedShow
       s
       (Z.of_nat (List.length (reviews_of_show d show_id)))
       (option_map Sql.ROUND2
          (Sql.AVG (map (fun r => Some (r_Score r))
                        (reviews_of_show d show_id))))].
Proof.
  intros E.
  assert (s_Show_ID s = show_id) as Hid.
  { apply Z.eqb_eq.
    apply (proj1 (filter_In (fun s => s_Show_ID s =? show_id) s
                            (tbl_TV_Show d))).
    unfold shows_with_id in E. rewrite E. left. reflexivity. }
  unfold TVShow.show_by_id_rows, TVShow.show_left_join_reviews. cbv zeta.
  rewrite (left_join_filter_left (fun s => s_Show_ID s =? show_id)).
  unfold shows_with_id in E. rewrite E.
  unfold Sql.left_join. cbn [flat_map]. rewrite app_nil_r, Hid.
  fold (reviews_of_show d show_id).
  destruct (reviews_of_show d show_id) as [|r rs].
  - reflexivity.
  - cbn [map]. rewrite group_by_single.
    + cbn [map fst snd]. unfold TVShow.select_detailed. cbn [fst snd map].
      f_equal. f_equal.
      * rewrite !map_map. cbn [snd option_map].
        change (Sql.COUNT (Some (r_Review_ID r)
                           :: map (fun x => Some (r_Review_ID x)) rs))
          with (Sql.COUNT (map (fun x => Some (r_Review_ID x)) (r :: rs))).
        rewrite <- (map_map Some (option_map r_Review_ID)).
        apply COUNT_of_reviews.
      * rewrite !map_map. reflexivity.
    + intros x Hx. apply in_map_iff in Hx. destruct Hx as [b [<- _]].
      apply Z.eqb_refl.
Qed.

Lemma get_show_by_id_healthy w show_id :
  healthy w ->
  TVShow.get_show_by_id show_id w
  = (Ok (first_or_None (TVShow.show_by_id_rows (w_db w) show_id)),
     served w [Execute SELECT "TV_Show"]).
Proof.
  intros Hh. unfold TVShow.get_show_by_id, bind.
  rewrite execute_select_healthy by assumption. reflexivity.
Qed.

(** X21.  On a served query, [get_show_by_id] returns None when no
    stored show has the id.  When exactly one has it, the result is that
    show with [review_count] the number of stored reviews of the show
    and [avg_rating] the average of their scores rounded to two places
    (NULL when there is none). *)
Theorem show_detail_counts_its_reviews (w : world) (show_id : Z) :
  healthy w ->
  (shows_with_id (w_db w) show_id = [] ->
   fst (TVShow.get_show_by_id show_id w) = Ok None)
  /\ (forall s,
         shows_with_id (w_db w) show_id = [s] ->
         exists ds,
           fst (TVShow.get_show_by_id show_id w) = Ok (Some ds)
           /\ TVShow.ds_show ds = s
           /\ TVShow.ds_review_count ds
              = Z.of_nat (List.length (reviews_of_show (w_db w) show_id))
           /\ TVShow.ds_avg_rating ds
              = option_map Sql.ROUND2
                  (Sql.AVG (map (fun r => Some (r_Score r))
                                (reviews_of_show (w_db w) show_id)))).
Proof.
  intros Hh. rewrite get_show_by_id_healthy by assumption. cbn [fst].
  split.
  - intros E. rewrite show_by_id_rows_none by assumption. reflexivity.
  - intros s E. rewrite (@show_by_id_rows_one _ _ _ E).
    eexists. split; [reflexivity|]. repeat split.
Qed.

(** No show of the sample data has the id 9; show 1, "Cosmos", has two
    reviews, scoring 8 and 7.5. *)
Lemma show_detail_counts_its_reviews_witness :
  fst (TVShow.get_show_by_id 9 (Sample.world_of Sample.screens_db None))
  = Ok None
  /\ exists ds,
       fst (TVShow.get_show_by_id 1 (Sample.world_of Sample.screens_db None))
       = Ok (Some ds)
       /\ TVShow.ds_show ds = ShowRow 1 "Cosmos" None None None None None
       /\ TVShow.ds_review_count ds = 2
       /\ TVShow.ds_avg_rating ds = Some (Sql.ROUND2 (31 # 4)).
Proof.
  split.
  - apply (proj1 (@show_detail_counts_its_reviews
                    (Sample.world_of Sample.screens_db None) 9 eq_refl)).
    reflexivity.
  - apply (proj2 (@show_detail_counts_its_reviews
                    (Sample.world_of Sample.screens_db None) 1 eq_refl)
                 (ShowRow 1 "Cosmos" None None None None None)).
    reflexivity.
Defined.

(* ================================================================== *)
(** * Looking a review up *)
(* ================================================================== *)

Lemma left_join_In_right A B (l : list A) (r : list B) on a b :
  In (a, Some b) (Sql.left_join l r on) -> In b r /\ on a b = true.
Proof.
  unfold Sql.left_join. rewrite in_flat_map. intros [a' [_ Hx]].
  destruct (filter (on a') r) as [|b0 bs] eqn:E.
  - destruct Hx as [[=]|[]].
  - apply in_map_iff in Hx. destruct Hx as [b' [[= <- <-] Hb]].
    rewrite <- E in Hb. apply filter_In in Hb. exact Hb.
Qed.

(** X22.  On a served query, [get_review_by_id] returns None when no
    stored review has the id.  When one has, it returns a stored review
    with that id, and a [movie_title] or [show_title] it reports is the
    title of a stored movie or show whose id is the review's Movie_ID
    or Show_ID. *)
Theorem get_review_by_id_finds_the_review (w : world) (review_id : Z) :
  healthy w ->
  ((forall r, In r (tbl_Reviews (w_db w)) -> r_Review_ID r <> review_id) ->
   fst (Review.get_review_by_id review_id w) = Ok None)
  /\ ((exists r, In r (tbl_Reviews (w_db w)) /\ r_Review_ID r = review_id) ->
      exists rv,
        fst (Review.get_review_by_id review_id w) = Ok (Some rv)
        /\ In (Review.rv_review rv) (tbl_Reviews (w_db w))
        /\ r_Review_ID (Review.rv_review rv) = review_id
        /\ (forall t, Review.rv_movie_title rv = Some t ->
              exists m, In m (tbl_Movie (w_db w))
                        /\ r_Movie_ID (Review.rv_review rv)
                           = Some (m_Movie_ID m)
                        /\ m_Title m = t)
        /\ (forall t, Review.rv_show_title rv = Some t ->
              exists s, In s (tbl_TV_Show (w_db w))
                        /\ r_Show_ID (Review.rv_review rv)
                           = Some (s_Show_ID s)
                        /\ s_Title s = t)).
Proof.
  intros Hh. rewrite get_review_by_id_healthy by assumption. cbn [fst].
  split.
  - intros Hnone. rewrite review_by_id_rows_none by assumption. reflexivity.
  - intros [r [Hin Hid]].
    destruct (Review.review_by_id_rows (w_db w) review_id) as [|rv rows] eqn:E.
    { exfalso. eapply review_by_id_rows_complete; eassumption. }
    assert (In rv (Review.review_by_id_rows (w_db w) review_id)) as Hrv
        by (rewrite E; left; reflexivity).
    exists rv. split; [reflexivity|].
    destruct (review_by_id_rows_sound _ _ _ Hrv) as [Hstored Hrid].
    split; [assumption|]. split; [assumption|].
    unfold Review.review_by_id_rows in Hrv. cbv zeta in Hrv.
    apply in_map_iff in Hrv. destruct Hrv as [[[r0 om] os] [<- Hx]].
    apply filter_In in Hx. destruct Hx as [Hx _].
    cbn [fst snd Review.rv_review Review.rv_movie_title Review.rv_show_title].
    split.
    + intros t Ht. destruct om as [m|]; [|discriminate].
      injection Ht as <-.
      apply left_join_In_left in Hx. apply left_join_In_right in Hx.
      destruct Hx as [Hm Hon]. exists m. split; [assumption|].
      split; [|reflexivity].
      unfold Sql.eq_null in Hon.
      destruct (r_Movie_ID r0) as [i|]; [|discriminate].
      apply Z.eqb_eq in Hon. congruence.
    + intros t Ht. destruct os as [s|]; [|discriminate].
      injection Ht as <-.
      apply left_join_In_right in Hx. cbn [fst] in Hx.
      destruct Hx as [Hs Hon]. exists s. split; [assumption|].
      split; [|reflexivity].
      unfold Sql.eq_null in Hon.
      destruct (r_Show_ID r0) as [i|]; [|discriminate].
      apply Z.eqb_eq in Hon. congruence.
Qed.

(** Review 3 of the sample data is a review of movie 2, "Brazil". *)
Lemma get_review_by_id_finds_the_review_witness :
  exists rv,
    fst (Review.get_review_by_id
           3 (Sample.world_of Sample.preferences_db None))
    = Ok (Some rv)
    /\ In (Review.rv_review rv) (tbl_Reviews Sample.preferences_db)
    /\ r_Review_ID (Review.rv_review rv) = 3
    /\ (forall t, Review.rv_movie_title rv = Some t ->
          exists m, In m (tbl_Movie Sample.preferences_db)
                    /\ r_Movie_ID (Review.rv_review rv) = Some (m_Movie_ID m)
                    /\ m_Title m = t)
    /\ (forall t, Review.rv_show_title rv = Some t ->
          exists s, In s (tbl_TV_Show Sample.preferences_db)
                    /\ r_Show_ID (Review.rv_review rv) = Some (s_Show_ID s)
                    /\ s_Title s = t).
Proof.
  apply (proj2 (@get_review_by_id_finds_the_review
                  (Sample.world_of Sample.preferences_db None) 3 eq_refl)).
  exists (Sample.review 3 2 2 8). split; [|reflexivity].
  simpl. auto.
Defined.

(* ================================================================== *)
(** * A score of nan on an edit *)
(* ================================================================== *)

(** On a connection that serves the call, the statement is sent:
    whatever the server then does with it, [cursor.execute] has run. *)
Lemma execute_query_sends A (q : statement A) w :
  healthy w ->
  exists evs,
    w_trace (snd (execute_query q w))
    = (w_trace w ++ [Execute (st_verb q) (st_table q)]) ++ evs.
Proof.
  intros Hh. unfold healthy in Hh.
  unfold execute_query, get_cursor, bind, try_except, next_fault, emit,
    get_db, put_db, raise, ret.
  destruct w as [d s fs t sec]; simpl in *.
  destruct fs as [|f fs]; simpl in *; [|subst f; simpl];
    (destruct (st_run q d) as [msg|[d' a]]; simpl;
     [|destruct (is_select (st_verb q)); simpl]);
    eexists; rewrite <- ?app_assoc; simpl; try reflexivity;
    rewrite app_nil_r; reflexivity.
Qed.

(** X8.  [edit_review] lets a score of [nan] through: for the author of
    the review, a POST with a non-empty title and the score [nan] passes
    the required-field test ([nan] is true) and the range test (both
    comparisons with [nan] are false), so on a connection that serves
    the calls the UPDATE of the review is sent to the database right
    after the SELECT that fetched it. *)
Theorem edit_review_nan_reaches_the_database (w : world) (review_id uid : Z)
  (req : request app.review_form) (t : string) :
  serves 2 w ->
  user_id (w_session w) = Some uid ->
  review_of (w_db w) review_id uid ->
  method req = POST ->
  app.score (form req) = Some nan ->
  app.title (form req) = Some t ->
  truthy_str (Some t) = true ->
  app.missing_required (Some nan) (Some t) = false
  /\ app.out_of_range nan = false
  /\ exists evs,
       new_events w (snd (app.edit_review review_id req w))
       = Execute SELECT "Reviews" :: Execute UPDATE "Reviews" :: evs.
Proof.
  intros Hs2 Hs Hown Hmethod Hscore Htitle Ht.
  assert (app.missing_required (Some nan) (Some t) = false) as Hmissing
      by (unfold app.missing_required; rewrite Ht; reflexivity).
  assert (app.out_of_range nan = false) as Hrange by reflexivity.
  split; [assumption|]. split; [assumption|].
  destruct (review_of_first Hown) as [rv [Hrv Hauthor]].
  pose proof (serves_healthy Hs2) as Hh.
  pose proof (serves_healthy
                (serves_served [Execute SELECT "Reviews"] Hs2)) as Hh'.
  assert (exists evs,
             w_trace (snd (app.edit_review review_id req w))
             = (w_trace (served w [Execute SELECT "Reviews"])
                ++ [Execute UPDATE "Reviews"]) ++ evs) as [evs H].
  { unfold app.edit_review.
    rewrite (login_required_logged_in _ _ Hs).
    apply extends_try_except; [|intros e; grows_all].
    erewrite bind_Ok by (apply get_review_by_id_healthy; assumption).
    rewrite Hrv.
    erewrite bind_Ok
      by (apply session_user_id_logged_in with (uid := uid); exact Hs).
    rewrite Hauthor; cbn [negb].
    rewrite Hmethod. cbv zeta. rewrite Hscore, Htitle, Hmissing, Hrange.
    apply extends_try_except; [|intros e; grows_all].
    apply extends_bind; [|intros a; grows_all].
    unfold Review.update_review.
    apply extends_try_except; [|intros e; grows_all].
    apply extends_bind; [|intros a; grows_all].
    apply (execute_query_sends
             (Review.update_statement review_id nan t
                                      (app.content (form req)))).
    assumption. }
  exists evs. apply new_events_app. rewrite H. unfold served. simpl.
  rewrite <- !app_assoc. reflexivity.
Qed.

(** User 2 posts the score [nan] for review 1, which they wrote. *)
Lemma edit_review_nan_reaches_the_database_witness :
  app.missing_required (Some nan) (Some "Great film"%string) = false
  /\ app.out_of_range nan = false
  /\ exists evs,
       new_events (Sample.world_of Sample.preferences_db (Some 2))
                  (snd (app.edit_review
                          1 (review_request (Some nan))
                          (Sample.world_of Sample.preferences_db (Some 2))))
       = Execute SELECT "Reviews" :: Execute UPDATE "Reviews" :: evs.
Proof.
  apply (@edit_review_nan_reaches_the_database
           (Sample.world_of Sample.preferences_db (Some 2)) 1 2
           (review_request (Some nan)) "Great film"%string);
    try reflexivity.
  split.
  - exists (Sample.review 1 2 1 8). split; [left|]; reflexivity.
  - intros r Hin Hid. simpl in Hin.
    repeat (destruct Hin as [<-|Hin]; [simpl in Hid |- *; lia|]).
    destruct Hin.
Defined.

(* ================================================================== *)
(** * GROUP BY: the group of one key *)
(* ================================================================== *)

Section GroupOf.
Variables (R K : Type) (key : R -> K) (keqb : K -> K -> bool) (k0 : K).
Hypothesis k0_refl : keqb k0 k0 = true.

Let mine (r : R) : bool := keqb (key r) k0.

(** No other key equals [k0], either way round. *)
Let alone (r : R) : Prop :=
  keqb (key r) k0 = true \/ keqb k0 (key r) = true -> key r = k0.

Lemma group_insert_into pre F post r :
  (forall g, In g pre -> keqb (key r) (fst g) = false) ->
  keqb (key r) k0 = true ->
  Sql.group_insert key keqb r (pre ++ (k0, F) :: post)
  = pre ++ (k0, F ++ [r]) :: post.
Proof.
  intros Hpre Hk. induction pre as [|[k rs] pre IH]; simpl.
  - rewrite Hk. reflexivity.
  - pose proof (Hpre (k, rs) (or_introl eq_refl)) as Hfirst.
    cbn [fst] in Hfirst. rewrite Hfirst.
    rewrite IH by (intros g Hg; apply Hpre; right; assumption).
    reflexivity.
Qed.

Lemma group_insert_past pre F post r :
  keqb (key r) k0 = false ->
  exists pre' post',
    Sql.group_insert key keqb r (pre ++ (k0, F) :: post)
    = pre' ++ (k0, F) :: post'
    /\ map fst pre' = map fst pre.
Proof.
  intros Hk. induction pre as [|[k rs] pre IH]; simpl.
  - rewrite Hk. exists [], (Sql.group_insert key keqb r post).
    split; reflexivity.
  - destruct (keqb (key r) k).
    + exists ((k, rs ++ [r]) :: pre), post. split; reflexivity.
    + destruct IH as [pre' [post' [E Hkeys]]].
      exists ((k, rs) :: pre'), post'. rewrite E. simpl. rewrite Hkeys.
      split; reflexivity.
Qed.

Lemma group_insert_new r gs :
  (forall g, In g gs -> keqb (key r) (fst g) = false) ->
  Sql.group_insert key keqb r gs = gs ++ [(key r, [r])].
Proof.
  intros Hgs. induction gs as [|[k rs] gs IH]; simpl; [reflexivity|].
  pose proof (Hgs (k, rs) (or_introl eq_refl)) as Hfirst.
  cbn [fst] in Hfirst. rewrite Hfirst.
  rewrite IH by (intros g Hg; apply Hgs; right; assumption).
  reflexivity.
Qed.

(** What the groups look like after the rows [done]: every key is the
    key of a row, and the rows of key [k0], if any, form the first group
    under that key. *)
Let shaped (acc : list (K * list R)) (done : list R) : Prop :=
  (forall g, In g acc -> exists r, In r done /\ key r = fst g)
  /\ ((filter mine done = [] /\ forall g, In g acc -> fst g <> k0)
      \/ (exists pre post,
             acc = pre ++ (k0, filter mine done) :: post
             /\ forall g, In g pre -> fst g <> k0)).

Lemma shaped_insert acc done r :
  (forall x, In x (done ++ [r]) -> alone x) ->
  shaped acc done ->
  shaped (Sql.group_insert key keqb r acc) (done ++ [r]).
Proof.
  intros Halone [Hkeys Hshape].
  assert (forall g, In g acc -> fst g <> k0 -> keqb k0 (fst g) = false)
    as Hother.
  { intros g Hg Hne. apply not_true_is_false. intros Hk.
    destruct (Hkeys g Hg) as [x [Hx Hkx]]. apply Hne. rewrite <- Hkx.
    apply (Halone x); [apply in_or_app; left; assumption|].
    right. rewrite Hkx. assumption. }
  split.
  - intros g Hg. apply group_insert_inv in Hg.
    destruct Hg as [[Hk _]|[g' [Hg' [Hk _]]]].
    + exists r. split; [apply in_or_app; right; left; reflexivity|].
      symmetry. assumption.
    + destruct (Hkeys g' Hg') as [x [Hx Hkx]].
      exists x. split; [apply in_or_app; left; assumption|congruence].
  - rewrite filter_app. cbn [filter]. unfold mine at 2 4.
    destruct (keqb (key r) k0) eqn:Hr.
    + assert (key r = k0) as Hk0.
      { apply (Halone r); [apply in_or_app; right; left; reflexivity|].
        left. assumption. }
      right. destruct Hshape as [[Hnone Hacc]|[pre [post [-> Hpre]]]].
      * exists acc, []. rewrite Hnone. cbn [app]. split; [|assumption].
        rewrite group_insert_new; [rewrite Hk0; reflexivity|].
        intros g Hg. rewrite Hk0. apply Hother; auto.
      * exists pre, post. split; [|assumption].
        apply group_insert_into; [|assumption].
        intros g Hg. rewrite Hk0. apply Hother; [|auto].
        apply in_or_app. left. assumption.
    + rewrite app_nil_r.
      destruct Hshape as [[Hnone Hacc]|[pre [post [-> Hpre]]]].
      * left. split; [assumption|]. intros g Hg.
        apply group_insert_inv in Hg.
        destruct Hg as [[Hk _]|[g' [Hg' [Hk _]]]].
        -- rewrite Hk. intros E. rewrite E, k0_refl in Hr. discriminate.
        -- rewrite Hk. apply Hacc. assumption.
      * right. destruct (group_insert_past pre (filter mine done) post Hr)
          as [pre' [post' [E Hsame]]].
        exists pre', post'. split; [exact E|].
        intros g Hg. apply (in_map fst) in Hg. rewrite Hsame in Hg.
        apply in_map_iff in Hg. destruct Hg as [g' [<- Hg']].
        apply Hpre. assumption.
Qed.

Lemma shaped_fold rows : forall acc done,
  (forall x, In x (done ++ rows) -> alone x) ->
  shaped acc done ->
  shaped (fold_left (fun gs r => Sql.group_insert key keqb r gs) rows acc)
         (done ++ rows).
Proof.
  induction rows as [|r rows IH]; intros acc done Halone Hs; simpl.
  - rewrite app_nil_r. assumption.
  - replace (done ++ r :: rows) with ((done ++ [r]) ++ rows)
      by (rewrite <- app_assoc; reflexivity).
    apply IH.
    + intros x Hx. apply Halone. rewrite <- app_assoc in Hx. exact Hx.
    + apply shaped_insert; [|assumption].
      intros x Hx. apply Halone. apply in_app_or in Hx.
      destruct Hx as [Hx|[<-|[]]]; apply in_or_app;
        [left; assumption|right; left; reflexivity].
Qed.

(** When no other key equals [k0], the rows of key [k0] form one group,
    in input order. *)
Lemma group_by_group_of rows :
  (forall x, In x rows ->
             keqb (key x) k0 = true \/ keqb k0 (key x) = true ->
             key x = k0) ->
  filter (fun x => keqb (key x) k0) rows <> [] ->
  In (k0, filter (fun x => keqb (key x) k0) rows)
     (Sql.group_by key keqb rows).
Proof.
  intros Halone Hne. unfold Sql.group_by.
  destruct (@shaped_fold rows [] []) as [_ [[Hnone _]|[pre [post [E _]]]]].
  - exact Halone.
  - split; [intros g []|]. left. split; [reflexivity|intros g []].
  - contradiction.
  - cbn [app] in E. rewrite E. apply in_or_app. right. left. reflexivity.
Qed.

End GroupOf.

(* ================================================================== *)
(** * GROUP BY: no more groups than items *)
(* ================================================================== *)

Section GroupCount.
Variables (R K : Type) (key : R -> K) (keqb : K -> K -> bool).

Let fold (rows : list R) (acc : list (K * list R)) : list (K * list R) :=
  fold_left (fun gs r => Sql.group_insert key keqb r gs) rows acc.

(** Some group has a key the row's key equals. *)
Let has (k : K) (gs : list (K * list R)) : Prop :=
  exists g, In g gs /\ keqb k (fst g) = true.

Lemma group_insert_length_le r gs :
  (List.length (Sql.group_insert key keqb r gs) <= S (List.length gs))%nat.
Proof.
  induction gs as [|[k rs] gs IH]; simpl; [lia|].
  destruct (keqb (key r) k); simpl; lia.
Qed.

Lemma group_insert_length_same r gs :
  has (key r) gs ->
  List.length (Sql.group_insert key keqb r gs) = List.length gs.
Proof.
  intros [g [Hg Hk]]. induction gs as [|[k rs] gs IH]; [destruct Hg|].
  simpl. destruct (keqb (key r) k) eqn:E; simpl; [reflexivity|].
  f_equal. apply IH. destruct Hg as [<-|Hg]; [|assumption].
  simpl in Hk. congruence.
Qed.

Lemma group_insert_has r gs :
  keqb (key r) (key r) = true ->
  has (key r) (Sql.group_insert key keqb r gs).
Proof.
  intros Hrefl. induction gs as [|[k rs] gs IH]; simpl.
  - exists (key r, [r]). split; [left; reflexivity|assumption].
  - destruct (keqb (key r) k) eqn:E.
    + exists (k, rs ++ [r]). split; [left; reflexivity|assumption].
    + destruct IH as [g [Hg Hk]]. exists g. split; [right|]; assumption.
Qed.

Lemma group_insert_still_has k r gs :
  has k gs -> has k (Sql.group_insert key keqb r gs).
Proof.
  intros [g [Hg Hk]].
  assert (In (fst g) (map fst (Sql.group_insert key keqb r gs))) as Hin.
  { destruct (group_insert_keys key keqb r gs) as [->|[-> _]].
    - apply in_map. assumption.
    - apply in_or_app. left. apply in_map. assumption. }
  apply in_map_iff in Hin. destruct Hin as [g' [Hfst Hg']].
  exists g'. split; [assumption|]. rewrite Hfst. assumption.
Qed.

(** Rows of one key, after the first, open no group. *)
Lemma fold_block_same k block : forall acc,
  (forall r, In r block -> key r = k) ->
  has k acc ->
  List.length (fold block acc) = List.length acc /\ has k (fold block acc).
Proof.
  unfold fold.
  induction block as [|r block IH]; intros acc Hkey Hhas; simpl.
  - split; [reflexivity|assumption].
  - assert (key r = k) as Hr by (apply Hkey; left; reflexivity).
    destruct (IH (Sql.group_insert key keqb r acc)) as [Hlen Hhas'].
    + intros x Hx. apply Hkey. right. assumption.
    + apply group_insert_still_has. assumption.
    + split; [|assumption]. rewrite Hlen.
      apply group_insert_length_same. rewrite Hr. assumption.
Qed.

Lemma fold_block_le k block acc :
  (forall r, In r block -> key r = k) ->
  keqb k k = true ->
  (List.length (fold block acc) <= S (List.length acc))%nat.
Proof.
  intros Hkey Hrefl. destruct block as [|r block]; unfold fold; simpl; [lia|].
  assert (key r = k) as Hr by (apply Hkey; left; reflexivity).
  destruct (@fold_block_same k block (Sql.group_insert key keqb r acc))
    as [Hlen _].
  - intros x Hx. apply Hkey. right. assumption.
  - rewrite <- Hr. apply group_insert_has. rewrite Hr. assumption.
  - unfold fold in Hlen. rewrite Hlen. apply group_insert_length_le.
Qed.

(** Rows that come item by item, each item's rows under one key, give at
    most one group for each item. *)
Lemma group_count_le X (items : list X) (rows_of_item : X -> list R)
      (key_of_item : X -> K) :
  (forall x r, In r (rows_of_item x) -> key r = key_of_item x) ->
  (forall x, keqb (key_of_item x) (key_of_item x) = true) ->
  (List.length (Sql.group_by key keqb (flat_map rows_of_item items))
   <= List.length items)%nat.
Proof.
  intros Hkey Hrefl. unfold Sql.group_by.
  assert (forall acc,
             (List.length (fold (flat_map rows_of_item items) acc)
              <= List.length acc + List.length items)%nat) as H.
  { induction items as [|x items IH]; intros acc; simpl; [lia|].
    unfold fold. rewrite fold_left_app. fold (fold (rows_of_item x) acc).
    specialize (IH (fold (rows_of_item x) acc)).
    pose proof (@fold_block_le (key_of_item x) (rows_of_item x) acc
                  (Hkey x) (Hrefl x)).
    unfold fold in *. lia. }
  apply (H []).
Qed.

End GroupCount.

(* ================================================================== *)
(** * The popularity ranking, item by item *)
(* ================================================================== *)

Lemma filter_of_map A B (p : B -> bool) (f : A -> B) l :
  filter p (map f l) = map f (filter (fun x => p (f x)) l).
Proof.
  induction l as [|x l IH]; simpl; [reflexivity|].
  rewrite IH. destruct (p (f x)); reflexivity.
Qed.

Lemma map_of_flat_map A B C (f : B -> C) (g : A -> list B) l :
  map f (flat_map g l) = flat_map (fun x => map f (g x)) l.
Proof.
  induction l as [|x l IH]; simpl; [reflexivity|].
  rewrite map_app, IH. reflexivity.
Qed.

Lemma filter_agree A (p q : A -> bool) l :
  (forall x, In x l -> p x = q x) -> filter p l = filter q l.
Proof.
  induction l as [|x l IH]; simpl; intros H; [reflexivity|].
  rewrite (H x (or_introl eq_refl)).
  rewrite IH by (intros y Hy; apply H; right; assumption).
  reflexivity.
Qed.

Section PopularPart.
Variables (X : Type) (idof : X -> Z) (keyof : X -> Analytics.popular_key)
          (on : X -> review_row -> bool) (co : Sql.collation)
          (items : list X) (reviews : list review_row).
Hypothesis key_id : forall x, fst (fst (fst (fst (keyof x)))) = idof x.
Hypothesis co_refl : forall s, Sql.co_eqb co s s = true.

Let rows : list (Analytics.popular_key * option review_row) :=
  map (fun x => (keyof (fst x), snd x)) (Sql.left_join items reviews on).

Lemma opt_eqb_refl A (eqb : A -> A -> bool) x :
  (forall a, eqb a a = true) -> Sql.opt_eqb eqb x x = true.
Proof. intros H. destruct x; simpl; auto. Qed.

Lemma popular_keqb_refl k : Analytics.popular_keqb co k k = true.
Proof.
  destruct k as [[[[i t] d] y] a]. unfold Analytics.popular_keqb.
  rewrite Z.eqb_refl, co_refl, !opt_eqb_refl; auto using Z.eqb_refl.
Qed.

Lemma popular_keqb_id a b :
  Analytics.popular_keqb co a b = true ->
  fst (fst (fst (fst a))) = fst (fst (fst (fst b))).
Proof.
  destruct a as [[[[i1 t1] d1] y1] a1]. destruct b as [[[[i2 t2] d2] y2] a2].
  unfold Analytics.popular_keqb. rewrite !andb_true_iff.
  intros [[[[Hi _] _] _] _]. apply Z.eqb_eq in Hi. exact Hi.
Qed.

(** The item with a unique id has its own group, holding its joined
    reviews and nothing else. *)
Lemma popular_group_of x0 id0 :
  filter (fun x => idof x =? id0) items = [x0] ->
  In (keyof x0,
      map (fun ob => (keyof x0, ob))
          (joined_reviews (filter (on x0) reviews)))
     (Sql.group_by fst (Analytics.popular_keqb co) rows).
Proof.
  intros Hone.
  assert (forall a, In a items -> idof a = id0 -> a = x0) as Honly.
  { intros a Ha Hid.
    assert (In a (filter (fun x => idof x =? id0) items)) as Hin
        by (apply filter_In; split; [assumption|apply Z.eqb_eq; assumption]).
    rewrite Hone in Hin. destruct Hin as [<-|[]]. reflexivity. }
  assert (In x0 items /\ idof x0 = id0) as [Hx0 Hid0].
  { assert (In x0 (filter (fun x => idof x =? id0) items)) as Hin
        by (rewrite Hone; left; reflexivity).
    apply filter_In in Hin. destruct Hin as [Hin Hid].
    split; [assumption|apply Z.eqb_eq; assumption]. }
  assert (forall a, In a items ->
             Analytics.popular_keqb co (keyof a) (keyof x0) = true
             \/ Analytics.popular_keqb co (keyof x0) (keyof a) = true ->
             a = x0) as Hsame.
  { intros a Ha [Hk|Hk]; apply popular_keqb_id in Hk;
      rewrite !key_id in Hk; apply Honly; congruence. }
  assert (filter (fun r => Analytics.popular_keqb co (fst r) (keyof x0)) rows
          = map (fun ob => (keyof x0, ob))
                (joined_reviews (filter (on x0) reviews))) as Hmine.
  { unfold rows. rewrite filter_of_map. cbn [fst].
    rewrite (left_join_filter_left
               (fun a => Analytics.popular_keqb co (keyof a) (keyof x0))).
    rewrite (@filter_agree _ _ (fun x => idof x =? id0)).
    - rewrite Hone. unfold Sql.left_join. cbn [flat_map].
      rewrite app_nil_r. unfold joined_reviews.
      destruct (filter (on x0) reviews) as [|b bs]; [reflexivity|].
      rewrite !map_map. reflexivity.
    - intros a Ha.
      destruct (Analytics.popular_keqb co (keyof a) (keyof x0)) eqn:Hk.
      + rewrite (Hsame a Ha (or_introl Hk)). symmetry.
        apply Z.eqb_eq. assumption.
      + symmetry. apply Z.eqb_neq. intros Hid.
        rewrite (Honly a Ha Hid), popular_keqb_refl in Hk. discriminate. }
  rewrite <- Hmine.
  apply group_by_group_of.
  - apply popular_keqb_refl.
  - intros r Hr Hk. unfold rows in Hr. apply in_map_iff in Hr.
    destruct Hr as [[a ob] [<- Ha]]. cbn [fst snd] in *.
    apply left_join_In_left in Ha. rewrite (Hsame a Ha Hk). reflexivity.
  - rewrite Hmine. unfold joined_reviews.
    destruct (filter (on x0) reviews); discriminate.
Qed.

(** No more groups than items. *)
Lemma popular_groups_le :
  (List.length (Sql.group_by fst (Analytics.popular_keqb co) rows)
   <= List.length items)%nat.
Proof.
  unfold rows, Sql.left_join. rewrite map_of_flat_map.
  apply group_count_le with (key_of_item := keyof).
  - intros x r Hr. apply in_map_iff in Hr. destruct Hr as [[a ob] [<- Ha]].
    cbn [fst snd].
    destruct (filter (on x) reviews) as [|b bs].
    + destruct Ha as [[= <- _]|[]]. reflexivity.
    + apply in_map_iff in Ha. destruct Ha as [b' [[= <- _] _]]. reflexivity.
  - intros x. apply popular_keqb_refl.
Qed.

End PopularPart.

Lemma popular_movie_row d movie_id m :
  reflexive (db_collation d) ->
  movies_with_id d movie_id = [m] ->
  In (Analytics.select_popular
        "movie"
        (Analytics.movie_key m,
         map (fun ob => (Analytics.movie_key m, ob))
             (joined_reviews (reviews_of_movie d movie_id))))
     (Analytics.popular_movie_part d).
Proof.
  intros Hrefl Hone. unfold Analytics.popular_movie_part.
  apply in_map.
  assert (m_Movie_ID m = movie_id) as Hid.
  { apply Z.eqb_eq.
    apply (proj1 (filter_In (fun m => m_Movie_ID m =? movie_id) m
                            (tbl_Movie d))).
    unfold movies_with_id in Hone. rewrite Hone. left. reflexivity. }
  pose proof (@popular_group_of
                movie_row m_Movie_ID Analytics.movie_key
                (fun m r => Sql.eq_null (m_Movie_ID m) (r_Movie_ID r))
                (db_collation d) (tbl_Movie d) (tbl_Reviews d)
                (fun x => eq_refl) Hrefl m movie_id Hone) as H.
  cbv beta in H. rewrite Hid in H. exact H.
Qed.

Lemma popular_show_row d show_id s :
  reflexive (db_collation d) ->
  shows_with_id d show_id = [s] ->
  In (Analytics.select_popular
        "show"
        (Analytics.show_key s,
         map (fun ob => (Analytics.show_key s, ob))
             (joined_reviews (reviews_of_show d show_id))))
     (Analytics.popular_show_part d).
Proof.
  intros Hrefl Hone. unfold Analytics.popular_show_part.
  apply in_map.
  assert (s_Show_ID s = show_id) as Hid.
  { apply Z.eqb_eq.
    apply (proj1 (filter_In (fun s => s_Show_ID s =? show_id) s
                            (tbl_TV_Show d))).
    unfold shows_with_id in Hone. rewrite Hone. left. reflexivity. }
  pose proof (@popular_group_of
                show_row s_Show_ID Analytics.show_key
                (fun s r => Sql.eq_null (s_Show_ID s) (r_Show_ID r))
                (db_collation d) (tbl_TV_Show d) (tbl_Reviews d)
                (fun x => eq_refl) Hrefl s show_id Hone) as H.
  cbv beta in H. rewrite Hid in H. exact H.
Qed.

(** With at most 20 movies and shows, LIMIT 20 cuts nothing. *)
Lemma popular_rows_all d p :
  reflexive (db_collation d) ->
  (List.length (tbl_Movie d) + List.length (tbl_TV_Show d) <= 20)%nat ->
  In p (Analytics.popular_movie_part d ++ Analytics.popular_show_part d) ->
  In p (Analytics.popular_rows d).
Proof.
  intros Hrefl Hfew Hin. unfold Analytics.popular_rows.
  rewrite firstn_all2.
  - apply order_by_In. assumption.
  - rewrite <- (Permutation_length (order_by_perm _ _)).
    rewrite length_app.
    unfold Analytics.popular_movie_part, Analytics.popular_show_part.
    rewrite !length_map.
    pose proof (@popular_groups_le
                  movie_row Analytics.movie_key
                  (fun m r => Sql.eq_null (m_Movie_ID m) (r_Movie_ID r))
                  (db_collation d) (tbl_Movie d) (tbl_Reviews d) Hrefl).
    pose proof (@popular_groups_le
                  show_row Analytics.show_key
                  (fun s r => Sql.eq_null (s_Show_ID s) (r_Show_ID r))
                  (db_collation d) (tbl_TV_Show d) (tbl_Reviews d) Hrefl).
    cbv beta in *. lia.
Qed.

(** The aggregates over an item's joined reviews. *)
Lemma COUNT_joined rs :
  Sql.COUNT (map (option_map r_Review_ID) (joined_reviews rs))
  = Z.of_nat (List.length rs).
Proof.
  destruct rs as [|r rs]; [reflexivity|].
  unfold joined_reviews. apply COUNT_of_reviews.
Qed.

Lemma popularity_joined rs :
  (Analytics.popularity (joined_reviews rs) == Sql.SUM (map r_Score rs))%Q.
Proof.
  destruct rs as [|r rs]; [reflexivity|].
  unfold joined_reviews, Analytics.popularity.
  rewrite AVG_of_reviews, COUNT_of_reviews by discriminate.
  cbn [Sql.COALESCE]. apply Qmult_div_r.
  simpl List.length. rewrite Nat2Z.inj_succ.
  intros H. unfold Qeq in H. simpl in H. lia.
Qed.

Lemma detail_popularity_joined rs :
  Movie.detail_popularity (joined_reviews rs)
  = match rs with
    | [] => None
    | _ => Some (inject_Z (Z.of_nat (List.length rs)) * (7 # 10)
                 + Sql.SUM (map r_Score rs)
                   / inject_Z (Z.of_nat (List.length rs)) * (3 # 10))%Q
    end.
Proof.
  destruct rs as [|r rs]; [reflexivity|].
  unfold joined_reviews, Movie.detail_popularity.
  rewrite AVG_of_reviews, COUNT_of_reviews by discriminate. reflexivity.
Qed.

Lemma get_popular_movies_healthy w :
  healthy w ->
  rows_of (Analytics.get_popular_movies w) = Analytics.popular_rows (w_db w).
Proof.
  intros Hh. unfold rows_of, Analytics.get_popular_movies.
  rewrite try_except_reraise.
  rewrite execute_select_healthy by assumption. reflexivity.
Qed.

(* ================================================================== *)
(** * Two popularity scores (C10) *)
(* ================================================================== *)

(** C10.  On a served query, for a movie stored under a unique id with
    [n] reviews of score sum [S]: [get_movie_by_id] returns the movie
    with the popularity [n * 0.7 + (S / n) * 0.3] (NULL when it has no
    review), while [get_popular_movies], over movies and shows together,
    returns it with the popularity [n * (S / n)], which is [S] (0 when
    it has no review); a show gets the same score there, labelled
    'show'.  (The ranking keeps 20 items; with at most 20 movies and
    shows stored every one is returned.)  The two differ as rankings: on
    the sample data the detail page gives movie 2 (3.95) more than movie
    1 (3.7), and [get_popular_movies] puts the show (15.5) first, then
    movie 1 (10), then movie 2 (7.5). *)
Theorem C10_two_popularity_formulas :
  (forall w movie_id m,
      healthy w ->
      movies_with_id (w_db w) movie_id = [m] ->
      let rs := reviews_of_movie (w_db w) movie_id in
      let n := inject_Z (Z.of_nat (List.length rs)) in
      let S := Sql.SUM (map r_Score rs) in
      exists dm,
        fst (Movie.get_movie_by_id movie_id w) = Ok (Some dm)
        /\ Movie.dm_movie dm = m
        /\ Movie.dm_popularity_score dm
           = match rs with
             | [] => None
             | _ => Some (n * (7 # 10) + S / n * (3 # 10))%Q
             end)
  /\ (forall w movie_id m,
         healthy w ->
         reflexive (db_collation (w_db w)) ->
         movies_with_id (w_db w) movie_id = [m] ->
         (List.length (tbl_Movie (w_db w))
          + List.length (tbl_TV_Show (w_db w)) <= 20)%nat ->
         let rs := reviews_of_movie (w_db w) movie_id in
         let n := inject_Z (Z.of_nat (List.length rs)) in
         let S := Sql.SUM (map r_Score rs) in
         exists p,
           In p (rows_of (Analytics.get_popular_movies w))
           /\ Analytics.p_content_type p = "movie"%string
           /\ Analytics.p_Movie_ID p = movie_id
           /\ Analytics.p_Title p = m_Title m
           /\ Analytics.p_review_count p = Z.of_nat (List.length rs)
           /\ (Analytics.p_popularity_score p == S)%Q
           /\ (rs <> [] -> (Analytics.p_popularity_score p == n * (S / n))%Q))
  /\ (forall w show_id s,
         healthy w ->
         reflexive (db_collation (w_db w)) ->
         shows_with_id (w_db w) show_id = [s] ->
         (List.length (tbl_Movie (w_db w))
          + List.length (tbl_TV_Show (w_db w)) <= 20)%nat ->
         let rs := reviews_of_show (w_db w) show_id in
         exists p,
           In p (rows_of (Analytics.get_popular_movies w))
           /\ Analytics.p_content_type p = "show"%string
           /\ Analytics.p_Movie_ID p = show_id
           /\ Analytics.p_Title p = s_Title s
           /\ Analytics.p_review_count p = Z.of_nat (List.length rs)
           /\ (Analytics.p_popularity_score p == Sql.SUM (map r_Score rs))%Q)
  /\ detail_page_score (Sample.world_of Sample.screens_db None) 1
     = Some (Some (37 # 10))
  /\ detail_page_score (Sample.world_of Sample.screens_db None) 2
     = Some (Some (79 # 20))
  /\ popular_ranking (Sample.world_of Sample.screens_db None)
     = [("show"%string, 1, 31 # 2); ("movie"%string, 1, 10%Q);
        ("movie"%string, 2, 15 # 2)].
Proof.
  split; [|split; [|split; [|repeat split; vm_compute; reflexivity]]].
  - intros w movie_id m Hh Hone rs n S.
    rewrite get_movie_by_id_healthy by assumption. cbn [fst].
    rewrite (@movie_by_id_rows_one _ _ _ Hone).
    eexists. split; [reflexivity|]. split; [reflexivity|].
    cbn [Movie.dm_popularity_score]. unfold n, S, rs.
    destruct (reviews_of_movie (w_db w) movie_id) as [|r l];
      [reflexivity|].
    apply (detail_popularity_joined (r :: l)).
  - intros w movie_id m Hh Hrefl Hone Hfew rs n S.
    rewrite get_popular_movies_healthy by assumption.
    assert (m_Movie_ID m = movie_id) as Hid.
    { apply Z.eqb_eq.
      apply (proj1 (filter_In (fun m => m_Movie_ID m =? movie_id) m
                              (tbl_Movie (w_db w)))).
      unfold movies_with_id in Hone. rewrite Hone. left. reflexivity. }
    eexists. split.
    + apply popular_rows_all; [assumption|assumption|].
      apply in_or_app. left. apply popular_movie_row; eassumption.
    + unfold Analytics.select_popular, Analytics.movie_key.
      cbn [fst snd Analytics.p_content_type Analytics.p_Movie_ID
           Analytics.p_Title Analytics.p_review_count
           Analytics.p_popularity_score].
      rewrite !map_map. cbn [snd]. rewrite map_id.
      split; [reflexivity|]. split; [assumption|]. split; [reflexivity|].
      split; [apply COUNT_joined|].
      split; [apply popularity_joined|].
      intros Hne. rewrite popularity_joined. fold rs. fold S.
      symmetry. apply Qmult_div_r.
      unfold n. destruct rs as [|r rs']; [contradiction|].
      simpl List.length. rewrite Nat2Z.inj_succ.
      intros H. unfold Qeq in H. simpl in H. lia.
  - intros w show_id s Hh Hrefl Hone Hfew rs.
    rewrite get_popular_movies_healthy by assumption.
    assert (s_Show_ID s = show_id) as Hid.
    { apply Z.eqb_eq.
      apply (proj1 (filter_In (fun s => s_Show_ID s =? show_id) s
                              (tbl_TV_Show (w_db w)))).
      unfold shows_with_id in Hone. rewrite Hone. left. reflexivity. }
    eexists. split.
    + apply popular_rows_all; [assumption|assumption|].
      apply in_or_app. right. apply popular_show_row; eassumption.
    + unfold Analytics.select_popular, Analytics.show_key.
      cbn [fst snd Analytics.p_content_type Analytics.p_Movie_ID
           Analytics.p_Title Analytics.p_review_count
           Analytics.p_popularity_score].
      rewrite !map_map. cbn [snd]. rewrite map_id.
      split; [reflexivity|]. split; [assumption|]. split; [reflexivity|].
      split; [apply COUNT_joined|apply popularity_joined].
Qed.

(** Movie 2 and show 1 of the sample data. *)
Lemma C10_two_popularity_formulas_witness :
  let w := Sample.world_of Sample.screens_db None in
  (exists dm,
      fst (Movie.get_movie_by_id 2 w) = Ok (Some dm)
      /\ Movie.dm_movie dm = Sample.movie 2 "Brazil"
      /\ Movie.dm_popularity_score dm
         = Some (inject_Z 5 * (7 # 10)
                 + Sql.SUM (map r_Score (reviews_of_movie Sample.screens_db 2))
                   / inject_Z 5 * (3 # 10))%Q)
  /\ (exists p,
         In p (rows_of (Analytics.get_popular_movies w))
         /\ Analytics.p_content_type p = "movie"%string
         /\ Analytics.p_Movie_ID p = 2
         /\ Analytics.p_Title p = "Brazil"%string
         /\ Analytics.p_review_count p = 5
         /\ (Analytics.p_popularity_score p
             == Sql.SUM (map r_Score (reviews_of_movie Sample.screens_db 2)))%Q
         /\ (reviews_of_movie Sample.screens_db 2 <> [] ->
             (Analytics.p_popularity_score p
              == inject_Z 5
                 * (Sql.SUM (map r_Score
                                 (reviews_of_movie Sample.screens_db 2))
                    / inject_Z 5))%Q))
  /\ (exists p,
         In p (rows_of (Analytics.get_popular_movies w))
         /\ Analytics.p_content_type p = "show"%string
         /\ Analytics.p_Movie_ID p = 1
         /\ Analytics.p_Title p = "Cosmos"%string
         /\ Analytics.p_review_count p = 2
         /\ (Analytics.p_popularity_score p
             == Sql.SUM (map r_Score
                             (reviews_of_show Sample.screens_db 1)))%Q).
Proof.
  cbv zeta.
  destruct C10_two_popularity_formulas as [Hdetail [Hmovie [Hshow _]]].
  split; [|split].
  - apply (Hdetail (Sample.world_of Sample.screens_db None) 2
                   (Sample.movie 2 "Brazil")); reflexivity.
  - apply (Hmovie (Sample.world_of Sample.screens_db None) 2
                  (Sample.movie 2 "Brazil")).
    + reflexivity.
    + intros s. apply String.eqb_refl.
    + reflexivity.
    + simpl. lia.
  - apply (Hshow (Sample.world_of Sample.screens_db None) 1
                 (ShowRow 1 "Cosmos" None None None None None)).
    + reflexivity.
    + intros s. apply String.eqb_refl.
    + reflexivity.
    + simpl. lia.
Defined.
